(** * PDFDocument: the reference store, the page buffer and the finalisation
    state machine of [lib/document.js].

    The development is a shallow embedding of the [PDFDocument] class: the
    fields of [this] become a record, every method becomes a computation in a
    small state-and-exception monad over that record, and the byte sink
    ([stream.Readable.push]) becomes the list of pushed chunks. *)

From Stdlib Require Import ZArith Lia Ascii String Sorted.
From stdpp Require Import base tactics option list numbers strings pretty gmap.

Local Open Scope Z_scope.

(** ** JavaScript values *)

(** The line feed character, written ['\n'] in the source. *)
Definition LF : string := String "010"%char EmptyString.

(** A Node [Buffer] is a sequence of bytes. *)
Definition Buffer : Type := list Byte.byte.

(** [Buffer.from(s, 'binary')]: one byte per character. *)
Definition Buffer_from_binary (s : string) : Buffer := list_byte_of_string s.

(** [s.slice(-k)]: the last [k] characters of [s] (all of [s] when it is
    shorter). *)
Fixpoint string_drop (n : nat) (s : string) : string :=
  match n, s with
  | O, _ => s
  | S n', String _ s' => string_drop n' s'
  | S _, EmptyString => EmptyString
  end.

Definition slice_last (k : nat) (s : string) : string :=
  string_drop (String.length s - k) s.

(** Dynamically typed values as they occur in option bags, destination
    arguments and dictionary payloads.  Numbers are integer valued; an
    indirect reference is named by its object id; [JStringObj] is a
    [new String(...)] wrapper, [JDate] a [Date] given by its time value. *)
#[local] Unset Elimination Schemes.
Inductive jsval : Type :=
  | JUndefined
  | JNull
  | JBool (b : bool)
  | JNum (n : Z)
  | JNaN
  | JStr (s : string)
  | JStringObj (s : string)
  | JDate (t : Z)
  | JRef (i : Z)
  | JArr (l : list jsval)
  | JObj (fields : list (string * jsval)).
#[local] Set Elimination Schemes.

(** The value kept in a slot of [_offsets] and in [ref.offset]: [undefined]
    (never assigned, or a hole of the array), [null] (the placeholder pushed
    by [ref]) or a number. *)
Inductive jsoffset : Type :=
  | off_undefined
  | off_null
  | off_number (n : Z).

(** Template-literal conversion [`${offset}`]. *)
Definition jsoffset_toString (o : jsoffset) : string :=
  match o with
  | off_undefined => "undefined"
  | off_null => "null"
  | off_number n => pretty n
  end.

(** [arr[i] = v] on a JavaScript array: an index inside the array replaces
    the element, an index past the end extends the array with holes, and a
    negative index only adds a property, leaving the elements as they are. *)
Definition array_set {A : Type} (hole : A) (arr : list A) (i : Z) (v : A) : list A :=
  if i <? 0 then arr
  else
    let k := Z.to_nat i in
    if (k <? length arr)%nat then <[k := v]> arr
    else arr ++ replicate (k - length arr) hole ++ [v].

(** ** The objects of the document *)

(** Thrown values. *)
Inductive JSError : Type :=
  | Error (message : string)
  | TypeError (message : string).

(** [this.version]: the switch of the constructor assigns one of five number
    literals. *)
Inductive PDFVersion : Type := v1_3 | v1_4 | v1_5 | v1_6 | v1_7.

(** [`${this.version}`]. *)
Definition PDFVersion_toString (v : PDFVersion) : string :=
  match v with
  | v1_3 => "1.3" | v1_4 => "1.4" | v1_5 => "1.5" | v1_6 => "1.6" | v1_7 => "1.7"
  end.

Record Margins : Type := { m_top : Z; m_left : Z; m_bottom : Z; m_right : Z }.

(** The part of an option bag that a page reads: its size (width, height)
    and its margins. *)
Record PageOptions : Type := { size : Z * Z; margin : Margins }.

(** The option bag handed to the constructor.  [None] stands for a key that
    is absent ([undefined]); [bufferPages] and [displayTitle] are only tested
    for truthiness. *)
Module Options.
Record t : Type := {
  pdfVersion : jsval;
  compress : option bool;
  bufferPages : bool;
  autoFirstPage : jsval;
  lang : option string;
  displayTitle : bool;
  info : option (list (string * jsval));
  password : option string;
  page : PageOptions
}.
End Options.

(** A [PDFReference] object: its object id, its payload as last seen by the
    document, and [ref.offset], unset until the reference is serialised. *)
Record PDFReference : Type := { id : Z; data : jsval; offset : jsoffset }.

Definition with_data (v : jsval) (r : PDFReference) : PDFReference :=
  {| id := id r; data := v; offset := offset r |}.

Definition with_offset (o : jsoffset) (r : PDFReference) : PDFReference :=
  {| id := id r; data := data r; offset := o |}.

(** A [PDFPage] object as far as the document reads it. *)
Record PDFPage : Type := {
  dictionary : PDFReference;
  content : PDFReference;
  width : Z;
  height : Z;
  margins : Margins
}.

(** A [PDFSecurity] object: the document only reads its [dictionary]. *)
Module PDFSecurity.
Record t : Type := { dictionary : PDFReference }.
End PDFSecurity.

(** [this._root.data]: the payload of the catalog. *)
Record Catalog : Type := {
  Pages : PDFReference;
  Names : PDFReference;
  Lang : option string;
  ViewerPreferences : option PDFReference
}.

(** [this._root.data.Pages.data]: the payload of the page tree root. *)
Record PagesData : Type := { Count : Z; Kids : list PDFReference }.

(** [this._root.data.Names.data]: the payload of the names dictionary.  A
    name tree is a finite map from names to values; the trees of embedded
    files and of scripts are absent until their first entry is added. *)
Record NamesData : Type := {
  Dests : gmap string jsval;
  EmbeddedFiles : option (gmap string jsval);
  JavaScript : option (gmap string jsval)
}.

(** What [this.push] received: a chunk of bytes, or [null] which closes
    the stream. *)
Inductive push_arg : Type :=
  | Chunk (b : Buffer)
  | EndOfStream.

(** What [_write] receives: a string, or a [Buffer]. *)
Inductive write_arg : Type :=
  | Str (s : string)
  | Buf (b : Buffer).

(** The fields of [this].  [_root_data], [Pages_data] and [Names_data] are
    the live payloads reached as [this._root.data], [this._root.data.Pages.data]
    and [this._root.data.Names.data]; [_info_data] is [this._info.data];
    [pushed] is everything handed to [this.push], oldest first. *)
Record PDFDocument : Type := {
  options : Options.t;
  version : PDFVersion;
  compress : bool;
  _pageBuffer : list PDFPage;
  _pageBufferStart : Z;
  _offsets : list jsoffset;
  _waiting : Z;
  _ended : bool;
  _offset : Z;
  pushed : list push_arg;
  _root : PDFReference;
  _root_data : Catalog;
  Pages_data : PagesData;
  Names_data : NamesData;
  page : option PDFPage;
  info : list (string * jsval);
  _info : option PDFReference;
  _info_data : list (string * PDFReference);
  _id : string;
  _security : option PDFSecurity.t;
  x : Z;
  y : Z
}.

(** Field assignments [this.f = v]. *)
Definition set_pageBuffer (v : list PDFPage) (d : PDFDocument) : PDFDocument :=
  {| options := options d; version := version d; compress := compress d;
     _pageBuffer := v; _pageBufferStart := _pageBufferStart d;
     _offsets := _offsets d; _waiting := _waiting d; _ended := _ended d;
     _offset := _offset d; pushed := pushed d; _root := _root d;
     _root_data := _root_data d; Pages_data := Pages_data d;
     Names_data := Names_data d; page := page d; info := info d; _info := _info d;
     _info_data := _info_data d; _id := _id d; _security := _security d; x := x d;
     y := y d |}.
Definition set_pageBufferStart (v : Z) (d : PDFDocument) : PDFDocument :=
  {| options := options d; version := version d; compress := compress d;
     _pageBuffer := _pageBuffer d; _pageBufferStart := v; _offsets := _offsets d;
     _waiting := _waiting d; _ended := _ended d; _offset := _offset d;
     pushed := pushed d; _root := _root d; _root_data := _root_data d;
     Pages_data := Pages_data d; Names_data := Names_data d; page := page d;
     info := info d; _info := _info d; _info_data := _info_data d; _id := _id d;
     _security := _security d; x := x d; y := y d |}.
Definition set_offsets (v : list jsoffset) (d : PDFDocument) : PDFDocument :=
  {| options := options d; version := version d; compress := compress d;
     _pageBuffer := _pageBuffer d; _pageBufferStart := _pageBufferStart d;
     _offsets := v; _waiting := _waiting d; _ended := _ended d;
     _offset := _offset d; pushed := pushed d; _root := _root d;
     _root_data := _root_data d; Pages_data := Pages_data d;
     Names_data := Names_data d; page := page d; info := info d; _info := _info d;
     _info_data := _info_data d; _id := _id d; _security := _security d; x := x d;
     y := y d |}.
Definition set_waiting (v : Z) (d : PDFDocument) : PDFDocument :=
  {| options := options d; version := version d; compress := compress d;
     _pageBuffer := _pageBuffer d; _pageBufferStart := _pageBufferStart d;
     _offsets := _offsets d; _waiting := v; _ended := _ended d;
     _offset := _offset d; pushed := pushed d; _root := _root d;
     _root_data := _root_data d; Pages_data := Pages_data d;
     Names_data := Names_data d; page := page d; info := info d; _info := _info d;
     _info_data := _info_data d; _id := _id d; _security := _security d; x := x d;
     y := y d |}.
Definition set_ended (v : bool) (d : PDFDocument) : PDFDocument :=
  {| options := options d; version := version d; compress := compress d;
     _pageBuffer := _pageBuffer d; _pageBufferStart := _pageBufferStart d;
     _offsets := _offsets d; _waiting := _waiting d; _ended := v;
     _offset := _offset d; pushed := pushed d; _root := _root d;
     _root_data := _root_data d; Pages_data := Pages_data d;
     Names_data := Names_data d; page := page d; info := info d; _info := _info d;
     _info_data := _info_data d; _id := _id d; _security := _security d; x := x d;
     y := y d |}.
Definition set_offset (v : Z) (d : PDFDocument) : PDFDocument :=
  {| options := options d; version := version d; compress := compress d;
     _pageBuffer := _pageBuffer d; _pageBufferStart := _pageBufferStart d;
     _offsets := _offsets d; _waiting := _waiting d; _ended := _ended d;
     _offset := v; pushed := pushed d; _root := _root d; _root_data := _root_data d;
     Pages_data := Pages_data d; Names_data := Names_data d; page := page d;
     info := info d; _info := _info d; _info_data := _info_data d; _id := _id d;
     _security := _security d; x := x d; y := y d |}.
Definition set_pushed (v : list push_arg) (d : PDFDocument) : PDFDocument :=
  {| options := options d; version := version d; compress := compress d;
     _pageBuffer := _pageBuffer d; _pageBufferStart := _pageBufferStart d;
     _offsets := _offsets d; _waiting := _waiting d; _ended := _ended d;
     _offset := _offset d; pushed := v; _root := _root d;
     _root_data := _root_data d; Pages_data := Pages_data d;
     Names_data := Names_data d; page := page d; info := info d; _info := _info d;
     _info_data := _info_data d; _id := _id d; _security := _security d; x := x d;
     y := y d |}.
Definition set_root (v : PDFReference) (d : PDFDocument) : PDFDocument :=
  {| options := options d; version := version d; compress := compress d;
     _pageBuffer := _pageBuffer d; _pageBufferStart := _pageBufferStart d;
     _offsets := _offsets d; _waiting := _waiting d; _ended := _ended d;
     _offset := _offset d; pushed := pushed d; _root := v;
     _root_data := _root_data d; Pages_data := Pages_data d;
     Names_data := Names_data d; page := page d; info := info d; _info := _info d;
     _info_data := _info_data d; _id := _id d; _security := _security d; x := x d;
     y := y d |}.
Definition set_root_data (v : Catalog) (d : PDFDocument) : PDFDocument :=
  {| options := options d; version := version d; compress := compress d;
     _pageBuffer := _pageBuffer d; _pageBufferStart := _pageBufferStart d;
     _offsets := _offsets d; _waiting := _waiting d; _ended := _ended d;
     _offset := _offset d; pushed := pushed d; _root := _root d; _root_data := v;
     Pages_data := Pages_data d; Names_data := Names_data d; page := page d;
     info := info d; _info := _info d; _info_data := _info_data d; _id := _id d;
     _security := _security d; x := x d; y := y d |}.
Definition set_Pages_data (v : PagesData) (d : PDFDocument) : PDFDocument :=
  {| options := options d; version := version d; compress := compress d;
     _pageBuffer := _pageBuffer d; _pageBufferStart := _pageBufferStart d;
     _offsets := _offsets d; _waiting := _waiting d; _ended := _ended d;
     _offset := _offset d; pushed := pushed d; _root := _root d;
     _root_data := _root_data d; Pages_data := v; Names_data := Names_data d;
     page := page d; info := info d; _info := _info d; _info_data := _info_data d;
     _id := _id d; _security := _security d; x := x d; y := y d |}.
Definition set_Names_data (v : NamesData) (d : PDFDocument) : PDFDocument :=
  {| options := options d; version := version d; compress := compress d;
     _pageBuffer := _pageBuffer d; _pageBufferStart := _pageBufferStart d;
     _offsets := _offsets d; _waiting := _waiting d; _ended := _ended d;
     _offset := _offset d; pushed := pushed d; _root := _root d;
     _root_data := _root_data d; Pages_data := Pages_data d; Names_data := v;
     page := page d; info := info d; _info := _info d; _info_data := _info_data d;
     _id := _id d; _security := _security d; x := x d; y := y d |}.
Definition set_page (v : option PDFPage) (d : PDFDocument) : PDFDocument :=
  {| options := options d; version := version d; compress := compress d;
     _pageBuffer := _pageBuffer d; _pageBufferStart := _pageBufferStart d;
     _offsets := _offsets d; _waiting := _waiting d; _ended := _ended d;
     _offset := _offset d; pushed := pushed d; _root := _root d;
     _root_data := _root_data d; Pages_data := Pages_data d;
     Names_data := Names_data d; page := v; info := info d; _info := _info d;
     _info_data := _info_data d; _id := _id d; _security := _security d; x := x d;
     y := y d |}.
Definition set_info (v : option PDFReference) (d : PDFDocument) : PDFDocument :=
  {| options := options d; version := version d; compress := compress d;
     _pageBuffer := _pageBuffer d; _pageBufferStart := _pageBufferStart d;
     _offsets := _offsets d; _waiting := _waiting d; _ended := _ended d;
     _offset := _offset d; pushed := pushed d; _root := _root d;
     _root_data := _root_data d; Pages_data := Pages_data d;
     Names_data := Names_data d; page := page d; info := info d; _info := v;
     _info_data := _info_data d; _id := _id d; _security := _security d; x := x d;
     y := y d |}.
Definition set_info_data (v : list (string * PDFReference)) (d : PDFDocument) : PDFDocument :=
  {| options := options d; version := version d; compress := compress d;
     _pageBuffer := _pageBuffer d; _pageBufferStart := _pageBufferStart d;
     _offsets := _offsets d; _waiting := _waiting d; _ended := _ended d;
     _offset := _offset d; pushed := pushed d; _root := _root d;
     _root_data := _root_data d; Pages_data := Pages_data d;
     Names_data := Names_data d; page := page d; info := info d; _info := _info d;
     _info_data := v; _id := _id d; _security := _security d; x := x d; y := y d |}.
Definition set_security (v : option PDFSecurity.t) (d : PDFDocument) : PDFDocument :=
  {| options := options d; version := version d; compress := compress d;
     _pageBuffer := _pageBuffer d; _pageBufferStart := _pageBufferStart d;
     _offsets := _offsets d; _waiting := _waiting d; _ended := _ended d;
     _offset := _offset d; pushed := pushed d; _root := _root d;
     _root_data := _root_data d; Pages_data := Pages_data d;
     Names_data := Names_data d; page := page d; info := info d; _info := _info d;
     _info_data := _info_data d; _id := _id d; _security := v; x := x d; y := y d |}.
Definition set_x (v : Z) (d : PDFDocument) : PDFDocument :=
  {| options := options d; version := version d; compress := compress d;
     _pageBuffer := _pageBuffer d; _pageBufferStart := _pageBufferStart d;
     _offsets := _offsets d; _waiting := _waiting d; _ended := _ended d;
     _offset := _offset d; pushed := pushed d; _root := _root d;
     _root_data := _root_data d; Pages_data := Pages_data d;
     Names_data := Names_data d; page := page d; info := info d; _info := _info d;
     _info_data := _info_data d; _id := _id d; _security := _security d; x := v;
     y := y d |}.
Definition set_y (v : Z) (d : PDFDocument) : PDFDocument :=
  {| options := options d; version := version d; compress := compress d;
     _pageBuffer := _pageBuffer d; _pageBufferStart := _pageBufferStart d;
     _offsets := _offsets d; _waiting := _waiting d; _ended := _ended d;
     _offset := _offset d; pushed := pushed d; _root := _root d;
     _root_data := _root_data d; Pages_data := Pages_data d;
     Names_data := Names_data d; page := page d; info := info d; _info := _info d;
     _info_data := _info_data d; _id := _id d; _security := _security d; x := x d;
     y := v |}.

(** ** Computations on the document *)

(** A method either returns a value or throws; in both cases it leaves a
    document state behind. *)
Inductive outcome (A : Type) : Type :=
  | Returned (a : A)
  | Thrown (e : JSError).
Arguments Returned {A} a.
Arguments Thrown {A} e.

Definition M (A : Type) : Type := PDFDocument -> outcome A * PDFDocument.

Definition ret {A : Type} (a : A) : M A := fun d => (Returned a, d).

Definition bind {A B : Type} (m : M A) (k : A -> M B) : M B :=
  fun d =>
    match m d with
    | (Returned a, d') => k a d'
    | (Thrown e, d') => (Thrown e, d')
    end.

Definition throw {A : Type} (e : JSError) : M A := fun d => (Thrown e, d).

Definition gets {A : Type} (f : PDFDocument -> A) : M A := fun d => (Returned (f d), d).

Definition modify (f : PDFDocument -> PDFDocument) : M unit := fun d => (Returned tt, f d).

Declare Scope js_scope.
Delimit Scope js_scope with js.
Notation "'let*' a := m 'in' k" := (bind m (fun a => k))
  (at level 10, a name, m at level 100, k at level 200) : js_scope.
Notation "m ;; k" := (bind m (fun _ => k))
  (at level 100, k at level 200, right associativity) : js_scope.
Local Open Scope js_scope.

(** [for (let a of l) body(a)]. *)
Fixpoint for_of {A : Type} (l : list A) (body : A -> M unit) : M unit :=
  match l with
  | [] => ret tt
  | a :: l' => body a ;; for_of l' body
  end.

(** The state a computation leaves behind, and the value it returns. *)
Definition exec {A : Type} (m : M A) (d : PDFDocument) : PDFDocument := snd (m d).
Definition result {A : Type} (m : M A) (d : PDFDocument) : outcome A := fst (m d).

(** ** Collaborators *)

(** A call that another class or a mixin makes on the document's object
    store: [doc.ref(data)], [doc._write(data)] or [doc._refEnd(ref)]. *)
Inductive store_call : Type :=
  | call_ref (data : jsval)
  | call_write (data : write_arg)
  | call_refEnd (r : PDFReference).

(** The parts of the library that [document.js] imports.  [PDFObject.convert]
    and [PDFSecurity.generateFileID] are functions of their argument; a mixin
    hook is known to the document by the calls it makes on the store.
    [endPageMarkings] is handed a page by [flushPages] and [this.page], which
    may be [null], by [continueOnNewPage]. *)
Record Library : Type := {
  PDFObject_convert : jsval -> string;
  generateFileID : list (string * jsval) -> string;
  initMixins : list store_call;
  endPageMarkings : option PDFPage -> list store_call;
  initPageMarkings : list store_call;
  finalizeFonts : list store_call;
  endOutline : list store_call;
  endMarkings : list store_call;
  subset : bool;
  endSubset : list store_call;
  endMetadata : list store_call;
  endAcroForm : list store_call
}.

Section Document.

Context (lib : Library).

(** ** The object store and the byte sink *)

(** [this.push(chunk)] of [stream.Readable]. *)
Definition push (c : push_arg) : M unit :=
  modify (fun d => set_pushed (pushed d ++ [c]) d).

(** What [this.push(null)] returns: a readable stream answers [false] when
    it is told that no more data will come. *)
Definition push_null : jsval := JBool false.

(** [ref(data)] *)
Definition ref (data : jsval) : M PDFReference :=
  let* offsets := gets _offsets in
  let ref := {| id := Z.of_nat (length offsets) + 1; data := data; offset := off_undefined |} in
  modify (fun d => set_offsets (_offsets d ++ [off_null]) d) ;;
  modify (fun d => set_waiting (_waiting d + 1) d) ;;
  ret ref.

(** The chunk [_write] pushes for its argument: a [Buffer] as it is, a
    string followed by a line feed and encoded one byte per character. *)
Definition written (data : write_arg) : Buffer :=
  match data with
  | Buf b => b
  | Str s => Buffer_from_binary (s +:+ LF)
  end.

(** [_write(data)] *)
Definition _write (data : write_arg) : M Z :=
  let data := written data in
  push (Chunk data) ;;
  modify (fun d => set_offset (_offset d + Z.of_nat (length data)) d) ;;
  gets _offset.

(** The trailer dictionary built by [_finalize]. *)
Definition trailer (d : PDFDocument) : jsval :=
  JObj ([ ("Size", JNum (Z.of_nat (length (_offsets d)) + 1));
          ("Root", JRef (id (_root d)));
          ("Info", match _info d with Some r => JRef (id r) | None => JUndefined end);
          ("ID", JArr [JStr (_id d); JStr (_id d)]) ]
        ++ match _security d with
           | Some s => [ ("Encrypt", JRef (id (PDFSecurity.dictionary s))) ]
           | None => []
           end).

(** One line of the cross-reference table. *)
Definition xref_entry (offset : jsoffset) : string :=
  slice_last 10 ("0000000000" +:+ jsoffset_toString offset) +:+ " 00000 n ".

(** [_finalize()]; the value of [this.push(null)], which the method hands
    back, is [push_null]: the caller that uses it, [end], takes it from
    there. *)
Definition _finalize : M unit :=
  let* xRefOffset := gets _offset in
  _write (Str "xref") ;;
  let* offsets := gets _offsets in
  _write (Str ("0 " +:+ pretty (Z.of_nat (length offsets) + 1))) ;;
  _write (Str "0000000000 65535 f ") ;;
  for_of offsets (fun offset => _write (Str (xref_entry offset)) ;; ret tt) ;;
  let* trailer := gets trailer in
  _write (Str "trailer") ;;
  _write (Str (PDFObject_convert lib trailer)) ;;
  _write (Str "startxref") ;;
  _write (Str (pretty xRefOffset)) ;;
  _write (Str "%%EOF") ;;
  push EndOfStream.

(** [_refEnd(ref)] *)
Definition _refEnd (ref : PDFReference) : M jsval :=
  modify (fun d => set_offsets (array_set off_undefined (_offsets d) (id ref - 1) (offset ref)) d) ;;
  modify (fun d => set_waiting (_waiting d - 1) d) ;;
  let* waiting := gets _waiting in
  let* ended := gets _ended in
  if (waiting =? 0) && ended then
    _finalize ;;
    modify (set_ended false) ;;
    ret (JBool false)
  else ret JUndefined.

(** The effect of a collaborator's calls on the store. *)
Definition run_call (c : store_call) : M unit :=
  match c with
  | call_ref data => ref data ;; ret tt
  | call_write data => _write data ;; ret tt
  | call_refEnd r => _refEnd r ;; ret tt
  end.

Definition run_calls (cs : list store_call) : M unit := for_of cs run_call.

(** ** References, pages, name trees and the security filter *)

(** Modelled from the spec: [PDFReference.end] lives in [lib/reference.js],
    which is absent.  Finalising a reference captures the sink's cumulative
    offset before the reference's bytes are written, writes the
    [N 0 obj ... endobj] framing around the serialised payload, and reports
    the offset back to the store, which decrements the outstanding counter. *)
Definition PDFReference_end (r : PDFReference) : M unit :=
  let* offset := gets _offset in
  let r := with_offset (off_number offset) r in
  _write (Str (pretty (id r) +:+ " 0 obj")) ;;
  _write (Str (PDFObject_convert lib (data r))) ;;
  _write (Str "endobj") ;;
  _refEnd r ;;
  ret tt.

(** Modelled from the spec: the [PDFPage] constructor lives in [lib/page.js],
    which is absent.  A page has a dictionary backed by a reference (size,
    resources, content-stream reference, parent-pages reference), margins and
    a size taken from its options. *)
Definition PDFPage_new (opts : PageOptions) : M PDFPage :=
  let* content := ref JUndefined in
  let* parent := gets (fun d => Pages (_root_data d)) in
  let* dictionary :=
    ref (JObj [ ("Type", JStr "Page");
                ("Parent", JRef (id parent));
                ("MediaBox", JArr [JNum 0; JNum 0; JNum (fst (size opts)); JNum (snd (size opts))]);
                ("Contents", JRef (id content));
                ("Resources", JObj []) ]) in
  ret {| dictionary := dictionary; content := content;
         width := fst (size opts); height := snd (size opts);
         margins := margin opts |}.

(** Modelled from the spec: [PDFPage.end] lives in [lib/page.js], which is
    absent.  Flushing a page serialises its dictionary and closes its content
    stream. *)
Definition PDFPage_end (p : PDFPage) : M unit :=
  PDFReference_end (dictionary p) ;;
  PDFReference_end (content p).

(** Modelled from the spec: [PDFNameTree.add] lives in [lib/name_tree.js],
    which is absent.  A name tree maps each key to one value. *)
Definition PDFNameTree_add (key : string) (val : jsval) (t : gmap string jsval)
  : gmap string jsval :=
  <[key := val]> t.

(** Modelled from the spec: [PDFSecurity.create] and [PDFSecurity.end] live
    in [lib/security.js], which is absent.  The filter is optional, configured
    from the password options, and owns the reference of the [Encrypt]
    dictionary. *)
Definition PDFSecurity_create (opts : Options.t) : M (option PDFSecurity.t) :=
  match Options.password opts with
  | None => ret None
  | Some _ =>
      let* dictionary := ref (JObj []) in
      ret (Some {| PDFSecurity.dictionary := dictionary |})
  end.

Definition PDFSecurity_end (s : PDFSecurity.t) : M unit :=
  PDFReference_end (PDFSecurity.dictionary s).

(** The payloads of the catalog, the page tree root and the names dictionary
    as [PDFObject.convert] receives them. *)
Definition Pages_toJS (p : PagesData) : jsval :=
  JObj [ ("Type", JStr "Pages"); ("Count", JNum (Count p));
         ("Kids", JArr (map (fun r => JRef (id r)) (Kids p))) ].

Definition Names_toJS (n : NamesData) : jsval :=
  JObj ([ ("Dests", JObj (map_to_list (Dests n))) ]
        ++ match EmbeddedFiles n with
           | Some t => [ ("EmbeddedFiles", JObj (map_to_list t)) ]
           | None => []
           end
        ++ match JavaScript n with
           | Some t => [ ("JavaScript", JObj (map_to_list t)) ]
           | None => []
           end).

Definition Catalog_toJS (c : Catalog) : jsval :=
  JObj ([ ("Type", JStr "Catalog"); ("Pages", JRef (id (Pages c)));
          ("Names", JRef (id (Names c))) ]
        ++ match Lang c with Some l => [ ("Lang", JStringObj l) ] | None => [] end
        ++ match ViewerPreferences c with
           | Some r => [ ("ViewerPreferences", JRef (id r)) ]
           | None => []
           end).

(** ** Pages *)

(** [flushPages()] *)
Definition flushPages : M unit :=
  let* pages := gets _pageBuffer in
  modify (set_pageBuffer []) ;;
  modify (fun d => set_pageBufferStart (_pageBufferStart d + Z.of_nat (length pages)) d) ;;
  for_of pages (fun page =>
    run_calls (endPageMarkings lib (Some page)) ;;
    PDFPage_end page).

(** The statements of [addPage] after the flush: create the page, make it
    current, buffer it and enter it in the page tree.  The coordinate flip
    and the [pageAdded] event touch only the page content and the listeners,
    which are outside the store. *)
Definition create_page (opts : PageOptions) : M unit :=
  let* page := PDFPage_new opts in
  modify (set_page (Some page)) ;;
  modify (fun d => set_pageBuffer (_pageBuffer d ++ [page]) d) ;;
  modify (fun d => set_Pages_data
            {| Count := Count (Pages_data d);
               Kids := Kids (Pages_data d) ++ [dictionary page] |} d) ;;
  modify (fun d => set_Pages_data
            {| Count := Count (Pages_data d) + 1;
               Kids := Kids (Pages_data d) |} d) ;;
  modify (set_x (m_left (margins page))) ;;
  modify (set_y (m_top (margins page))) ;;
  ret tt.

(** [addPage(options)] *)
Definition addPage (opts : option PageOptions) : M unit :=
  let* opts :=
    match opts with
    | Some o => ret o
    | None => gets (fun d => Options.page (options d))
    end in
  let* bufferPages := gets (fun d => Options.bufferPages (options d)) in
  (if negb bufferPages then flushPages else ret tt) ;;
  create_page opts.

(** [continueOnNewPage(options)] *)
Definition continueOnNewPage (opts : option PageOptions) : M unit :=
  let* current := gets page in
  run_calls (endPageMarkings lib current) ;;
  addPage opts ;;
  run_calls (initPageMarkings lib).

(** [bufferedPageRange()] *)
Definition bufferedPageRange : M (Z * Z) :=
  let* start := gets _pageBufferStart in
  let* buffer := gets _pageBuffer in
  ret (start, Z.of_nat (length buffer)).

(** [arr[i]] for an integer [i]: [undefined] outside the array. *)
Definition array_get {A : Type} (arr : list A) (i : Z) : option A :=
  if i <? 0 then None else arr !! Z.to_nat i.

Definition out_of_bounds_message (n start count : Z) : string :=
  "switchToPage(" +:+ pretty n +:+ ") out of bounds, current buffer covers pages "
  +:+ pretty start +:+ " to " +:+ pretty (start + count - 1).

(** [switchToPage(n)] *)
Definition switchToPage (n : Z) : M PDFPage :=
  let* buffer := gets _pageBuffer in
  let* start := gets _pageBufferStart in
  match array_get buffer (n - start) with
  | None => throw (Error (out_of_bounds_message n start (Z.of_nat (length buffer))))
  | Some page =>
      modify (set_page (Some page)) ;;
      ret page
  end.

(** ** Named destinations *)

(** [height - v]: the operand is converted by [ToNumber].  Numbers,
    booleans and [null] convert to an integer; every other value is taken
    as [NaN] (numeric strings are outside the model). *)
Definition subtract_from (h : Z) (v : jsval) : jsval :=
  match v with
  | JNum n => JNum (h - n)
  | JBool b => JNum (h - (if b then 1 else 0))
  | JNull => JNum h
  | _ => JNaN
  end.

(** [v === 'XYZ'] and [v !== null] on an array element that may be absent. *)
Definition is_XYZ (v : option jsval) : bool :=
  match v with
  | Some (JStr s) => bool_decide (s = "XYZ")
  | _ => false
  end.

Definition is_not_null (v : option jsval) : bool :=
  match v with
  | Some JNull => false
  | _ => true
  end.

(** [addNamedDestination(name, ...args)] *)
Definition addNamedDestination (name : string) (args : list jsval) : M unit :=
  let args := if (length args =? 0)%nat then [JStr "XYZ"; JNull; JNull; JNull] else args in
  let* args :=
    if is_XYZ (args !! 0%nat) && is_not_null (args !! 2%nat) then
      let* current := gets page in
      match current with
      | None => throw (TypeError "Cannot read properties of null (reading 'height')")
      | Some p =>
          ret (array_set JUndefined args 2
                 (subtract_from (height p) (default JUndefined (args !! 2%nat))))
      end
    else ret args in
  let* current := gets page in
  match current with
  | None => throw (TypeError "Cannot read properties of null (reading 'dictionary')")
  | Some p =>
      let args := JRef (id (dictionary p)) :: args in
      modify (fun d => set_Names_data
                {| Dests := PDFNameTree_add name (JArr args) (Dests (Names_data d));
                   EmbeddedFiles := EmbeddedFiles (Names_data d);
                   JavaScript := JavaScript (Names_data d) |} d)
  end.

(** [addNamedEmbeddedFile(name, ref)] *)
Definition addNamedEmbeddedFile (name : string) (r : PDFReference) : M unit :=
  let* names := gets Names_data in
  match EmbeddedFiles names with
  | None =>
      modify (fun d => set_Names_data
                {| Dests := Dests (Names_data d);
                   EmbeddedFiles := Some ∅;
                   JavaScript := JavaScript (Names_data d) |} d)
  | Some _ => ret tt
  end ;;
  modify (fun d => set_Names_data
            {| Dests := Dests (Names_data d);
               EmbeddedFiles :=
                 Some (PDFNameTree_add name (JRef (id r))
                         (default ∅ (EmbeddedFiles (Names_data d))));
               JavaScript := JavaScript (Names_data d) |} d).

(** [addNamedJavaScript(name, js)] *)
Definition addNamedJavaScript (name : string) (js : string) : M unit :=
  let* names := gets Names_data in
  match JavaScript names with
  | None =>
      modify (fun d => set_Names_data
                {| Dests := Dests (Names_data d);
                   EmbeddedFiles := EmbeddedFiles (Names_data d);
                   JavaScript := Some ∅ |} d)
  | Some _ => ret tt
  end ;;
  let data := JObj [ ("JS", JStringObj js); ("S", JStr "JavaScript") ] in
  modify (fun d => set_Names_data
            {| Dests := Dests (Names_data d);
               EmbeddedFiles := EmbeddedFiles (Names_data d);
               JavaScript :=
                 Some (PDFNameTree_add name data
                         (default ∅ (JavaScript (Names_data d)))) |} d).

(** [addContent(data)]: the data goes to the content stream of the current
    page, which the page keeps until it is flushed; the document only
    dereferences [this.page]. *)
Definition addContent (data : write_arg) : M unit :=
  let* current := gets page in
  match current with
  | None => throw (TypeError "Cannot read properties of null (reading 'write')")
  | Some _ => ret tt
  end.

(** ** Ending the document *)

(** The body of the [for (let key in this.info)] loop of [end];
    [_info_data] is the payload of the reference [this._info], empty when
    the reference is new. *)
Definition end_info_entry (kv : string * jsval) : M unit :=
  let val :=
    match snd kv with
    | JStr s => JStringObj s
    | v => v
    end in
  let* entry := ref val in
  PDFReference_end entry ;;
  modify (fun d => set_info_data (_info_data d ++ [(fst kv, entry)]) d).

(** [this._info.end()], [this._root.end()], [this._root.data.Pages.end()]
    and [this._root.data.Names.end()]: each reference is serialised with its
    payload as it is at that moment. *)
Definition end_info (r : PDFReference) : M unit :=
  let* entries := gets _info_data in
  PDFReference_end (with_data (JObj (map (fun e => (fst e, JRef (id (snd e)))) entries)) r).

Definition end_root : M unit :=
  let* r := gets _root in
  let* c := gets _root_data in
  PDFReference_end (with_data (Catalog_toJS c) r).

Definition end_Pages : M unit :=
  let* c := gets _root_data in
  let* p := gets Pages_data in
  PDFReference_end (with_data (Pages_toJS p) (Pages c)).

Definition end_Names : M unit :=
  let* c := gets _root_data in
  let* n := gets Names_data in
  PDFReference_end (with_data (Names_toJS n) (Names c)).

(** The statements of [end()] before its last [if]: every buffered page and
    every object the document owns is told to end. *)
Definition end_sequence : M unit :=
  flushPages ;;
  let* r := ref JUndefined in
  modify (set_info (Some r)) ;;
  modify (set_info_data []) ;;
  let* entries := gets info in
  for_of entries end_info_entry ;;
  end_info r ;;
  run_calls (finalizeFonts lib) ;;
  run_calls (endOutline lib) ;;
  run_calls (endMarkings lib) ;;
  (if subset lib then run_calls (endSubset lib) else ret tt) ;;
  run_calls (endMetadata lib) ;;
  end_root ;;
  end_Pages ;;
  end_Names ;;
  run_calls (endAcroForm lib) ;;
  let* c := gets _root_data in
  match ViewerPreferences c with
  | Some vp => PDFReference_end vp
  | None => ret tt
  end ;;
  let* security := gets _security in
  match security with
  | Some sec => PDFSecurity_end sec
  | None => ret tt
  end.

(** The last statement of [end()]: complete the file now, or leave that to
    the reference that ends last. *)
Definition end_decision : M jsval :=
  let* waiting := gets _waiting in
  if waiting =? 0 then
    _finalize ;;
    ret push_null
  else
    modify (set_ended true) ;;
    ret (JBool true).

(** [end()] *)
Definition end_ : M jsval :=
  end_sequence ;;
  end_decision.

(** ** Construction *)

(** [v === s] for a string literal [s]. *)
Definition strict_equals_string (v : jsval) (s : string) : bool :=
  match v with
  | JStr s' => bool_decide (s' = s)
  | _ => false
  end.

(** The [switch (options.pdfVersion)] of the constructor. *)
Definition select_version (pdfVersion : jsval) : PDFVersion :=
  if strict_equals_string pdfVersion "1.4" then v1_4
  else if strict_equals_string pdfVersion "1.5" then v1_5
  else if strict_equals_string pdfVersion "1.6" then v1_6
  else if strict_equals_string pdfVersion "1.7" then v1_7
  else if strict_equals_string pdfVersion "1.7ext3" then v1_7
  else v1_3.

(** The array index a property key denotes, if any: the key is the
    canonical decimal numeral of an integer from 0 to 2^32 - 2. *)
Definition array_index (key : string) : option Z :=
  let n := fold_left (fun acc c => acc * 10 + (Z.of_nat (nat_of_ascii c) - 48))
             (list_ascii_of_string key) 0 in
  if (0 <=? n) && (n <? 2 ^ 32 - 1) && bool_decide (pretty n = key) then Some n else None.

(** Whether a new property with key [a] is enumerated before an existing
    one with key [b]: array indices come first, in ascending order, and the
    other keys follow in the order of their creation. *)
Definition enumerated_before (a b : string) : bool :=
  match array_index a, array_index b with
  | Some n, Some m => n <? m
  | Some _, None => true
  | None, _ => false
  end.

(** [obj[key] = val] on an object given by its entries in the order in
    which [for (key in obj)] enumerates them: an existing property keeps its
    place, a new one takes the place its key gives it. *)
Fixpoint object_replace (key : string) (val : jsval) (obj : list (string * jsval))
  : list (string * jsval) :=
  match obj with
  | [] => []
  | (k, v) :: rest =>
      if bool_decide (k = key) then (k, val) :: rest
      else (k, v) :: object_replace key val rest
  end.

Fixpoint object_insert (key : string) (val : jsval) (obj : list (string * jsval))
  : list (string * jsval) :=
  match obj with
  | [] => [(key, val)]
  | (k, v) :: rest =>
      if enumerated_before key k then (key, val) :: (k, v) :: rest
      else (k, v) :: object_insert key val rest
  end.

Definition object_set (key : string) (val : jsval) (obj : list (string * jsval))
  : list (string * jsval) :=
  if bool_decide (key ∈ obj.*1) then object_replace key val obj
  else object_insert key val obj.

(** [this.info]: the defaults, overridden by [options.info], whose entries
    are listed in the order in which the object enumerates them; [now] is
    the time value of [new Date()]. *)
Definition initial_info (opts : Options.t) (now : Z) : list (string * jsval) :=
  let defaults :=
    [ ("Producer", JStr "PDFKit"); ("Creator", JStr "PDFKit"); ("CreationDate", JDate now) ] in
  match Options.info opts with
  | Some extra => fold_left (fun obj kv => object_set (fst kv) (snd kv) obj) extra defaults
  | None => defaults
  end.

(** A field that has not been assigned yet holds [undefined]; no statement
    reads [_root] or its payload before the constructor assigns them. *)
Definition unassigned : PDFReference :=
  {| id := 0; data := JUndefined; offset := off_undefined |}.

(** The fields as the constructor leaves them before its first call of
    [ref]; [info] and [_id] depend on the options alone and are given their
    final value here. *)
Definition fresh (opts : Options.t) (now : Z) : PDFDocument :=
  {| options := opts;
     version := select_version (Options.pdfVersion opts);
     compress := match Options.compress opts with Some c => c | None => true end;
     _pageBuffer := [];
     _pageBufferStart := 0;
     _offsets := [];
     _waiting := 0;
     _ended := false;
     _offset := 0;
     pushed := [];
     _root := unassigned;
     _root_data := {| Pages := unassigned; Names := unassigned;
                      Lang := None; ViewerPreferences := None |};
     Pages_data := {| Count := 0; Kids := [] |};
     Names_data := {| Dests := ∅; EmbeddedFiles := None; JavaScript := None |};
     page := None;
     info := initial_info opts now;
     _info := None;
     _info_data := [];
     _id := generateFileID lib (initial_info opts now);
     _security := None;
     x := 0;
     y := 0 |}.

(** The header comment of four bytes with the high bit set. *)
Definition binary_marker : string :=
  String "%" (String "255" (String "255" (String "255" (String "255" EmptyString)))).

(** The statements of the constructor from the first [ref] on. *)
Definition construct (opts : Options.t) : M unit :=
  let* pagesRef := ref (Pages_toJS {| Count := 0; Kids := [] |}) in
  let* namesRef :=
    ref (Names_toJS {| Dests := ∅; EmbeddedFiles := None; JavaScript := None |}) in
  let* root := ref (JObj [ ("Type", JStr "Catalog"); ("Pages", JRef (id pagesRef));
                           ("Names", JRef (id namesRef)) ]) in
  modify (set_root root) ;;
  modify (set_root_data {| Pages := pagesRef; Names := namesRef; Lang := None;
                           ViewerPreferences := None |}) ;;
  match Options.lang opts with
  | Some l =>
      if bool_decide (l = EmptyString) then ret tt
      else modify (fun d => set_root_data
                     {| Pages := Pages (_root_data d); Names := Names (_root_data d);
                        Lang := Some l;
                        ViewerPreferences := ViewerPreferences (_root_data d) |} d)
  | None => ret tt
  end ;;
  modify (set_page None) ;;
  run_calls (initMixins lib) ;;
  (if Options.displayTitle opts then
     let* vp := ref (JObj [ ("DisplayDocTitle", JBool true) ]) in
     modify (fun d => set_root_data
               {| Pages := Pages (_root_data d); Names := Names (_root_data d);
                  Lang := Lang (_root_data d);
                  ViewerPreferences := Some vp |} d)
   else ret tt) ;;
  let* security := PDFSecurity_create opts in
  modify (set_security security) ;;
  let* v := gets version in
  _write (Str ("%PDF-" +:+ PDFVersion_toString v)) ;;
  _write (Str binary_marker) ;;
  match Options.autoFirstPage opts with
  | JBool false => ret tt
  | _ => addPage None
  end.

(** [new PDFDocument(options)] *)
Definition PDFDocument_new (opts : Options.t) (now : Z) : outcome unit * PDFDocument :=
  construct opts (fresh opts now).

End Document.

(** ** Notions used by the statements *)

(** A computation returns from every state that satisfies [P], with a
    result and a final state related by [Q]. *)
Definition returns {A : Type} (P : PDFDocument -> Prop) (m : M A)
    (Q : A -> PDFDocument -> Prop) : Prop :=
  forall d, P d -> exists a d', m d = (Returned a, d') /\ Q a d'.

(** A computation keeps [I], whether it returns or throws. *)
Definition preserves {A : Type} (I : PDFDocument -> Prop) (m : M A) : Prop :=
  forall d, I d -> I (exec m d).

(** The fields that no operation of the object store assigns. *)
Definition outside_store (d : PDFDocument) :=
  (options d, version d, compress d, _pageBuffer d, _pageBufferStart d,
   (_root d, _root_data d, Pages_data d, Names_data d),
   (page d, info d, _info d, _info_data d, _id d, _security d, x d, y d)).

(** A computation returns and keeps [I]. *)
Definition keeps {A : Type} (I : PDFDocument -> Prop) (m : M A) : Prop :=
  returns I m (fun _ => I).

(** A property of the document that no assignment to the fields of the
    object store can break, provided that [_offsets] does not get shorter. *)
Record store_stable (I : PDFDocument -> Prop) : Prop := {
  stable_offsets : forall d v,
    I d -> (length (_offsets d) <= length v)%nat -> I (set_offsets v d);
  stable_waiting : forall d v, I d -> I (set_waiting v d);
  stable_ended : forall d v, I d -> I (set_ended v d);
  stable_offset : forall d v, I d -> I (set_offset v d);
  stable_pushed : forall d v, I d -> I (set_pushed v d)
}.

(** A property that, in addition, no assignment to [_info] or to the current
    page can break, and that emptying the page buffer keeps. *)
Record stable (I : PDFDocument -> Prop) : Prop := {
  stable_store : store_stable I;
  stable_info : forall d v, I d -> I (set_info v d);
  stable_info_data : forall d v, I d -> I (set_info_data v d);
  stable_page : forall d v, I d -> I (set_page v d);
  stable_Names_data : forall d v, I d -> I (set_Names_data v d);
  stable_pageBuffer : forall d, I d -> I (set_pageBuffer [] d);
  stable_pageBufferStart : forall d v, I d -> I (set_pageBufferStart v d)
}.

(** What the store operations leave alone: the fields outside the store are
    as in [u] and [_offsets] has at least [n] slots. *)
Definition from_store {U : Type} (view : PDFDocument -> U) (u : U) (n : nat)
    (d : PDFDocument) : Prop :=
  view d = u /\ (n <= length (_offsets d))%nat.

(** With [bufferPages] off at most one page is buffered. *)
Definition one_page_resident (d : PDFDocument) : Prop :=
  Options.bufferPages (options d) = false /\ (length (_pageBuffer d) <= 1)%nat.

(** The constructor at work: the options are in place and no page has been
    created yet. *)
Definition constructing (opts : Options.t) (d : PDFDocument) : Prop :=
  options d = opts
  /\ version d = select_version (Options.pdfVersion opts)
  /\ _pageBuffer d = []
  /\ _pageBufferStart d = 0
  /\ Pages_data d = {| Count := 0; Kids := [] |}
  /\ page d = None.

(** The document as the constructor hands it over: no page when
    [autoFirstPage] is [false], otherwise the automatic first page, which is
    page 0 of the buffer. *)
Definition constructed (opts : Options.t) (d : PDFDocument) : Prop :=
  options d = opts
  /\ version d = select_version (Options.pdfVersion opts)
  /\ _pageBufferStart d = 0
  /\ match Options.autoFirstPage opts with
     | JBool false =>
         _pageBuffer d = [] /\ page d = None
         /\ Pages_data d = {| Count := 0; Kids := [] |}
     | _ =>
         exists p,
           _pageBuffer d = [p] /\ page d = Some p
           /\ Pages_data d = {| Count := 1; Kids := [dictionary p] |}
           /\ id (dictionary p) <= Z.of_nat (length (_offsets d))
     end.

(** The strings the [switch] of the constructor has a [case] for. *)
Definition recognized_versions : list string := ["1.4"; "1.5"; "1.6"; "1.7"; "1.7ext3"].

(** The page tree root is consistent: [Count] is the number of [Kids], no
    two kids have the same object id, and every kid is an allocated
    reference. *)
Definition page_tree_consistent (d : PDFDocument) : Prop :=
  Count (Pages_data d) = Z.of_nat (length (Kids (Pages_data d)))
  /\ NoDup (id <$> Kids (Pages_data d))
  /\ Forall (fun r => id r <= Z.of_nat (length (_offsets d))) (Kids (Pages_data d)).

Section Notions.

Context (lib : Library).

(** Several [_write] calls in a row, with the value each one returns. *)
Fixpoint write_all (ds : list write_arg) : M (list Z) :=
  match ds with
  | [] => ret []
  | data :: ds' =>
      let* o := _write data in
      let* os := write_all ds' in
      ret (o :: os)
  end.

(** The running offsets after each chunk of [ds], starting from [o]. *)
Fixpoint cumulative (o : Z) (ds : list write_arg) : list Z :=
  match ds with
  | [] => []
  | data :: ds' =>
      let o' := o + Z.of_nat (length (written data)) in
      o' :: cumulative o' ds'
  end.

(** A run of store calls, collecting the references that [ref] returned. *)
Fixpoint allocations (cs : list store_call) : M (list PDFReference) :=
  match cs with
  | [] => ret []
  | call_ref data :: cs' =>
      let* r := ref data in
      let* rs := allocations cs' in
      ret (r :: rs)
  | c :: cs' => run_call lib c ;; allocations cs'
  end.

(** Call discipline: a reference handed to [_refEnd] was allocated by this
    document, so its id lies between 1 and the number [n] of references
    allocated so far. *)
Fixpoint disciplined (n : nat) (cs : list store_call) : Prop :=
  match cs with
  | [] => True
  | call_ref _ :: cs' => disciplined (S n) cs'
  | call_write _ :: cs' => disciplined n cs'
  | call_refEnd r :: cs' => 1 <= id r <= Z.of_nat n /\ disciplined n cs'
  end.

(** The state after the chunks of [ds] have been written one after the
    other. *)
Fixpoint total_length (ds : list write_arg) : Z :=
  match ds with
  | [] => 0
  | data :: ds' => Z.of_nat (length (written data)) + total_length ds'
  end.

Definition after_writes (ds : list write_arg) (d : PDFDocument) : PDFDocument :=
  set_offset (_offset d + total_length ds)
    (set_pushed (pushed d ++ map (fun data => Chunk (written data)) ds) d).

(** The lines of the cross-reference table: the free entry of object 0, then
    one entry per slot of [_offsets]. *)
Definition xref_table (d : PDFDocument) : list string :=
  "0000000000 65535 f " :: map xref_entry (_offsets d).

(** Everything [_finalize] writes, line by line. *)
Definition finalize_lines (d : PDFDocument) : list string :=
  [ "xref"; "0 " +:+ pretty (Z.of_nat (length (_offsets d)) + 1) ]
  ++ xref_table d
  ++ [ "trailer"; PDFObject_convert lib (trailer d); "startxref";
       pretty (_offset d); "%%EOF" ].

(** [k] zeros. *)
Fixpoint zeros (k : nat) : string :=
  match k with
  | O => EmptyString
  | S k' => String "0" (zeros k')
  end.

(** A decimal numeral padded with zeros on the left to ten characters. *)
Definition zero_pad10 (s : string) : string :=
  zeros (10 - String.length s) +:+ s.

(** The number a string of decimal digits denotes. *)
Definition digit_value (c : ascii) : Z := Z.of_nat (nat_of_ascii c) - 48.

Fixpoint parse_decimal_from (acc : Z) (s : string) : Z :=
  match s with
  | EmptyString => acc
  | String c s' => parse_decimal_from (acc * 10 + digit_value c) s'
  end.

Definition parse_decimal (s : string) : Z := parse_decimal_from 0 s.

(** The first [k] characters of a string. *)
Fixpoint string_take (k : nat) (s : string) : string :=
  match k, s with
  | S k', String c s' => String c (string_take k' s')
  | _, _ => EmptyString
  end.

(** The [Size] entry of a trailer dictionary. *)
Definition trailer_Size (t : jsval) : option jsval :=
  match t with
  | JObj (("Size", v) :: _) => Some v
  | _ => None
  end.

(** The number of [ref] calls among [cs]. *)
Fixpoint count_ref (cs : list store_call) : nat :=
  match cs with
  | [] => O
  | call_ref _ :: cs' => S (count_ref cs')
  | _ :: cs' => count_ref cs'
  end.

(** How many times the stream has been closed: the number of [push(null)]
    among everything pushed.  Only [_finalize] closes the stream. *)
Fixpoint count_EndOfStream (l : list push_arg) : nat :=
  match l with
  | [] => O
  | EndOfStream :: l' => S (count_EndOfStream l')
  | Chunk _ :: l' => count_EndOfStream l'
  end.

Definition completions (d : PDFDocument) : nat := count_EndOfStream (pushed d).

(** Whether, along the store calls [cs] made from state [d], some call of
    [_refEnd] leaves the outstanding counter at zero. *)
Fixpoint reaches_zero (cs : list store_call) (d : PDFDocument) : bool :=
  match cs with
  | [] => false
  | c :: cs' =>
      let d' := exec (run_call lib c) d in
      match c with
      | call_refEnd _ => _waiting d' =? 0
      | _ => false
      end
      || reaches_zero cs' d'
  end.

(** The state in which [_refEnd(r)] tests the counter: the offset of [r] is
    recorded and the counter is decremented. *)
Definition recorded (r : PDFReference) (d : PDFDocument) : PDFDocument :=
  set_waiting (_waiting d - 1)
    (set_offsets (array_set off_undefined (_offsets d) (id r - 1) (offset r)) d).

(** The document is being built: [end] has not deferred the completion of
    the file, and the stream has been closed [k] times. *)
Definition building (k : nat) (d : PDFDocument) : Prop :=
  _ended d = false /\ completions d = k.

(** ** Sessions *)

(** A call of a method of the document by its user or by a collaborator;
    [write(filename, fn)] is [end] behind a pipe, and the remaining methods
    act on drawing state only. *)
Inductive method : Type :=
  | m_addPage (opts : option PageOptions)
  | m_continueOnNewPage (opts : option PageOptions)
  | m_switchToPage (n : Z)
  | m_flushPages
  | m_bufferedPageRange
  | m_addNamedDestination (name : string) (args : list jsval)
  | m_addNamedEmbeddedFile (name : string) (r : PDFReference)
  | m_addNamedJavaScript (name : string) (js : string)
  | m_addContent (data : write_arg)
  | m_store (c : store_call)
  | m_end.

(** The methods that add a page. *)
Definition adds_page (m : method) : bool :=
  match m with
  | m_addPage _ | m_continueOnNewPage _ => true
  | _ => false
  end.

Definition invoke (m : method) : M unit :=
  match m with
  | m_addPage opts => addPage lib opts
  | m_continueOnNewPage opts => continueOnNewPage lib opts
  | m_switchToPage n => switchToPage n ;; ret tt
  | m_flushPages => flushPages lib
  | m_bufferedPageRange => bufferedPageRange ;; ret tt
  | m_addNamedDestination name args => addNamedDestination name args
  | m_addNamedEmbeddedFile name r => addNamedEmbeddedFile name r
  | m_addNamedJavaScript name js => addNamedJavaScript name js
  | m_addContent data => addContent data
  | m_store c => run_call lib c
  | m_end => end_ lib ;; ret tt
  end.

(** The state after a sequence of calls; a call that throws leaves the
    state it reached and the caller goes on. *)
Definition session (ms : list method) (d : PDFDocument) : PDFDocument :=
  fold_left (fun d m => exec (invoke m) d) ms d.

(** The pages created during a session, oldest first. *)
Fixpoint created (ms : list method) (d : PDFDocument) : list PDFPage :=
  match ms with
  | [] => []
  | m :: ms' =>
      let d' := exec (invoke m) d in
      match m with
      | m_addPage _ | m_continueOnNewPage _ =>
          match page d' with Some p => [p] | None => [] end
      | _ => []
      end ++ created ms' d'
  end.

(** Several [addPage] calls in a row, with the page each one created. *)
Fixpoint add_pages (os : list (option PageOptions)) : M (list PDFPage) :=
  match os with
  | [] => ret []
  | o :: os' =>
      addPage lib o ;;
      let* p := gets page in
      let* ps := add_pages os' in
      ret (match p with Some p => p :: ps | None => ps end)
  end.

End Notions.

(** ** A statement of the specification, as it is worded *)

(** Every named destination is stored with its Y coordinate, the argument
    at index 2, replaced by the page height minus that coordinate. *)
Definition every_destination_flips_Y : Prop :=
  forall (d : PDFDocument) (name : string) (args : list jsval) (p : PDFPage) (y : Z),
    page d = Some p ->
    args !! 2%nat = Some (JNum y) ->
    exists stored,
      Dests (Names_data (exec (addNamedDestination name args) d)) !! name
        = Some (JArr stored)
      /\ stored !! 3%nat = Some (JNum (height p - y)).

(** ** Sample documents *)

Definition sample_lib : Library :=
  {| PDFObject_convert := fun _ => "<< >>";
     generateFileID := fun _ => "0123456789abcdef";
     initMixins := [];
     endPageMarkings := fun _ => [];
     initPageMarkings := [];
     finalizeFonts := [];
     endOutline := [];
     endMarkings := [];
     subset := false;
     endSubset := [];
     endMetadata := [];
     endAcroForm := [] |}.

Definition letter : PageOptions :=
  {| size := (612, 792);
     margin := {| m_top := 72; m_left := 72; m_bottom := 72; m_right := 72 |} |}.

Definition default_options : Options.t :=
  {| Options.pdfVersion := JUndefined;
     Options.compress := None;
     Options.bufferPages := false;
     Options.autoFirstPage := JUndefined;
     Options.lang := None;
     Options.displayTitle := false;
     Options.info := None;
     Options.password := None;
     Options.page := letter |}.

(** [{ bufferPages: true, autoFirstPage: false }] *)
Definition buffered_options : Options.t :=
  {| Options.pdfVersion := JUndefined;
     Options.compress := None;
     Options.bufferPages := true;
     Options.autoFirstPage := JBool false;
     Options.lang := None;
     Options.displayTitle := false;
     Options.info := None;
     Options.password := None;
     Options.page := letter |}.

(** [{ bufferPages: true }] *)
Definition buffering_options : Options.t :=
  {| Options.pdfVersion := JUndefined;
     Options.compress := None;
     Options.bufferPages := true;
     Options.autoFirstPage := JUndefined;
     Options.lang := None;
     Options.displayTitle := false;
     Options.info := None;
     Options.password := None;
     Options.page := letter |}.

(** [new PDFDocument()], with one letter page. *)
Definition sample_document : PDFDocument :=
  snd (PDFDocument_new sample_lib default_options 0).

(** [new PDFDocument({ bufferPages: true, autoFirstPage: false })]. *)
Definition buffered_document : PDFDocument :=
  snd (PDFDocument_new sample_lib buffered_options 0).

(** A reference that ends after the document has been told to end. *)
Definition late_reference : PDFReference :=
  {| id := 6; data := JUndefined; offset := off_number 500 |}.

Definition sample_calls : list store_call :=
  [ call_ref JNull; call_write (Str "stream"); call_ref JNull;
    call_refEnd {| id := 1; data := JNull; offset := off_number 12 |};
    call_ref JNull ].

(** A letter page whose content stream and dictionary have the object ids
    [c] and [i]. *)
Definition letter_page (c i : Z) : PDFPage :=
  {| dictionary :=
       {| id := i;
          data := JObj [ ("Type", JStr "Page"); ("Parent", JRef 1);
                         ("MediaBox", JArr [JNum 0; JNum 0; JNum 612; JNum 792]);
                         ("Contents", JRef c); ("Resources", JObj []) ];
          offset := off_undefined |};
     content := {| id := c; data := JUndefined; offset := off_undefined |};
     width := 612;
     height := 792;
     margins := {| m_top := 72; m_left := 72; m_bottom := 72; m_right := 72 |} |}.

(** The page of [sample_document]. *)
Definition sample_page : PDFPage := letter_page 4 5.

(** [sample_document] with one more reference allocated and not yet ended. *)
Definition pending_document : PDFDocument := exec (ref JNull) sample_document.

(** Three pages added to [buffered_document]. *)
Definition three_pages : outcome (list PDFPage) * PDFDocument :=
  add_pages sample_lib [None; None; None] buffered_document.

(** Calls a user makes on [buffered_document]: two pages, a page number
    outside the window, and a script. *)
Definition sample_session : list method :=
  [ m_addPage None; m_switchToPage 7; m_addPage None;
    m_addNamedJavaScript "open" "app.alert(1)" ].

(** Calls that neither add a page nor end the document. *)
Definition quiet_session : list method :=
  [ m_switchToPage 7; m_flushPages; m_addNamedJavaScript "open" "app.alert(1)";
    m_bufferedPageRange ].

(** [new PDFDocument({ info: { 2: 'x', Title: 'Report', Creator: 'me' } })]. *)
Definition titled_options : Options.t :=
  {| Options.pdfVersion := JUndefined;
     Options.compress := None;
     Options.bufferPages := false;
     Options.autoFirstPage := JUndefined;
     Options.lang := None;
     Options.displayTitle := false;
     Options.info := Some [ ("2", JStr "x"); ("Title", JStr "Report"); ("Creator", JStr "me") ];
     Options.password := None;
     Options.page := letter |}.

(** ** Notions for the rest of the class *)

(** The number of bytes among everything pushed. *)
Fixpoint total_bytes (l : list push_arg) : Z :=
  match l with
  | [] => 0
  | Chunk b :: l' => Z.of_nat (length b) + total_bytes l'
  | EndOfStream :: l' => total_bytes l'
  end.

(** [_offset] is the number of bytes pushed so far. *)
Definition bytes_accounted (d : PDFDocument) : Prop :=
  _offset d = total_bytes (pushed d).

(** The number of [_refEnd] calls among [cs], and the data of its [_write]
    calls. *)
Fixpoint count_refEnd (cs : list store_call) : nat :=
  match cs with
  | [] => O
  | call_refEnd _ :: cs' => S (count_refEnd cs')
  | _ :: cs' => count_refEnd cs'
  end.

Fixpoint writes (cs : list store_call) : list write_arg :=
  match cs with
  | [] => []
  | call_write data :: cs' => data :: writes cs'
  | _ :: cs' => writes cs'
  end.

(** What a run of store calls adds to the outstanding counter. *)
Definition net (cs : list store_call) : Z :=
  Z.of_nat (count_ref cs) - Z.of_nat (count_refEnd cs).

Section MoreNotions.

Context (lib : Library).

(** Whether an optional field is set, as a number. *)
Definition present {A : Type} (o : option A) : Z :=
  match o with
  | Some _ => 1
  | None => 0
  end.

(** The fields that decide what the document owes. *)
Definition dues (d : PDFDocument) : nat * option PDFReference * option PDFSecurity.t :=
  (length (_pageBuffer d), ViewerPreferences (_root_data d), _security d).

(** The references the document itself has allocated and not yet ended: the
    page tree root, the names dictionary and the catalog, the viewer
    preferences and the encryption dictionary when there are any, and the
    dictionary and content stream of every buffered page. *)
Definition owed (d : PDFDocument) : Z :=
  3 + present (ViewerPreferences (_root_data d)) + present (_security d)
  + 2 * Z.of_nat (length (_pageBuffer d)).

(** The collaborators end every reference they allocate: the page marking
    hooks within each call, the others between the initialisation of the
    mixins and the hooks that [end] runs. *)
Definition responsible : Prop :=
  (forall p, net (endPageMarkings lib p) = 0)
  /\ net (initPageMarkings lib) = 0
  /\ net (initMixins lib) + net (finalizeFonts lib) + net (endOutline lib)
     + net (endMarkings lib) + (if subset lib then net (endSubset lib) else 0)
     + net (endMetadata lib) + net (endAcroForm lib) = 0.

(** The outstanding counter is what the document owes plus what the mixins
    hold since their initialisation, and the file has not been completed. *)
Definition settled (d : PDFDocument) : Prop :=
  _waiting d = owed d + net (initMixins lib) /\ building 0 d.

(** The methods a user calls on the document before [end]. *)
Definition user_method (m : method) : bool :=
  match m with
  | m_store _ | m_end => false
  | _ => true
  end.

(** The outstanding counter is [w], the document is being built, and the
    fields that [view] shows are [u]. *)
Definition tally {U : Type} (view : PDFDocument -> U) (w : Z) (k : nat) (u : U)
    (d : PDFDocument) : Prop :=
  _waiting d = w /\ building k d /\ view d = u.

(** The pages created so far are [all], oldest first: the buffer holds the
    last of them, [_pageBufferStart] is the number of those before the
    buffer, and the page tree counts them all. *)
Definition numbered (all : list PDFPage) (d : PDFDocument) : Prop :=
  exists flushed,
    all = flushed ++ _pageBuffer d
    /\ _pageBufferStart d = Z.of_nat (length flushed)
    /\ Count (Pages_data d) = Z.of_nat (length all).

(** The constructor at work on the byte stream: the version is chosen, [l]
    is everything pushed so far, and no page is buffered. *)
Definition heading (v : PDFVersion) (l : list push_arg) (d : PDFDocument) : Prop :=
  version d = v /\ pushed d = l /\ _ended d = false /\ _pageBuffer d = [].

(** The methods that add to the names dictionary, and the two that create
    one of its optional trees. *)
Definition names_method (m : method) : bool :=
  match m with
  | m_addNamedDestination _ _ | m_addNamedEmbeddedFile _ _ | m_addNamedJavaScript _ _ => true
  | _ => false
  end.

Definition embeds_file (m : method) : bool :=
  match m with
  | m_addNamedEmbeddedFile _ _ => true
  | _ => false
  end.

Definition adds_JavaScript (m : method) : bool :=
  match m with
  | m_addNamedJavaScript _ _ => true
  | _ => false
  end.

(** The catalog as the constructor wires it: the page tree root, the names
    dictionary and the catalog are the first three objects, the language is
    the one of the options unless it is empty, and the viewer preferences
    and the security filter are there when the options ask for them. *)
Definition catalog_of (lang : option string) (displayTitle password : bool)
    (d : PDFDocument) : Prop :=
  id (Pages (_root_data d)) = 1 /\ id (Names (_root_data d)) = 2 /\ id (_root d) = 3
  /\ Lang (_root_data d) = lang
  /\ (is_Some (ViewerPreferences (_root_data d)) <-> displayTitle = true)
  /\ (is_Some (_security d) <-> password = true).


(** The stream has only grown since it held [l]. *)
Definition grown (l : list push_arg) (d : PDFDocument) : Prop :=
  exists added, pushed d = l ++ added.

(** Modelled from the spec: the finalize of a reference frames the
    serialized payload by the lines [N 0 obj] and [endobj]. *)
Definition object_header (r : PDFReference) : push_arg :=
  Chunk (written (Str (pretty (id r) +:+ " 0 obj"))).

(** Since the stream held [l], the object of [r] has been begun, and it has
    been written out. *)
Definition opened (l : list push_arg) (r : PDFReference) (d : PDFDocument) : Prop :=
  exists before after, pushed d = l ++ before ++ object_header r :: after.

Definition serialised (l : list push_arg) (r : PDFReference) (d : PDFDocument) : Prop :=
  exists before after,
    pushed d = l ++ before ++ object_header r :: after
    /\ Chunk (written (Str "endobj")) ∈ after.

(** A page has been flushed since the stream held [l]: its dictionary and
    its content stream have been written out. *)
Definition flushed (l : list push_arg) (p : PDFPage) (d : PDFDocument) : Prop :=
  serialised l (dictionary p) d /\ serialised l (content p) d.

(** The methods of a user that neither add a page nor end the document. *)
Definition page_free_method (m : method) : bool :=
  match m with
  | m_addPage _ | m_continueOnNewPage _ | m_store _ | m_end => false
  | _ => true
  end.

End MoreNotions.

(** * Properties *)

Section Properties.

Context (lib : Library).

(** ** Reasoning about computations *)

Lemma bind_Returned {A B : Type} (m : M A) (k : A -> M B) d a d' :
  m d = (Returned a, d') -> bind m k d = k a d'.
Proof. intros H. unfold bind. now rewrite H. Qed.

Lemma bind_Thrown {A B : Type} (m : M A) (k : A -> M B) d e d' :
  m d = (Thrown e, d') -> bind m k d = (Thrown e, d').
Proof. intros H. unfold bind. now rewrite H. Qed.

Lemma exec_bind_Returned {A B : Type} (m : M A) (k : A -> M B) d a d' :
  m d = (Returned a, d') -> exec (bind m k) d = exec (k a) d'.
Proof. intros H. unfold exec. now rewrite (bind_Returned _ _ _ _ _ H). Qed.

Lemma returns_ret {A : Type} (P : PDFDocument -> Prop) (a : A) (Q : A -> PDFDocument -> Prop) :
  (forall d, P d -> Q a d) -> returns P (ret a) Q.
Proof. intros H d Hd. exists a, d. split; [reflexivity | auto]. Qed.

Lemma returns_bind {A B : Type} P (R : A -> PDFDocument -> Prop) Q (m : M A) (k : A -> M B) :
  returns P m R -> (forall a, returns (R a) (k a) Q) -> returns P (bind m k) Q.
Proof.
  intros Hm Hk d Hd.
  destruct (Hm d Hd) as (a & d' & Em & HR).
  destruct (Hk a d' HR) as (b & d'' & Ek & HQ).
  exists b, d''. split; [| exact HQ].
  rewrite (bind_Returned _ _ _ _ _ Em). exact Ek.
Qed.

Lemma returns_gets {A : Type} P (f : PDFDocument -> A) (Q : A -> PDFDocument -> Prop) :
  (forall d, P d -> Q (f d) d) -> returns P (gets f) Q.
Proof. intros H d Hd. exists (f d), d. split; [reflexivity | auto]. Qed.

Lemma returns_modify P (f : PDFDocument -> PDFDocument) (Q : unit -> PDFDocument -> Prop) :
  (forall d, P d -> Q tt (f d)) -> returns P (modify f) Q.
Proof. intros H d Hd. exists tt, (f d). split; [reflexivity | auto]. Qed.

Lemma returns_weaken {A : Type} (P P' : PDFDocument -> Prop) (Q Q' : A -> PDFDocument -> Prop) m :
  returns P' m Q' -> (forall d, P d -> P' d) -> (forall a d, Q' a d -> Q a d) ->
  returns P m Q.
Proof.
  intros Hm HP HQ d Hd.
  destruct (Hm d (HP d Hd)) as (a & d' & E & H). eauto.
Qed.

(** An invariant that every iteration re-establishes holds after the loop. *)
Lemma returns_assume {A : Type} (fact : Prop) P (m : M A) Q :
  (fact -> returns P m Q) -> returns (fun d => fact /\ P d) m Q.
Proof. intros H d [Hf Hd]. exact (H Hf d Hd). Qed.

Lemma returns_exists {A X : Type} (P : X -> PDFDocument -> Prop) (m : M A) Q :
  (forall x, returns (P x) m Q) -> returns (fun d => exists x, P x d) m Q.
Proof. intros H d [x Hd]. exact (H x d Hd). Qed.

Lemma returns_post {A : Type} P (Q Q' : A -> PDFDocument -> Prop) (m : M A) :
  returns P m Q' -> (forall a d, Q' a d -> Q a d) -> returns P m Q.
Proof. intros H HQ. apply (returns_weaken P P Q Q' m H); auto. Qed.


Lemma returns_for_of {A : Type} (I : PDFDocument -> Prop) (l : list A) (body : A -> M unit) :
  (forall a, a ∈ l -> returns I (body a) (fun _ => I)) ->
  returns I (for_of l body) (fun _ => I).
Proof.
  induction l as [| a l IH]; intros Hbody.
  - apply returns_ret. auto.
  - simpl. eapply returns_bind.
    + apply Hbody. apply list_elem_of_here.
    + intros ?. apply IH. intros b Hb. apply Hbody. now apply list_elem_of_further.
Qed.

Lemma preserves_bind {A B : Type} I (m : M A) (k : A -> M B) :
  preserves I m -> (forall a, preserves I (k a)) -> preserves I (bind m k).
Proof.
  intros Hm Hk d Hd. specialize (Hm d Hd). unfold exec in *.
  unfold bind. destruct (m d) as [[a | e] d']; simpl in *.
  - apply (Hk a d' Hm).
  - exact Hm.
Qed.

Lemma preserves_ret {A : Type} I (a : A) : preserves I (ret a).
Proof. intros d Hd. exact Hd. Qed.

Lemma preserves_throw {A : Type} I e : preserves I (@throw A e).
Proof. intros d Hd. exact Hd. Qed.

Lemma preserves_gets {A : Type} I (f : PDFDocument -> A) : preserves I (gets f).
Proof. intros d Hd. exact Hd. Qed.

Lemma preserves_modify I (f : PDFDocument -> PDFDocument) :
  (forall d, I d -> I (f d)) -> preserves I (modify f).
Proof. intros H d Hd. apply H, Hd. Qed.

Lemma preserves_for_of {A : Type} I (l : list A) (body : A -> M unit) :
  (forall a, preserves I (body a)) -> preserves I (for_of l body).
Proof.
  intros Hbody. induction l as [| a l IH]; simpl.
  - apply preserves_ret.
  - apply preserves_bind; [apply Hbody | intros ?; exact IH].
Qed.

Lemma returns_preserves {A : Type} I (m : M A) :
  returns I m (fun _ => I) -> preserves I m.
Proof.
  intros H d Hd. destruct (H d Hd) as (a & d' & E & HI).
  unfold exec. now rewrite E.
Qed.

(** ** The byte sink *)

Lemma _write_eq data d :
  _write data d =
    (Returned (_offset d + Z.of_nat (length (written data))),
     set_offset (_offset d + Z.of_nat (length (written data)))
       (set_pushed (pushed d ++ [Chunk (written data)]) d)).
Proof. reflexivity. Qed.

Lemma length_Buffer_from_binary s :
  length (Buffer_from_binary s) = String.length s.
Proof.
  unfold Buffer_from_binary, list_byte_of_string.
  rewrite length_map. induction s as [| c s IH]; simpl; [reflexivity | now rewrite IH].
Qed.

Lemma length_append (s t : string) :
  String.length (s +:+ t) = (String.length s + String.length t)%nat.
Proof. induction s as [| c s IH]; simpl; [reflexivity | now rewrite IH]. Qed.

Lemma write_all_eq ds : forall d,
  result (write_all ds) d = Returned (cumulative (_offset d) ds)
  /\ pushed (exec (write_all ds) d) = pushed d ++ map (fun data => Chunk (written data)) ds.
Proof.
  induction ds as [| data ds IH]; intros d.
  - split; [reflexivity |]. simpl. now rewrite app_nil_r.
  - destruct (IH (exec (_write data) d)) as [Hr Hp].
    unfold result, exec in *. rewrite _write_eq in Hr, Hp. simpl in Hr, Hp.
    simpl write_all. rewrite (bind_Returned _ _ _ _ _ (_write_eq data d)).
    destruct (write_all ds _) as [o d'] eqn:E. simpl in Hr, Hp. subst o.
    rewrite (bind_Returned _ _ _ _ _ E). simpl. split; [reflexivity |].
    rewrite Hp, <- app_assoc. reflexivity.
Qed.

(** C7: every [_write] pushes its chunk exactly once, behind everything
    pushed before, and returns the running offset after the write, which is
    the offset before it plus the number of bytes of the chunk pushed; the
    chunk of a string is the string with a line feed appended, the chunk of
    a buffer is the buffer itself.  The same holds along any sequence of
    writes: the chunks arrive in call order and the returned values are the
    cumulative offsets. *)
Theorem write_appends_once_and_returns_cumulative_offset :
  (forall data d,
     result (_write data) d = Returned (_offset d + Z.of_nat (length (written data)))
     /\ pushed (exec (_write data) d) = pushed d ++ [Chunk (written data)]
     /\ _offset (exec (_write data) d) = _offset d + Z.of_nat (length (written data)))
  /\ (forall ds d,
        result (write_all ds) d = Returned (cumulative (_offset d) ds)
        /\ pushed (exec (write_all ds) d)
           = pushed d ++ map (fun data => Chunk (written data)) ds)
  /\ (forall s, written (Str s) = Buffer_from_binary (s +:+ LF)
                /\ length (written (Str s)) = S (String.length s))
  /\ (forall b, written (Buf b) = b).
Proof.
  split; [| split; [| split]].
  - intros data d. unfold result, exec. rewrite _write_eq. simpl. auto.
  - intros ds d. apply write_all_eq.
  - intros s. split; [reflexivity |]. simpl written.
    rewrite length_Buffer_from_binary, length_append. simpl. lia.
  - reflexivity.
Qed.


Lemma total_length_app ds1 ds2 :
  total_length (ds1 ++ ds2) = total_length ds1 + total_length ds2.
Proof. induction ds1 as [| a ds1 IH]; simpl; [reflexivity | rewrite IH; lia]. Qed.

Lemma after_writes_nil d : after_writes [] d = d.
Proof.
  destruct d. unfold after_writes, set_offset, set_pushed. simpl.
  now rewrite app_nil_r, Z.add_0_r.
Qed.

Lemma after_writes_app ds1 ds2 d :
  after_writes ds2 (after_writes ds1 d) = after_writes (ds1 ++ ds2) d.
Proof.
  unfold after_writes, set_offset, set_pushed. simpl.
  now rewrite map_app, app_assoc, total_length_app, Z.add_assoc.
Qed.

Lemma _write_after data d :
  _write data d
  = (Returned (_offset d + Z.of_nat (length (written data))), after_writes [data] d).
Proof.
  rewrite _write_eq. unfold after_writes. simpl. now rewrite Z.add_0_r.
Qed.

Lemma for_of_write {A : Type} (f : A -> write_arg) (l : list A) : forall d,
  for_of l (fun a => _write (f a) ;; ret tt) d = (Returned tt, after_writes (map f l) d).
Proof.
  induction l as [| a l IH]; intros d; simpl.
  - now rewrite after_writes_nil.
  - rewrite (bind_Returned _ _ d tt (after_writes [f a] d)).
    + rewrite IH, after_writes_app. reflexivity.
    + rewrite (bind_Returned _ _ _ _ _ (_write_after (f a) d)). reflexivity.
Qed.

Lemma _finalize_eq d :
  _finalize lib d
  = (Returned tt,
     set_pushed (pushed (after_writes (map Str (finalize_lines lib d)) d) ++ [EndOfStream])
       (after_writes (map Str (finalize_lines lib d)) d)).
Proof.
  unfold _finalize.
  rewrite (bind_Returned _ _ d (_offset d) d) by reflexivity.
  rewrite (bind_Returned _ _ _ _ _ (_write_after _ d)).
  rewrite (bind_Returned _ _ _ (_offsets d) _) by reflexivity.
  rewrite (bind_Returned _ _ _ _ _ (_write_after _ _)).
  rewrite (bind_Returned _ _ _ _ _ (_write_after _ _)).
  rewrite (bind_Returned _ _ _ _ _ (for_of_write _ _ _)).
  rewrite !after_writes_app.
  match goal with |- bind (gets trailer) _ ?s = _ =>
    rewrite (bind_Returned _ _ s (trailer d) s) by reflexivity end.
  rewrite (bind_Returned _ _ _ _ _ (_write_after _ _)).
  rewrite (bind_Returned _ _ _ _ _ (_write_after _ _)).
  rewrite (bind_Returned _ _ _ _ _ (_write_after _ _)).
  rewrite (bind_Returned _ _ _ _ _ (_write_after _ _)).
  rewrite (bind_Returned _ _ _ _ _ (_write_after _ _)).
  rewrite !after_writes_app.
  unfold push, modify, finalize_lines, xref_table.
  rewrite !map_app. simpl map. rewrite map_map, <- !app_assoc. reflexivity.
Qed.

(** ** Decimal numerals *)

Lemma parse_decimal_from_acc s : forall acc,
  parse_decimal_from acc s = acc * 10 ^ Z.of_nat (String.length s) + parse_decimal s.
Proof.
  unfold parse_decimal.
  induction s as [| c s IH]; intros acc.
  - simpl. lia.
  - cbn [parse_decimal_from String.length]. rewrite IH, (IH (0 * 10 + digit_value c)).
    rewrite Nat2Z.inj_succ, Z.pow_succ_r by lia. lia.
Qed.

Lemma digit_value_pretty_N_char (m : N) :
  (m < 10)%N -> digit_value (pretty_N_char m) = Z.of_N m.
Proof.
  intros H.
  assert (m = 0 \/ m = 1 \/ m = 2 \/ m = 3 \/ m = 4 \/ m = 5 \/ m = 6 \/ m = 7
          \/ m = 8 \/ m = 9)%N as Hm by lia.
  repeat (destruct Hm as [-> | Hm]; [reflexivity |]). now subst m.
Qed.

Lemma parse_decimal_pretty_N_go (x : N) : forall s,
  parse_decimal (pretty_N_go x s)
  = Z.of_N x * 10 ^ Z.of_nat (String.length s) + parse_decimal s.
Proof.
  induction (N.lt_wf_0 x) as [x _ IH]. intros s.
  destruct (N.eq_dec x 0%N) as [-> | Hx].
  - rewrite pretty_N_go_0. simpl. lia.
  - rewrite pretty_N_go_step by lia.
    rewrite IH by (apply N.div_lt; lia).
    cbn [String.length]. unfold parse_decimal at 1. cbn [parse_decimal_from].
    rewrite parse_decimal_from_acc.
    rewrite digit_value_pretty_N_char by (apply N.mod_lt; lia).
    rewrite Nat2Z.inj_succ, Z.pow_succ_r by lia.
    rewrite N2Z.inj_div, N2Z.inj_mod. simpl (Z.of_N 10).
    pose proof (Z.div_mod (Z.of_N x) 10 ltac:(lia)) as Hdm.
    set (q := Z.of_N x `div` 10) in *. set (r := Z.of_N x `mod` 10) in *.
    set (p := 10 ^ Z.of_nat (String.length s)).
    lia.
Qed.

Lemma length_pretty_N_go (k : nat) : forall (x : N) s,
  (x < 10 ^ N.of_nat k)%N ->
  (String.length (pretty_N_go x s) <= String.length s + k)%nat.
Proof.
  induction k as [| k IH]; intros x s Hx.
  - assert (x = 0%N) as -> by (simpl in Hx; lia). rewrite pretty_N_go_0. lia.
  - destruct (N.eq_dec x 0%N) as [-> | Hx0].
    + rewrite pretty_N_go_0. lia.
    + rewrite pretty_N_go_step by lia.
      etransitivity; [apply IH |].
      * rewrite Nat2N.inj_succ, N.pow_succ_r' in Hx.
        apply N.Div0.div_lt_upper_bound. exact Hx.
      * cbn [String.length]. lia.
Qed.

Lemma pretty_Z_nonneg (n : Z) :
  0 <= n -> parse_decimal (pretty n) = n
            /\ (n < 10 ^ 10 -> (String.length (pretty n) <= 10)%nat).
Proof.
  intros Hn. destruct n as [| p | p]; [split; [reflexivity | simpl; lia] | | lia].
  unfold pretty, pretty_Z, pretty, pretty_positive, pretty, pretty_N.
  destruct (decide (N.pos p = 0%N)) as [E | _]; [discriminate |].
  split.
  - rewrite parse_decimal_pretty_N_go.
    change (parse_decimal EmptyString) with 0.
    change (Z.of_nat (String.length EmptyString)) with 0.
    change (Z.of_N (N.pos p)) with (Z.pos p). lia.
  - intros Hlt. apply (length_pretty_N_go 10 (N.pos p) EmptyString).
    change (10 ^ N.of_nat 10)%N with 10000000000%N.
    change (10 ^ 10) with 10000000000 in Hlt. lia.
Qed.

Lemma parse_decimal_zeros k s : parse_decimal (zeros k +:+ s) = parse_decimal s.
Proof.
  unfold parse_decimal. induction k as [| k IH]; [reflexivity |].
  cbn [zeros String.append parse_decimal_from]. exact IH.
Qed.

Lemma length_zeros k : String.length (zeros k) = k.
Proof. induction k as [| k IH]; simpl; [reflexivity | now rewrite IH]. Qed.

Lemma string_drop_zeros j : forall k s,
  (j <= k)%nat -> string_drop j (zeros k +:+ s) = zeros (k - j) +:+ s.
Proof.
  induction j as [| j IH]; intros k s Hjk.
  - now rewrite Nat.sub_0_r.
  - destruct k as [| k]; [lia |]. simpl. apply IH. lia.
Qed.

Lemma slice_last_zero_pad s :
  (String.length s <= 10)%nat -> slice_last 10 ("0000000000" +:+ s) = zero_pad10 s.
Proof.
  intros Hs. unfold slice_last, zero_pad10.
  change "0000000000" with (zeros 10).
  rewrite length_append, length_zeros.
  replace (10 + String.length s - 10)%nat with (String.length s) by lia.
  now apply string_drop_zeros.
Qed.

Lemma string_take_append s t :
  string_take (String.length s) (s +:+ t) = s.
Proof. induction s as [| c s IH]; simpl; [now destruct t | now rewrite IH]. Qed.

Lemma length_zero_pad10 s :
  (String.length s <= 10)%nat -> String.length (zero_pad10 s) = 10%nat.
Proof. intros H. unfold zero_pad10. rewrite length_append, length_zeros. lia. Qed.

(** ** The cross-reference table *)

Lemma length_array_set {A : Type} (hole : A) arr i v :
  (length arr <= length (array_set hole arr i v))%nat.
Proof.
  unfold array_set. destruct (i <? 0); [lia |].
  destruct (Z.to_nat i <? length arr)%nat eqn:E.
  - rewrite length_insert. lia.
  - rewrite length_app. lia.
Qed.

Lemma array_set_in_range {A : Type} (hole : A) arr i v :
  0 <= i < Z.of_nat (length arr) ->
  array_set hole arr i v = <[Z.to_nat i := v]> arr.
Proof.
  intros Hi. unfold array_set.
  destruct (Z.ltb_spec i 0); [lia |].
  destruct (Nat.ltb_spec (Z.to_nat i) (length arr)); [reflexivity | lia].
Qed.

Lemma _refEnd_offsets r d :
  _offsets (exec (_refEnd lib r) d) = array_set off_undefined (_offsets d) (id r - 1) (offset r).
Proof.
  unfold exec, _refEnd, bind, modify, gets. simpl.
  destruct ((_waiting d - 1 =? 0) && _ended d); [| reflexivity].
  rewrite _finalize_eq. reflexivity.
Qed.

(** C3: [_finalize] writes the line [xref], the subheader [0 n+1], the free
    entry [0000000000 65535 f ] and then one entry per allocated id in id
    order, so the table has [n + 1] entries for [n] allocated references;
    the entry of id [k] is made from the offset recorded for id [k], and for
    a recorded offset below [10^10] it is the offset in decimal, padded with
    zeros to ten digits, from which the offset is read back; the trailer
    that follows has [Size] equal to [n + 1]. *)
Theorem finalize_emits_xref_table (d : PDFDocument) :
  let n := Z.of_nat (length (_offsets d)) in
  finalize_lines lib d
    = [ "xref"; "0 " +:+ pretty (n + 1) ] ++ xref_table d
      ++ [ "trailer"; PDFObject_convert lib (trailer d); "startxref";
           pretty (_offset d); "%%EOF" ]
  /\ result (_finalize lib) d = Returned tt
  /\ pushed (exec (_finalize lib) d)
     = pushed d ++ map (fun l => Chunk (written (Str l))) (finalize_lines lib d)
       ++ [EndOfStream]
  /\ Z.of_nat (length (xref_table d)) = n + 1
  /\ xref_table d !! 0%nat = Some "0000000000 65535 f "
  /\ (forall (k : nat) o,
        _offsets d !! k = Some o -> xref_table d !! S k = Some (xref_entry o))
  /\ (forall r, 1 <= id r <= n ->
        _offsets (exec (_refEnd lib r) d) !! Z.to_nat (id r - 1) = Some (offset r))
  /\ (forall o, 0 <= o < 10 ^ 10 ->
        xref_entry (off_number o) = zero_pad10 (pretty o) +:+ " 00000 n "
        /\ String.length (zero_pad10 (pretty o)) = 10%nat
        /\ parse_decimal (string_take 10 (xref_entry (off_number o))) = o)
  /\ trailer_Size (trailer d) = Some (JNum (n + 1)).
Proof.
  intros n. repeat split.
  - unfold result. now rewrite _finalize_eq.
  - unfold exec. rewrite _finalize_eq. simpl.
    rewrite map_map, <- app_assoc. reflexivity.
  - unfold xref_table. cbn [length]. rewrite length_map. subst n. lia.
  - intros k o Hk. unfold xref_table. cbn [lookup list_lookup].
    change (map xref_entry (_offsets d) !! k = Some (xref_entry o)).
    change (map xref_entry (_offsets d)) with (xref_entry <$> _offsets d).
    now rewrite list_lookup_fmap, Hk.
  - intros r Hr. rewrite _refEnd_offsets, array_set_in_range by (subst n; lia).
    apply list_lookup_insert_eq. subst n. lia.
  - unfold xref_entry. cbn [jsoffset_toString].
    rewrite slice_last_zero_pad; [reflexivity |].
    apply pretty_Z_nonneg; lia.
  - apply length_zero_pad10, pretty_Z_nonneg; lia.
  - destruct H as [H0 H1]. destruct (pretty_Z_nonneg o H0) as [Hparse Hlen].
    unfold xref_entry. cbn [jsoffset_toString].
    rewrite slice_last_zero_pad by auto.
    rewrite <- (length_zero_pad10 (pretty o)) at 1 by auto.
    rewrite string_take_append. unfold zero_pad10.
    now rewrite parse_decimal_zeros.
Qed.

(** ** Allocation of references *)

Lemma ref_eq data d :
  ref data d
  = (Returned {| id := Z.of_nat (length (_offsets d)) + 1; data := data;
                 offset := off_undefined |},
     set_waiting (_waiting d + 1) (set_offsets (_offsets d ++ [off_null]) d)).
Proof. reflexivity. Qed.

Lemma _refEnd_eq r d :
  let d1 := set_waiting (_waiting d - 1)
              (set_offsets (array_set off_undefined (_offsets d) (id r - 1) (offset r)) d) in
  _refEnd lib r d
  = if (_waiting d - 1 =? 0) && _ended d
    then (Returned (JBool false), set_ended false (exec (_finalize lib) d1))
    else (Returned JUndefined, d1).
Proof.
  intros d1. unfold _refEnd, bind, modify, gets. simpl. fold d1.
  destruct ((_waiting d - 1 =? 0) && _ended d); [| reflexivity].
  unfold exec. rewrite _finalize_eq. reflexivity.
Qed.

Lemma run_call_returns c d :
  run_call lib c d = (Returned tt, exec (run_call lib c) d).
Proof.
  destruct c as [data | data | r]; unfold exec, run_call.
  - rewrite (bind_Returned _ _ _ _ _ (ref_eq data d)). reflexivity.
  - rewrite (bind_Returned _ _ _ _ _ (_write_eq data d)). reflexivity.
  - pose proof (_refEnd_eq r d) as E. cbv zeta in E.
    destruct ((_waiting d - 1 =? 0) && _ended d);
      rewrite (bind_Returned _ _ _ _ _ E); reflexivity.
Qed.

Lemma allocations_ids cs : forall d n,
  length (_offsets d) = n -> disciplined n cs ->
  exists rs d',
    allocations lib cs d = (Returned rs, d')
    /\ (forall i r, rs !! i = Some r -> id r = Z.of_nat n + Z.of_nat i + 1)
    /\ length (_offsets d') = (n + length rs)%nat
    /\ length rs = count_ref cs.
Proof.
  induction cs as [| c cs IH]; intros d n Hn Hcs.
  - exists [], d. repeat split; [| simpl; lia]. intros i r Hi. now rewrite lookup_nil in Hi.
  - destruct c as [data | data | r]; cbn [allocations disciplined] in *.
    + destruct (IH (exec (ref data) d) (S n)) as (rs & d' & E & Hid & Hlen & Hcount).
      { unfold exec. rewrite ref_eq. simpl. rewrite length_app. simpl. lia. }
      { exact Hcs. }
      unfold exec in E. rewrite ref_eq in E. simpl in E.
      eexists (_ :: rs), d'. split; [| split; [| split]].
      * rewrite (bind_Returned _ _ _ _ _ (ref_eq data d)).
        rewrite (bind_Returned _ _ _ _ _ E). reflexivity.
      * intros [| i] r Hi; simpl in Hi.
        -- injection Hi as <-. simpl. lia.
        -- rewrite (Hid i r Hi). lia.
      * rewrite Hlen. simpl. lia.
      * simpl. now rewrite Hcount.
    + destruct (IH (exec (run_call lib (call_write data)) d) n)
        as (rs & d' & E & Hid & Hlen & Hcount); [exact Hn | exact Hcs |].
      exists rs, d'. split; [| auto].
      rewrite (bind_Returned _ _ _ _ _ (run_call_returns _ d)). exact E.
    + destruct Hcs as [Hr Hcs].
      destruct (IH (exec (run_call lib (call_refEnd r)) d) n)
        as (rs & d' & E & Hid & Hlen & Hcount); [| exact Hcs |].
      { assert (exec (run_call lib (call_refEnd r)) d = exec (_refEnd lib r) d) as ->.
        { unfold exec, run_call, bind. now destruct (_refEnd lib r d) as [[v | e] d1]. }
        rewrite _refEnd_offsets, array_set_in_range by lia.
        now rewrite length_insert. }
      exists rs, d'. split; [| auto].
      rewrite (bind_Returned _ _ _ _ _ (run_call_returns _ d)). exact E.
Qed.

(** C2: [ref] returns a reference whose id is one more than the number of
    slots of [_offsets] and pushes exactly one placeholder slot.  Hence, on a
    store that starts empty, as the constructor leaves it, the i-th
    allocation of any sequence of store calls gets id [i]: the ids run
    1, 2, 3, ... in call order, and [_offsets] has as many slots as
    references were allocated. *)
Theorem ref_assigns_sequential_ids :
  forall (cs : list store_call) (d : PDFDocument),
    _offsets d = [] ->
    disciplined 0 cs ->
    exists rs d',
      allocations lib cs d = (Returned rs, d')
      /\ length rs = count_ref cs
      /\ (forall (i : nat) r, rs !! i = Some r -> id r = Z.of_nat i + 1)
      /\ length (_offsets d') = length rs
      /\ (forall data, exists r,
            result (ref data) d' = Returned r
            /\ id r = Z.of_nat (length rs) + 1
            /\ _offsets (exec (ref data) d') = _offsets d' ++ [off_null]).
Proof.
  intros cs d Hd Hcs.
  destruct (allocations_ids cs d 0%nat) as (rs & d' & E & Hid & Hlen & Hcount);
    [now rewrite Hd | exact Hcs |].
  exists rs, d'. split; [exact E |]. split; [exact Hcount |].
  split; [| split].
  - intros i r Hi. rewrite (Hid i r Hi). lia.
  - exact Hlen.
  - intros data. eexists. unfold result, exec. rewrite ref_eq. simpl.
    split; [reflexivity |]. split; [| reflexivity]. rewrite Hlen. simpl. lia.
Qed.

(** ** Computations that return and keep an invariant *)

Lemma keeps_ret {A : Type} I (a : A) : keeps I (ret a).
Proof. apply returns_ret. auto. Qed.

Lemma keeps_bind {A B : Type} I (m : M A) (k : A -> M B) :
  keeps I m -> (forall a, keeps I (k a)) -> keeps I (bind m k).
Proof. intros Hm Hk. eapply returns_bind; [exact Hm | exact Hk]. Qed.

Lemma keeps_gets {A : Type} I (f : PDFDocument -> A) : keeps I (gets f).
Proof. apply returns_gets. auto. Qed.

Lemma keeps_modify I (f : PDFDocument -> PDFDocument) :
  (forall d, I d -> I (f d)) -> keeps I (modify f).
Proof. intros H. apply returns_modify. exact H. Qed.

Lemma keeps_for_of {A : Type} I (l : list A) (body : A -> M unit) :
  (forall a, keeps I (body a)) -> keeps I (for_of l body).
Proof. intros H. apply returns_for_of. intros a _. apply H. Qed.

Lemma keeps_exec {A : Type} I (m : M A) d :
  keeps I m -> I d -> (exists a, m d = (Returned a, exec m d)) /\ I (exec m d).
Proof.
  intros Hm Hd. destruct (Hm d Hd) as (a & d' & E & HI).
  unfold exec. rewrite E. eauto.
Qed.

(** Decompose a computation along its binds, loops and case distinctions;
    [lemmas] closes the calls of methods already treated, [field] the
    assignments. *)
Ltac keeps_step lemmas field :=
  lazymatch goal with
  | |- keeps _ (bind _ _) => apply keeps_bind; [| intros ?]
  | |- keeps _ (ret _) => apply keeps_ret
  | |- keeps _ (gets _) => apply keeps_gets
  | |- keeps _ (modify _) => apply keeps_modify; field
  | |- keeps _ (for_of _ _) => apply keeps_for_of; intros ?
  | |- keeps _ (if ?b then _ else _) => destruct b
  | |- keeps _ (match ?o with _ => _ end) => destruct o
  | |- keeps _ _ => lemmas
  end.

Ltac keeps_steps lemmas field := repeat keeps_step lemmas field.

(** ** Completion of the file *)

Lemma count_EndOfStream_app l1 l2 :
  count_EndOfStream (l1 ++ l2) = (count_EndOfStream l1 + count_EndOfStream l2)%nat.
Proof.
  induction l1 as [| [b |] l1 IH]; simpl; [reflexivity | exact IH | now rewrite IH].
Qed.

Lemma count_EndOfStream_chunks (ds : list write_arg) :
  count_EndOfStream (map (fun data => Chunk (written data)) ds) = 0%nat.
Proof. induction ds as [| a ds IH]; [reflexivity | exact IH]. Qed.

Lemma completions_after_writes ds d :
  completions (after_writes ds d) = completions d.
Proof.
  unfold completions, after_writes. simpl.
  rewrite count_EndOfStream_app, count_EndOfStream_chunks. lia.
Qed.

Lemma completions_set_ended v d : completions (set_ended v d) = completions d.
Proof. reflexivity. Qed.

Lemma ended_set_ended v d : _ended (set_ended v d) = v.
Proof. reflexivity. Qed.

Lemma waiting_set_ended v d : _waiting (set_ended v d) = _waiting d.
Proof. reflexivity. Qed.

Lemma waiting_recorded r d : _waiting (recorded r d) = _waiting d - 1.
Proof. reflexivity. Qed.

Lemma completions_recorded r d : completions (recorded r d) = completions d.
Proof. reflexivity. Qed.

Lemma completions_finalize d :
  completions (exec (_finalize lib) d) = S (completions d).
Proof.
  pose proof (completions_after_writes (map Str (finalize_lines lib d)) d) as H.
  unfold exec. rewrite _finalize_eq. unfold completions in *.
  cbn [snd pushed set_pushed]. rewrite count_EndOfStream_app, H. simpl. lia.
Qed.

Lemma finalize_keeps_counter d :
  _waiting (exec (_finalize lib) d) = _waiting d
  /\ _ended (exec (_finalize lib) d) = _ended d
  /\ _offsets (exec (_finalize lib) d) = _offsets d
  /\ outside_store (exec (_finalize lib) d) = outside_store d.
Proof. unfold exec. rewrite _finalize_eq. repeat split. Qed.

Ltac building_field :=
  let d := fresh "d" in let H := fresh "H" in
  intros d H; exact H.

Lemma building_ref k data : keeps (building k) (ref data).
Proof. intros d H. eexists _, _. split; [apply ref_eq | exact H]. Qed.

Lemma building_write k data : keeps (building k) (_write data).
Proof.
  intros d [He Hc]. eexists _, _. split; [apply _write_after |].
  split; [exact He | now rewrite completions_after_writes].
Qed.

Lemma building_refEnd k r : keeps (building k) (_refEnd lib r).
Proof.
  intros d [He Hc]. pose proof (_refEnd_eq r d) as E. cbv zeta in E.
  rewrite He, andb_false_r in E. eexists _, _. split; [exact E |].
  split; [exact He | exact Hc].
Qed.

Lemma building_run_calls k cs : keeps (building k) (run_calls lib cs).
Proof.
  unfold run_calls. apply keeps_for_of. intros [data | data | r]; unfold run_call;
    keeps_steps ltac:(first [apply building_ref | apply building_write | apply building_refEnd])
                building_field.
Qed.

Ltac building_lemmas :=
  first [ apply building_ref | apply building_write | apply building_refEnd
        | apply building_run_calls ].

Lemma building_PDFReference_end k r : keeps (building k) (PDFReference_end lib r).
Proof. unfold PDFReference_end. keeps_steps building_lemmas building_field. Qed.

Lemma building_flushPages k : keeps (building k) (flushPages lib).
Proof.
  unfold flushPages, PDFPage_end.
  keeps_steps ltac:(first [building_lemmas | apply building_PDFReference_end]) building_field.
Qed.

Lemma building_end_sequence k : keeps (building k) (end_sequence lib).
Proof.
  unfold end_sequence, end_info_entry, end_info, end_root, end_Pages, end_Names,
    PDFSecurity_end.
  keeps_steps ltac:(first [building_lemmas | apply building_PDFReference_end
                          | apply building_flushPages]) building_field.
Qed.

Lemma exec_run_calls_cons c cs d :
  exec (run_calls lib (c :: cs)) d = exec (run_calls lib cs) (exec (run_call lib c) d).
Proof.
  unfold run_calls. cbn [for_of].
  apply (exec_bind_Returned (run_call lib c) (fun _ => for_of cs (run_call lib)) d tt).
  apply run_call_returns.
Qed.

Lemma exec_run_call_refEnd r d :
  exec (run_call lib (call_refEnd r)) d = exec (_refEnd lib r) d.
Proof. unfold exec, run_call, bind. now destruct (_refEnd lib r d) as [[v | e] d1]. Qed.

Lemma exec_refEnd r d :
  exec (_refEnd lib r) d
  = if (_waiting d - 1 =? 0) && _ended d
    then set_ended false (exec (_finalize lib) (recorded r d))
    else recorded r d.
Proof.
  pose proof (_refEnd_eq r d) as E. cbv zeta in E. unfold exec at 1. rewrite E.
  now destruct ((_waiting d - 1 =? 0) && _ended d).
Qed.

(** While the document is being built no store call closes the stream. *)
Lemma completions_building cs d :
  _ended d = false -> completions (exec (run_calls lib cs) d) = completions d.
Proof.
  intros He.
  destruct (keeps_exec _ _ d (building_run_calls (completions d) cs)) as [_ [_ H]].
  - now split.
  - exact H.
Qed.

(** After [end] has deferred, the stream is closed by the first [_refEnd]
    that brings the counter to zero, and by nothing else. *)
Lemma completions_deferred cs : forall d,
  _ended d = true ->
  completions (exec (run_calls lib cs) d)
  = (completions d + if reaches_zero lib cs d then 1 else 0)%nat.
Proof.
  induction cs as [| c cs IH]; intros d He.
  - simpl. unfold exec, run_calls. simpl. lia.
  - rewrite exec_run_calls_cons. cbn [reaches_zero].
    destruct c as [data | data | r].
    + rewrite IH; [| unfold exec, run_call; now rewrite (bind_Returned _ _ _ _ _ (ref_eq data d))].
      unfold exec, run_call. rewrite (bind_Returned _ _ _ _ _ (ref_eq data d)). reflexivity.
    + assert (exec (run_call lib (call_write data)) d = after_writes [data] d) as ->.
      { unfold exec, run_call. now rewrite (bind_Returned _ _ _ _ _ (_write_after data d)). }
      rewrite IH by exact He. now rewrite completions_after_writes.
    + rewrite exec_run_call_refEnd, exec_refEnd, He, andb_true_r.
      destruct (Z.eqb_spec (_waiting d - 1) 0) as [Hz | Hz].
      * rewrite completions_building by apply ended_set_ended.
        destruct (finalize_keeps_counter (recorded r d)) as (Hw & _).
        rewrite waiting_set_ended, Hw, waiting_recorded.
        destruct (Z.eqb_spec (_waiting d - 1) 0) as [_ | Hn]; [| contradiction].
        cbn [orb].
        rewrite completions_set_ended, completions_finalize, completions_recorded. lia.
      * rewrite IH by exact He. rewrite waiting_recorded, completions_recorded.
        destruct (Z.eqb_spec (_waiting d - 1) 0) as [Hy | _]; [contradiction |].
        reflexivity.
Qed.

(** C1: [end] runs its ending sequence and then looks at the outstanding
    counter.  While the counter is nonzero nothing of the cross-reference
    table, trailer and end-of-file marker is emitted: [end] only sets the
    ended flag.  [_finalize] runs exactly when the counter is zero: inside
    [end] if it is zero there, and otherwise inside the first [_refEnd]
    that brings it to zero after [end] has set the flag; in either case it
    runs once, whatever store calls follow. *)
Theorem end_completes_exactly_when_counter_reaches_zero
    (d : PDFDocument) (later : list store_call) :
  _ended d = false ->
  let d1 := exec (end_sequence lib) d in
  let d2 := exec (end_ lib) d in
  let d3 := exec (run_calls lib later) d2 in
  (exists v, end_ lib d = (Returned v, d2))
  /\ completions d1 = completions d
  /\ (_waiting d1 <> 0 -> d2 = set_ended true d1)
  /\ (_waiting d1 = 0 -> d2 = exec (_finalize lib) d1)
  /\ completions d2 = (completions d + if (_waiting d1 =? 0)%Z then 1 else 0)%nat
  /\ completions d3
     = (completions d + if (_waiting d1 =? 0)%Z || reaches_zero lib later d2 then 1 else 0)%nat
  /\ (forall r s, _ended s = true ->
        exec (_refEnd lib r) s
        = if _waiting s - 1 =? 0
          then set_ended false (exec (_finalize lib) (recorded r s))
          else recorded r s).
Proof.
  intros He d1 d2 d3.
  destruct (keeps_exec _ _ d (building_end_sequence (completions d))) as [[u Es] [He1 Hc1]];
    [now split |].
  fold d1 in Es, He1, Hc1.
  assert (end_ lib d = end_decision lib d1) as Eend.
  { exact (bind_Returned (end_sequence lib) (fun _ => end_decision lib) d u d1 Es). }
  assert (d2 = if _waiting d1 =? 0 then exec (_finalize lib) d1 else set_ended true d1) as Ed2.
  { unfold d2, exec at 1. rewrite Eend. unfold end_decision.
    rewrite (bind_Returned _ _ d1 (_waiting d1) d1) by reflexivity.
    destruct (_waiting d1 =? 0); [| reflexivity].
    rewrite (bind_Returned _ _ _ _ _ (_finalize_eq d1)).
    unfold exec. rewrite _finalize_eq. reflexivity. }
  assert (completions d2 = (completions d + if (_waiting d1 =? 0)%Z then 1 else 0)%nat) as Hc2.
  { rewrite Ed2. destruct (_waiting d1 =? 0).
    - rewrite completions_finalize, Hc1. lia.
    - rewrite completions_set_ended, Hc1. lia. }
  split; [| split; [| split; [| split; [| split; [| split]]]]].
  - unfold d2, exec. rewrite Eend. unfold end_decision.
    rewrite (bind_Returned _ _ d1 (_waiting d1) d1) by reflexivity.
    destruct (_waiting d1 =? 0).
    + rewrite (bind_Returned _ _ _ _ _ (_finalize_eq d1)). eexists. reflexivity.
    + eexists. reflexivity.
  - exact Hc1.
  - intros Hw. rewrite Ed2. destruct (Z.eqb_spec (_waiting d1) 0); [contradiction | reflexivity].
  - intros Hw. rewrite Ed2. destruct (Z.eqb_spec (_waiting d1) 0); [reflexivity | contradiction].
  - exact Hc2.
  - unfold d3. destruct (_waiting d1 =? 0) eqn:Ew.
    + cbn [orb]. rewrite completions_building, Hc2; [reflexivity |].
      rewrite Ed2. destruct (finalize_keeps_counter d1) as (_ & -> & _). exact He1.
    + cbn [orb]. rewrite completions_deferred, Hc2; [lia |]. now rewrite Ed2.
  - intros r s Hs. now rewrite exec_refEnd, Hs, andb_true_r.
Qed.

(** ** Stable properties *)

Section StoreStable.

Variable I : PDFDocument -> Prop.
Hypothesis HI : store_stable I.

Ltac store_field :=
  let d := fresh "d" in
  let H := fresh "H" in
  intros d H; cbv beta;
  lazymatch goal with
  | |- I (set_offsets _ _) =>
      apply (stable_offsets _ HI); [exact H |];
      first [ apply length_array_set | rewrite length_app; lia ]
  | |- I (set_waiting _ _) => apply (stable_waiting _ HI), H
  | |- I (set_ended _ _) => apply (stable_ended _ HI), H
  | |- I (set_offset _ _) => apply (stable_offset _ HI), H
  | |- I (set_pushed _ _) => apply (stable_pushed _ HI), H
  end.

Lemma stable_ref data : keeps I (ref data).
Proof. unfold ref. keeps_steps fail store_field. Qed.

Lemma stable_write data : keeps I (_write data).
Proof. unfold _write, push. keeps_steps fail store_field. Qed.

Lemma stable_finalize : keeps I (_finalize lib).
Proof. unfold _finalize, push. keeps_steps ltac:(apply stable_write) store_field. Qed.

Lemma stable_refEnd r : keeps I (_refEnd lib r).
Proof. unfold _refEnd. keeps_steps ltac:(apply stable_finalize) store_field. Qed.

Lemma stable_run_call c : keeps I (run_call lib c).
Proof.
  destruct c as [data | data | r]; unfold run_call;
    keeps_steps ltac:(first [apply stable_ref | apply stable_write | apply stable_refEnd])
                store_field.
Qed.

Lemma stable_run_calls cs : keeps I (run_calls lib cs).
Proof. unfold run_calls. apply keeps_for_of, stable_run_call. Qed.

Lemma stable_PDFReference_end r : keeps I (PDFReference_end lib r).
Proof.
  unfold PDFReference_end.
  keeps_steps ltac:(first [apply stable_write | apply stable_refEnd]) store_field.
Qed.

Lemma stable_flush_loop (pages : list PDFPage) :
  keeps I (for_of pages (fun page =>
             run_calls lib (endPageMarkings lib (Some page)) ;; PDFPage_end lib page)).
Proof.
  unfold PDFPage_end.
  keeps_steps ltac:(first [apply stable_run_calls | apply stable_PDFReference_end])
              store_field.
Qed.

Lemma stable_PDFPage_new o : keeps I (PDFPage_new o).
Proof. unfold PDFPage_new. keeps_steps ltac:(apply stable_ref) store_field. Qed.

End StoreStable.

Section Stable.

Variable I : PDFDocument -> Prop.
Hypothesis HI : stable I.

Ltac stable_field :=
  let d := fresh "d" in
  let H := fresh "H" in
  intros d H; cbv beta;
  lazymatch goal with
  | |- I (set_info _ _) => apply (stable_info _ HI), H
  | |- I (set_info_data _ _) => apply (stable_info_data _ HI), H
  | |- I (set_page _ _) => apply (stable_page _ HI), H
  | |- I (set_Names_data _ _) => apply (stable_Names_data _ HI), H
  | |- I (set_pageBuffer [] _) => apply (stable_pageBuffer _ HI), H
  | |- I (set_pageBufferStart _ _) => apply (stable_pageBufferStart _ HI), H
  | |- I (set_ended _ _) => apply (stable_ended _ (stable_store _ HI)), H
  end.

Ltac stable_lemmas :=
  first [ apply (stable_ref _ (stable_store _ HI))
        | apply (stable_write _ (stable_store _ HI))
        | apply (stable_refEnd _ (stable_store _ HI))
        | apply (stable_finalize _ (stable_store _ HI))
        | apply (stable_run_calls _ (stable_store _ HI))
        | apply (stable_PDFReference_end _ (stable_store _ HI))
        | apply (stable_flush_loop _ (stable_store _ HI)) ].

Lemma stable_flushPages : keeps I (flushPages lib).
Proof. unfold flushPages, PDFPage_end. keeps_steps stable_lemmas stable_field. Qed.

Lemma stable_end : keeps I (end_ lib).
Proof.
  unfold end_, end_decision, end_sequence, end_info_entry, end_info, end_root, end_Pages,
    end_Names, PDFSecurity_end.
  keeps_steps ltac:(first [stable_lemmas | apply stable_flushPages]) stable_field.
Qed.

Lemma stable_bufferedPageRange : keeps I bufferedPageRange.
Proof. unfold bufferedPageRange. keeps_steps fail stable_field. Qed.

Lemma stable_switchToPage n : preserves I (switchToPage n).
Proof.
  unfold switchToPage.
  apply preserves_bind; [apply preserves_gets | intros buffer].
  apply preserves_bind; [apply preserves_gets | intros start].
  destruct (array_get buffer (n - start)) as [p |]; [| apply preserves_throw].
  apply preserves_bind; [| intros ?; apply preserves_ret].
  apply preserves_modify. intros d H. apply (stable_page _ HI), H.
Qed.

Lemma stable_addNamedDestination name args : preserves I (addNamedDestination name args).
Proof.
  unfold addNamedDestination.
  apply preserves_bind.
  - destruct (_ && _); [| apply preserves_ret].
    apply preserves_bind; [apply preserves_gets | intros [p |]];
      [apply preserves_ret | apply preserves_throw].
  - intros args'. apply preserves_bind; [apply preserves_gets | intros [p |]];
      [| apply preserves_throw].
    apply preserves_modify. intros d H. apply (stable_Names_data _ HI), H.
Qed.

Lemma stable_addNamedEmbeddedFile name r : keeps I (addNamedEmbeddedFile name r).
Proof. unfold addNamedEmbeddedFile. keeps_steps fail stable_field. Qed.

Lemma stable_addNamedJavaScript name js : keeps I (addNamedJavaScript name js).
Proof. unfold addNamedJavaScript. keeps_steps fail stable_field. Qed.

Lemma stable_addContent data : preserves I (addContent data).
Proof.
  unfold addContent. apply preserves_bind; [apply preserves_gets | intros [p |]];
    [apply preserves_ret | apply preserves_throw].
Qed.

End Stable.

(** ** The page buffer *)

Lemma from_store_outside u n : store_stable (from_store outside_store u n).
Proof.
  constructor; intros d v [Hu Hn]; try (intros Hv); (split; [exact Hu |]); simpl;
    [lia | exact Hn ..].
Qed.

Lemma flushPages_spec d :
  let d' := exec (flushPages lib) d in
  flushPages lib d = (Returned tt, d')
  /\ outside_store d'
     = outside_store
         (set_pageBufferStart (_pageBufferStart d + Z.of_nat (length (_pageBuffer d)))
            (set_pageBuffer [] d))
  /\ (length (_offsets d) <= length (_offsets d'))%nat.
Proof.
  set (dm := set_pageBufferStart (_pageBufferStart d + Z.of_nat (length (_pageBuffer d)))
               (set_pageBuffer [] d)).
  set (loop := for_of (_pageBuffer d) (fun page =>
                 run_calls lib (endPageMarkings lib (Some page)) ;; PDFPage_end lib page)).
  assert (flushPages lib d = loop dm) as E by reflexivity.
  destruct (keeps_exec _ loop dm
              (stable_flush_loop _ (from_store_outside (outside_store dm)
                                      (length (_offsets d))) (_pageBuffer d)))
    as [[[] El] [Hu Hn]].
  { split; [reflexivity | simpl; lia]. }
  unfold exec. rewrite E. unfold exec in El, Hu, Hn. rewrite El. simpl.
  rewrite El in Hu, Hn. simpl in Hu, Hn. auto.
Qed.

Lemma create_page_spec o d :
  let d' := exec (create_page o) d in
  exists p,
    create_page o d = (Returned tt, d')
    /\ page d' = Some p
    /\ _pageBuffer d' = _pageBuffer d ++ [p]
    /\ _pageBufferStart d' = _pageBufferStart d
    /\ Pages_data d'
       = {| Count := Count (Pages_data d) + 1;
            Kids := Kids (Pages_data d) ++ [dictionary p] |}
    /\ options d' = options d
    /\ id (dictionary p) = Z.of_nat (length (_offsets d)) + 2
    /\ length (_offsets d') = S (S (length (_offsets d)))
    /\ height p = snd (size o)
    /\ (_ended d', pushed d', _offset d') = (_ended d, pushed d, _offset d)
    /\ version d' = version d.
Proof.
  eexists. split; [reflexivity |]. simpl.
  repeat split; rewrite ?length_app; simpl; lia.
Qed.

Lemma addPage_spec opts d :
  let o := match opts with Some o => o | None => Options.page (options d) end in
  let dF := if Options.bufferPages (options d) then d else exec (flushPages lib) d in
  addPage lib opts d = (Returned tt, exec (create_page o) dF).
Proof.
  intros o dF. unfold addPage.
  rewrite (bind_Returned _ _ d o d) by (now destruct opts).
  rewrite (bind_Returned _ _ d (Options.bufferPages (options d)) d) by reflexivity.
  destruct (create_page_spec o dF) as (p & E & _).
  subst dF. destruct (Options.bufferPages (options d)); cbn [negb].
  - rewrite (bind_Returned _ _ d tt d) by reflexivity. exact E.
  - destruct (flushPages_spec d) as (Ef & _).
    rewrite (bind_Returned _ _ _ _ _ Ef). exact E.
Qed.

(** What [addPage] does to the page buffer and the page tree. *)
Lemma addPage_effect opts d :
  let d' := exec (addPage lib opts) d in
  let buffered := Options.bufferPages (options d) in
  exists p,
    addPage lib opts d = (Returned tt, d')
    /\ page d' = Some p
    /\ _pageBuffer d' = (if buffered then _pageBuffer d else []) ++ [p]
    /\ _pageBufferStart d'
       = (if buffered then _pageBufferStart d
          else _pageBufferStart d + Z.of_nat (length (_pageBuffer d)))
    /\ Pages_data d'
       = {| Count := Count (Pages_data d) + 1;
            Kids := Kids (Pages_data d) ++ [dictionary p] |}
    /\ options d' = options d
    /\ Z.of_nat (length (_offsets d)) < id (dictionary p) <= Z.of_nat (length (_offsets d'))
    /\ (length (_offsets d) <= length (_offsets d'))%nat
    /\ height p = snd (size (match opts with Some o => o | None => Options.page (options d) end))
    /\ (buffered = true ->
        (_ended d', pushed d', _offset d') = (_ended d, pushed d, _offset d))
    /\ version d' = version d.
Proof.
  intros d' buffered. pose proof (addPage_spec opts d) as E. cbv zeta in E.
  set (o := match opts with Some o => o | None => Options.page (options d) end) in *.
  assert (d' = exec (create_page o)
                 (if Options.bufferPages (options d) then d else exec (flushPages lib) d))
    as Hd' by (subst d'; unfold exec at 1; now rewrite E).
  rewrite Hd' in *. clear Hd'. clearbody d'. subst buffered.
  destruct (Options.bufferPages (options d)) eqn:Eb.
  - destruct (create_page_spec o d)
      as (p & _ & Hp & Hb & Hs & HP & Ho & Hid & Hlen & Hh & Hk & Hv).
    exists p. repeat split; auto; try lia.
  - destruct (flushPages_spec d) as (_ & Hu & Hn).
    set (dF := exec (flushPages lib) d) in *.
    destruct (create_page_spec o dF)
      as (p & _ & Hp & Hb & Hs & HP & Ho & Hid & Hlen & Hh & Hk & Hv).
    unfold outside_store in Hu. simpl in Hu. simplify_eq.
    exists p. repeat split; auto; try lia; try congruence.
Qed.

Lemma array_get_None {A : Type} (arr : list A) i :
  array_get arr i = None <-> i < 0 \/ Z.of_nat (length arr) <= i.
Proof.
  unfold array_get. destruct (Z.ltb_spec i 0) as [Hi | Hi].
  - split; [auto | reflexivity].
  - rewrite lookup_ge_None. lia.
Qed.

(** C8: outside the buffered window, [switchToPage(n)] throws an [Error]
    whose message names [n] and the window, from [_pageBufferStart] to
    [_pageBufferStart + _pageBuffer.length - 1], and leaves the document as it
    was; inside the window it returns the page and throws nothing. *)
Theorem switchToPage_out_of_bounds_throws (d : PDFDocument) (n : Z) :
  let start := _pageBufferStart d in
  let last := _pageBufferStart d + Z.of_nat (length (_pageBuffer d)) - 1 in
  (n < start \/ last < n ->
     switchToPage n d
     = (Thrown (Error ("switchToPage(" +:+ pretty n
                       +:+ ") out of bounds, current buffer covers pages "
                       +:+ pretty start +:+ " to " +:+ pretty last)),
        d))
  /\ (start <= n <= last ->
        exists p, _pageBuffer d !! Z.to_nat (n - start) = Some p
                  /\ switchToPage n d = (Returned p, set_page (Some p) d)).
Proof.
  intros start last. unfold switchToPage, bind, gets. simpl. fold start.
  split; intros Hn.
  - assert (array_get (_pageBuffer d) (n - start) = None) as ->
      by (apply array_get_None; lia).
    reflexivity.
  - destruct (array_get (_pageBuffer d) (n - start)) as [p |] eqn:E.
    + exists p. split; [| reflexivity].
      unfold array_get in E. destruct (n - start <? 0); [discriminate | exact E].
    + apply array_get_None in E. lia.
Qed.

(** ** Sessions *)

Lemma invoke_preserves_other (I : PDFDocument -> Prop) :
  stable I -> forall m, adds_page m = false -> preserves I (invoke lib m).
Proof.
  intros HI m Hm. pose proof (stable_store _ HI) as HS.
  destruct m as [o | o | n | | | name args | name r | name js | data | c |];
    try discriminate; unfold invoke.
  - apply preserves_bind; [apply stable_switchToPage, HI | intros ?; apply preserves_ret].
  - apply returns_preserves, stable_flushPages, HI.
  - apply preserves_bind; [| intros ?; apply preserves_ret].
    apply returns_preserves, stable_bufferedPageRange.
  - apply stable_addNamedDestination, HI.
  - apply returns_preserves, stable_addNamedEmbeddedFile, HI.
  - apply returns_preserves, stable_addNamedJavaScript, HI.
  - apply stable_addContent.
  - apply returns_preserves, (stable_run_call _ HS).
  - apply preserves_bind; [| intros ?; apply preserves_ret].
    apply returns_preserves, stable_end, HI.
Qed.

Lemma invoke_preserves (I : PDFDocument -> Prop) :
  stable I -> (forall o, preserves I (addPage lib o)) ->
  forall m, preserves I (invoke lib m).
Proof.
  intros HI Hadd m. pose proof (stable_store _ HI) as HS.
  destruct (adds_page m) eqn:Em; [| now apply invoke_preserves_other].
  destruct m as [o | o | n | | | name args | name r | name js | data | c |];
    try discriminate; unfold invoke.
  - apply Hadd.
  - unfold continueOnNewPage.
    apply preserves_bind; [apply preserves_gets | intros current].
    apply preserves_bind.
    { apply returns_preserves, (stable_run_calls _ HS). }
    intros ?. apply preserves_bind; [apply Hadd | intros ?].
    apply returns_preserves, (stable_run_calls _ HS).
Qed.

Lemma session_preserves (I : PDFDocument -> Prop) :
  (forall m, preserves I (invoke lib m)) ->
  forall ms d, I d -> I (session lib ms d).
Proof.
  intros Hm ms. induction ms as [| m ms IH]; intros d Hd; [exact Hd |].
  simpl. apply IH, Hm, Hd.
Qed.

Lemma one_page_resident_stable : stable one_page_resident.
Proof.
  constructor; [constructor |..]; intros; unfold one_page_resident in *; simpl; auto.
  split; [tauto | lia].
Qed.

Lemma one_page_resident_addPage o : preserves one_page_resident (addPage lib o).
Proof.
  intros d [Hb _].
  destruct (addPage_effect o d) as (p & _ & _ & Hbuf & _ & _ & Ho & _).
  cbv zeta in Hbuf. rewrite Hb in Hbuf.
  split; [now rewrite Ho | now rewrite Hbuf].
Qed.

(** ** What a flush writes *)

Lemma returns_and {A : Type} P (m : M A) (Q1 Q2 : A -> PDFDocument -> Prop) :
  returns P m Q1 -> returns P m Q2 -> returns P m (fun a d => Q1 a d /\ Q2 a d).
Proof.
  intros H1 H2 d Hd.
  destruct (H1 d Hd) as (a & d' & E & HQ1). destruct (H2 d Hd) as (a' & d'' & E' & HQ2).
  rewrite E in E'. injection E' as <- <-. eauto.
Qed.

(** Properties of what has been pushed that pushing more cannot break. *)
Section Appending.

Variable I : PDFDocument -> Prop.
Hypothesis A : forall d d', (exists x, pushed d' = pushed d ++ x) -> I d -> I d'.

Ltac app_field :=
  let d := fresh "d" in
  let H := fresh "H" in
  intros d H; cbv beta; apply (A d);
  [first [ exists []; cbn; symmetry; apply app_nil_r | eexists; reflexivity ] | exact H].

Lemma app_ref data : keeps I (ref data).
Proof. unfold ref. keeps_steps fail app_field. Qed.

Lemma app_write data : keeps I (_write data).
Proof. unfold _write, push. keeps_steps fail app_field. Qed.

Lemma app_finalize : keeps I (_finalize lib).
Proof. unfold _finalize, push. keeps_steps ltac:(apply app_write) app_field. Qed.

Lemma app_refEnd r : keeps I (_refEnd lib r).
Proof. unfold _refEnd. keeps_steps ltac:(apply app_finalize) app_field. Qed.

Lemma app_run_call c : keeps I (run_call lib c).
Proof.
  destruct c as [data | data | r]; unfold run_call;
    keeps_steps ltac:(first [apply app_ref | apply app_write | apply app_refEnd]) app_field.
Qed.

Lemma app_run_calls cs : keeps I (run_calls lib cs).
Proof. unfold run_calls. apply keeps_for_of, app_run_call. Qed.

Lemma app_PDFReference_end r : keeps I (PDFReference_end lib r).
Proof.
  unfold PDFReference_end.
  keeps_steps ltac:(first [apply app_write | apply app_refEnd]) app_field.
Qed.

Lemma app_flush_loop (pages : list PDFPage) :
  keeps I (for_of pages (fun page =>
             run_calls lib (endPageMarkings lib (Some page)) ;; PDFPage_end lib page)).
Proof.
  unfold PDFPage_end.
  keeps_steps ltac:(first [apply app_run_calls | apply app_PDFReference_end]) app_field.
Qed.

Lemma app_flushPages : keeps I (flushPages lib).
Proof.
  unfold flushPages, PDFPage_end.
  keeps_steps ltac:(first [apply app_run_calls | apply app_PDFReference_end]) app_field.
Qed.

Lemma app_create_page o : keeps I (create_page o).
Proof. unfold create_page, PDFPage_new. keeps_steps ltac:(apply app_ref) app_field. Qed.

Lemma app_addPage o : keeps I (addPage lib o).
Proof.
  unfold addPage.
  keeps_steps ltac:(first [apply app_flushPages | apply app_create_page]) app_field.
Qed.

Lemma app_add_pages os : keeps I (add_pages lib os).
Proof.
  induction os as [| o os IH]; cbn [add_pages]; [apply keeps_ret |].
  keeps_steps ltac:(first [apply app_addPage | exact IH]) app_field.
Qed.

End Appending.

Lemma grown_appends l d d' : (exists x, pushed d' = pushed d ++ x) -> grown l d -> grown l d'.
Proof. intros [x Hx] [a Ha]. exists (a ++ x). now rewrite Hx, Ha, app_assoc. Qed.

Lemma opened_appends l r d d' :
  (exists x, pushed d' = pushed d ++ x) -> opened l r d -> opened l r d'.
Proof.
  intros [x Hx] (b & a & Ha). exists b, (a ++ x).
  rewrite Hx, Ha. now rewrite <- !app_assoc.
Qed.

Lemma serialised_appends l r d d' :
  (exists x, pushed d' = pushed d ++ x) -> serialised l r d -> serialised l r d'.
Proof.
  intros [x Hx] (b & a & Ha & He). exists b, (a ++ x). split.
  - rewrite Hx, Ha. now rewrite <- !app_assoc.
  - apply elem_of_app. now left.
Qed.

Lemma flushed_appends l p d d' :
  (exists x, pushed d' = pushed d ++ x) -> flushed l p d -> flushed l p d'.
Proof. intros Hx [H1 H2]. split; eapply serialised_appends; eauto. Qed.

Lemma serialised_grown l r d : serialised l r d -> grown l d.
Proof. intros (b & a & Ha & _). eexists. exact Ha. Qed.

Lemma flushed_grown l p d : flushed l p d -> grown l d.
Proof. intros [H _]. eapply serialised_grown, H. Qed.

Lemma serialised_base l x r d : serialised (l ++ x) r d -> serialised l r d.
Proof.
  intros (b & a & Ha & He). exists (x ++ b), a. split; [| exact He].
  rewrite Ha. now rewrite <- !app_assoc.
Qed.

Lemma PDFReference_end_serialises l r :
  returns (grown l) (PDFReference_end lib r) (fun _ => serialised l r).
Proof.
  unfold PDFReference_end.
  apply returns_bind with (R := fun _ => grown l); [apply keeps_gets | intros o].
  apply returns_bind with (R := fun _ => opened l r).
  { intros d [x0 Ha]. eexists _, _. split; [apply _write_eq |].
    exists x0, []. cbn [pushed set_offset set_pushed]. rewrite Ha.
    now rewrite <- app_assoc. }
  intros ?.
  eapply returns_bind; [apply (app_write _ (opened_appends l r)) | intros ?].
  apply returns_bind with (R := fun _ => serialised l r).
  { intros d (x0 & x1 & Ha). eexists _, _. split; [apply _write_eq |].
    exists x0, (x1 ++ [Chunk (written (Str "endobj"))]). cbn [pushed set_offset set_pushed].
    split; [rewrite Ha; now rewrite <- !app_assoc |].
    apply elem_of_app. right. apply list_elem_of_here. }
  intros ?.
  eapply returns_bind; [apply (app_refEnd _ (serialised_appends l r)) | intros ?].
  apply keeps_ret.
Qed.

Lemma PDFPage_end_flushes l p :
  returns (grown l) (PDFPage_end lib p) (fun _ => flushed l p).
Proof.
  unfold PDFPage_end.
  eapply returns_bind; [apply PDFReference_end_serialises | intros ?].
  eapply returns_post; [| intros ? d H; exact H].
  apply returns_and.
  - apply (app_PDFReference_end _ (serialised_appends l (dictionary p))).
  - eapply returns_weaken;
      [apply PDFReference_end_serialises | | intros ? ? H; exact H].
    intros d. apply serialised_grown.
Qed.

Lemma flush_loop_flushes l (pages : list PDFPage) :
  returns (grown l)
    (for_of pages (fun page =>
       run_calls lib (endPageMarkings lib (Some page)) ;; PDFPage_end lib page))
    (fun _ d => grown l d /\ Forall (fun p => flushed l p d) pages).
Proof.
  induction pages as [| p pages IH].
  - apply returns_ret. intros d H. split; [exact H | apply Forall_nil; exact I].
  - cbn [for_of].
    apply returns_bind with (R := fun _ => flushed l p).
    { eapply returns_bind; [apply (app_run_calls _ (grown_appends l)) | intros ?].
      apply PDFPage_end_flushes. }
    intros ?.
    eapply returns_post.
    { apply returns_and.
      - apply (app_flush_loop _ (flushed_appends l p)).
      - eapply returns_weaken; [apply IH | | intros ? ? H; exact H].
        intros d. apply flushed_grown. }
    intros ? d [Hp [Hg Hrest]]. split; [exact Hg |]. now apply Forall_cons.
Qed.

Lemma flushPages_flushes l d :
  grown l d -> Forall (fun p => flushed l p (exec (flushPages lib) d)) (_pageBuffer d).
Proof.
  intros Hg.
  set (dm := set_pageBufferStart (_pageBufferStart d + Z.of_nat (length (_pageBuffer d)))
               (set_pageBuffer [] d)).
  set (loop := for_of (_pageBuffer d) (fun page =>
                 run_calls lib (endPageMarkings lib (Some page)) ;; PDFPage_end lib page)).
  assert (flushPages lib d = loop dm) as E by reflexivity.
  destruct (flush_loop_flushes l (_pageBuffer d) dm Hg) as (a & d' & El & _ & H).
  unfold exec. rewrite E. fold loop in El. rewrite El. exact H.
Qed.

Lemma addPage_flushes l o d :
  Options.bufferPages (options d) = false -> grown l d ->
  Forall (fun p => flushed l p (exec (addPage lib o) d)) (_pageBuffer d).
Proof.
  intros Hb Hg. pose proof (addPage_spec o d) as E. cbv zeta in E. rewrite Hb in E.
  assert (exec (addPage lib o) d
          = exec (create_page match o with
                              | Some o' => o'
                              | None => Options.page (options d)
                              end) (exec (flushPages lib) d)) as ->
    by (unfold exec at 1; now rewrite E).
  eapply Forall_impl; [apply (flushPages_flushes l d Hg) |].
  intros p Hp. cbv beta in Hp.
  apply (keeps_exec _ _ _ (app_create_page _ (flushed_appends l p) _) Hp).
Qed.

Lemma add_pages_step o os d :
  exists p,
    page (exec (addPage lib o) d) = Some p
    /\ add_pages lib (o :: os) d
       = (let* ps := add_pages lib os in ret (p :: ps)) (exec (addPage lib o) d).
Proof.
  destruct (addPage_effect o d) as (p & E & Hp & _).
  exists p. split; [exact Hp |]. cbn [add_pages]. rewrite (bind_Returned _ _ _ _ _ E).
  rewrite (bind_Returned _ _ (exec (addPage lib o) d) (Some p) (exec (addPage lib o) d))
    by (unfold gets; now rewrite Hp).
  reflexivity.
Qed.

Lemma exec_add_pages_cons o os d :
  exec (add_pages lib (o :: os)) d = exec (add_pages lib os) (exec (addPage lib o) d).
Proof.
  destruct (add_pages_step o os d) as (p & _ & E). unfold exec at 1. rewrite E.
  unfold bind, ret, exec. now destruct (add_pages lib os _) as [[ps | e] d'].
Qed.

Lemma add_pages_unbuffered os : forall d,
  Options.bufferPages (options d) = false -> os <> [] ->
  exists ps p,
    add_pages lib os d = (Returned ps, exec (add_pages lib os) d)
    /\ length ps = length os
    /\ last ps = Some p
    /\ _pageBuffer (exec (add_pages lib os) d) = [p].
Proof.
  induction os as [| o os IH]; intros d Hb Hos; [contradiction |].
  destruct (addPage_effect o d) as (p & E & Hp & Hbuf & _ & _ & Ho & _).
  cbv zeta in Hbuf. rewrite Hb in Hbuf. simpl in Hbuf.
  set (d1 := exec (addPage lib o) d) in *.
  assert (add_pages lib (o :: os) d
          = (let* ps := add_pages lib os in ret (p :: ps)) d1) as E1.
  { cbn [add_pages]. rewrite (bind_Returned _ _ _ _ _ E).
    rewrite (bind_Returned _ _ d1 (Some p) d1) by (unfold gets; now rewrite Hp).
    reflexivity. }
  destruct os as [| o' os'].
  - exists [p], p. unfold exec. rewrite E1. simpl. auto.
  - destruct (IH d1) as (ps & q & E2 & Hlen & Hlast & Hq); [now rewrite Ho | discriminate |].
    exists (p :: ps), q. unfold exec at 1 2. rewrite E1.
    rewrite (bind_Returned _ _ _ _ _ E2). cbn [ret fst snd].
    split; [reflexivity |]. split; [simpl; now rewrite Hlen |].
    split; [| exact Hq].
    destruct ps as [| p' ps']; [discriminate |]. now rewrite last_cons_cons.
Qed.

Lemma add_pages_flushes os : forall l d,
  Options.bufferPages (options d) = false -> grown l d -> os <> [] ->
  Forall (fun q => flushed l q (exec (add_pages lib os) d)) (_pageBuffer d)
  /\ forall ps (i : nat) q,
       result (add_pages lib os) d = Returned ps ->
       ps !! i = Some q -> (S i < length ps)%nat ->
       flushed l q (exec (add_pages lib os) d).
Proof.
  induction os as [| o os IH]; intros l d Hb Hg Hos; [contradiction |].
  rewrite exec_add_pages_cons.
  destruct (addPage_effect o d) as (p & _ & Hp & Hbuf & _ & _ & Ho & _).
  cbv zeta in Hbuf. rewrite Hb in Hbuf. cbn [app] in Hbuf.
  set (d1 := exec (addPage lib o) d) in *.
  assert (Options.bufferPages (options d1) = false) as Hb1 by now rewrite Ho.
  assert (grown l d1) as Hg1
    by apply (keeps_exec _ _ _ (app_addPage _ (grown_appends l) o) Hg).
  pose proof (addPage_flushes l o d Hb Hg) as Hold. fold d1 in Hold.
  destruct (add_pages_step o os d) as (p' & Hp' & Estep). fold d1 in Hp', Estep.
  rewrite Hp in Hp'. injection Hp' as <-.
  split.
  - eapply Forall_impl; [exact Hold |]. intros q Hq. cbv beta in Hq.
    apply (keeps_exec _ _ _ (app_add_pages _ (flushed_appends l q) os) Hq).
  - intros ps i q Eps Hi Hlen.
    destruct os as [| o' os'].
    + unfold result in Eps. rewrite Estep in Eps. cbn in Eps. injection Eps as <-.
      cbn [length] in Hlen. lia.
    + destruct (IH l d1 Hb1 Hg1) as [Hfirst Hrest]; [discriminate |].
      destruct (add_pages_unbuffered (o' :: os') d1 Hb1) as (ps' & _ & E' & _);
        [discriminate |].
      unfold result in Eps. rewrite Estep in Eps.
      rewrite (bind_Returned _ _ _ _ _ E') in Eps. cbn [ret fst] in Eps.
      injection Eps as <-.
      destruct i as [| i].
      * cbn in Hi. injection Hi as Hq. rewrite Hbuf in Hfirst.
        apply Forall_inv in Hfirst. rewrite <- Hq. exact Hfirst.
      * cbn in Hi. cbn [length] in Hlen. apply (Hrest ps' i q); [| exact Hi | lia].
        unfold result. now rewrite E'.
Qed.

Lemma create_page_slots o d :
  let d' := exec (create_page o) d in
  exists p,
    page d' = Some p
    /\ _offsets d' !! Z.to_nat (id (dictionary p) - 1) = Some off_null
    /\ _offsets d' !! Z.to_nat (id (content p) - 1) = Some off_null.
Proof.
  eexists. split; [reflexivity |]. cbn.
  rewrite !Z.add_simpl_r, !Nat2Z.id, length_app. cbn [length]. split.
  - rewrite lookup_app_r by (rewrite length_app; cbn; lia).
    rewrite length_app. cbn [length].
    now replace (length (_offsets d) + 1 - (length (_offsets d) + 1))%nat with 0%nat by lia.
  - rewrite lookup_app_l by (rewrite length_app; cbn; lia).
    rewrite lookup_app_r by lia.
    now replace (length (_offsets d) - length (_offsets d))%nat with 0%nat by lia.
Qed.

(** C5: with [bufferPages] off, [addPage] first flushes the whole page
    buffer and then buffers the page it creates.  The flush leaves the
    buffer empty, moves the buffer start past the pages it held, and writes
    every one of them out: the object of its dictionary and the object of
    its content stream are in what has been pushed since.  The page just
    created is the only one not written out: it is alone in the buffer and
    its two references are still outstanding.  So after any sequence of
    [addPage] calls the buffer holds exactly the page added last, every page
    added before it has been written out, and at no point of a session does
    the buffer hold more than one page. *)
Theorem unbuffered_addPage_keeps_one_page (d : PDFDocument) :
  Options.bufferPages (options d) = false ->
  (forall opts,
     let flushed_state := exec (flushPages lib) d in
     let d' := exec (addPage lib opts) d in
     exists o p,
       addPage lib opts d = (Returned tt, d')
       /\ d' = exec (create_page o) flushed_state
       /\ _pageBuffer flushed_state = []
       /\ _pageBufferStart flushed_state
          = _pageBufferStart d + Z.of_nat (length (_pageBuffer d))
       /\ page d' = Some p
       /\ _pageBuffer d' = [p]
       /\ Forall (fun q => flushed (pushed d) q flushed_state) (_pageBuffer d)
       /\ Forall (fun q => flushed (pushed d) q d') (_pageBuffer d)
       /\ _offsets d' !! Z.to_nat (id (dictionary p) - 1) = Some off_null
       /\ _offsets d' !! Z.to_nat (id (content p) - 1) = Some off_null)
  /\ (forall os, os <> [] ->
        exists ps p,
          result (add_pages lib os) d = Returned ps
          /\ length ps = length os
          /\ last ps = Some p
          /\ _pageBuffer (exec (add_pages lib os) d) = [p]
          /\ Forall (fun q => flushed (pushed d) q (exec (add_pages lib os) d))
               (_pageBuffer d)
          /\ forall (i : nat) q,
               ps !! i = Some q -> (S i < length ps)%nat ->
               flushed (pushed d) q (exec (add_pages lib os) d))
  /\ (forall ms, (length (_pageBuffer d) <= 1)%nat ->
        (length (_pageBuffer (session lib ms d)) <= 1)%nat).
Proof.
  intros Hb.
  assert (grown (pushed d) d) as Hg by (exists []; now rewrite app_nil_r).
  split; [| split].
  - intros opts flushed_state d'.
    pose proof (addPage_spec opts d) as E. cbv zeta in E. rewrite Hb in E.
    destruct (addPage_effect opts d) as (p & _ & Hp & Hbuf & _).
    cbv zeta in Hbuf. rewrite Hb in Hbuf.
    destruct (flushPages_spec d) as (_ & Hu & _).
    unfold outside_store in Hu. simpl in Hu.
    assert (d' = exec (create_page match opts with
                                   | Some o => o
                                   | None => Options.page (options d)
                                   end) flushed_state) as Hd'
      by (subst d'; unfold exec at 1; now rewrite E).
    eexists _, p. split; [rewrite Hd'; exact E |].
    split; [exact Hd' |].
    injection Hu as _ _ _ Hbuffer Hstart _ _ _ _ _ _ _ _ _ _ _ _.
    split; [exact Hbuffer |]. split; [exact Hstart |]. split; [exact Hp |].
    split; [exact Hbuf |].
    split; [apply (flushPages_flushes _ d Hg) |].
    split; [apply (addPage_flushes _ opts d Hb Hg) |].
    destruct (create_page_slots match opts with
                                | Some o => o
                                | None => Options.page (options d)
                                end flushed_state) as (p' & Hp' & Hslots).
    rewrite <- Hd' in Hp', Hslots. change (page d' = Some p) in Hp.
    rewrite Hp in Hp'. injection Hp' as <-. exact Hslots.
  - intros os Hos. destruct (add_pages_unbuffered os d Hb Hos) as (ps & p & E & H1 & H2 & H3).
    destruct (add_pages_flushes os _ d Hb Hg Hos) as [Hold Hnew].
    exists ps, p. unfold result. rewrite E. cbn [fst].
    split; [reflexivity |]. split; [exact H1 |]. split; [exact H2 |]. split; [exact H3 |].
    split; [exact Hold |].
    intros i q Hi Hlen. apply (Hnew ps i q); [| exact Hi | exact Hlen].
    unfold result. now rewrite E.
  - intros ms Hlen.
    apply (session_preserves one_page_resident).
    + apply invoke_preserves;
        [apply one_page_resident_stable | apply one_page_resident_addPage].
    + now split.
Qed.

(** ** Construction *)

Lemma constructing_store_stable opts : store_stable (constructing opts).
Proof. constructor; intros d v H; try (intros _); exact H. Qed.

Lemma constructing_fresh opts now : constructing opts (fresh lib opts now).
Proof. repeat split. Qed.

Ltac constructing_field :=
  let d := fresh "d" in
  let H := fresh "H" in
  intros d H; unfold constructing in *; simpl; intuition auto.

Ltac construct_step opts :=
  lazymatch goal with
  | |- returns ?I (bind ?m ?k) ?Q =>
      apply (returns_bind I (fun _ => I) Q m k);
      [ change (keeps I m);
        keeps_steps
          ltac:(first [ apply (stable_ref _ (constructing_store_stable opts))
                      | apply (stable_write _ (constructing_store_stable opts))
                      | apply (stable_run_calls _ (constructing_store_stable opts)) ])
          constructing_field
      | intros ? ]
  end.

Lemma construct_spec opts :
  returns (constructing opts) (construct lib opts) (fun _ => constructed opts).
Proof.
  unfold construct, PDFSecurity_create.
  do 14 construct_step opts.
  assert (returns (constructing opts) (addPage lib None)
            (fun _ d =>
               options d = opts
               /\ version d = select_version (Options.pdfVersion opts)
               /\ _pageBufferStart d = 0
               /\ exists p,
                    _pageBuffer d = [p] /\ page d = Some p
                    /\ Pages_data d = {| Count := 1; Kids := [dictionary p] |}
                    /\ id (dictionary p) <= Z.of_nat (length (_offsets d)))) as Hadd.
  { intros d (Ho & Hv & Hb & Hs & HP & Hp).
    destruct (addPage_effect None d)
      as (p & E & Hp' & Hb' & Hs' & HP' & Ho' & Hid & _ & _ & _ & Hv').
    cbv zeta in Hb', Hs'. rewrite Hb in Hb', Hs'. rewrite Hs in Hs'. rewrite HP in HP'.
    exists tt, (exec (addPage lib None) d). split; [exact E |].
    split; [now rewrite Ho', Ho |]. split; [now rewrite Hv', Hv |].
    split; [rewrite Hs'; now destruct (Options.bufferPages (options d)) |].
    exists p. split; [rewrite Hb'; now destruct (Options.bufferPages (options d)) |].
    split; [exact Hp' |]. split; [exact HP' | lia]. }
  destruct (Options.autoFirstPage opts) as [| | [|] | | | | | | | |] eqn:Ea;
    try (eapply returns_weaken; [exact Hadd | auto | ];
         intros ? d H; unfold constructed; rewrite Ea; exact H).
  apply returns_ret. intros d (Ho & Hv & Hb & Hs & HP & Hp).
  unfold constructed. rewrite Ea. repeat split; assumption.
Qed.

Lemma PDFDocument_new_constructed opts now :
  exists d, PDFDocument_new lib opts now = (Returned tt, d) /\ constructed opts d.
Proof.
  destruct (construct_spec opts (fresh lib opts now) (constructing_fresh opts now))
    as ([] & d & E & H).
  exists d. split; [exact E | exact H].
Qed.

(** A document constructed with [bufferPages] off never holds more than one
    page in its buffer. *)
Corollary unbuffered_document_holds_one_page (opts : Options.t) (now : Z) (ms : list method) :
  Options.bufferPages opts = false ->
  exists d0,
    PDFDocument_new lib opts now = (Returned tt, d0)
    /\ (length (_pageBuffer (session lib ms d0)) <= 1)%nat.
Proof.
  intros Hb.
  destruct (PDFDocument_new_constructed opts now) as (d0 & E0 & Ho & _ & _ & Hauto).
  exists d0. split; [exact E0 |].
  apply (session_preserves one_page_resident).
  - apply invoke_preserves;
      [apply one_page_resident_stable | apply one_page_resident_addPage].
  - split; [now rewrite Ho |].
    destruct (Options.autoFirstPage opts) as [| | [|] | | | | | | | |];
      try (destruct Hauto as (p & -> & _); simpl; lia).
    destruct Hauto as (-> & _). simpl. lia.
Qed.

Lemma select_version_unrecognized v :
  (forall s, s ∈ recognized_versions -> v <> JStr s) -> select_version v = v1_3.
Proof.
  intros H. unfold select_version, strict_equals_string.
  destruct v as [| | b | n | | s | s | t | i | l | fields]; try reflexivity.
  repeat case_bool_decide; try reflexivity; subst s;
    exfalso; (eapply H; [| reflexivity]); unfold recognized_versions; set_solver.
Qed.

(** C9: construction returns a document whatever [options.pdfVersion] is;
    the version is 1.3 unless the option is one of the recognized strings,
    and ['1.4'], ['1.5'], ['1.6'], ['1.7'], ['1.7ext3'] select 1.4, 1.5, 1.6,
    1.7 and 1.7. *)
Theorem unrecognized_pdfVersion_yields_1_3 (opts : Options.t) (now : Z) :
  exists d,
    PDFDocument_new lib opts now = (Returned tt, d)
    /\ ((forall s, s ∈ recognized_versions -> Options.pdfVersion opts <> JStr s) ->
        version d = v1_3 /\ PDFVersion_toString (version d) = "1.3")
    /\ (Options.pdfVersion opts = JStr "1.4" -> version d = v1_4)
    /\ (Options.pdfVersion opts = JStr "1.5" -> version d = v1_5)
    /\ (Options.pdfVersion opts = JStr "1.6" -> version d = v1_6)
    /\ (Options.pdfVersion opts = JStr "1.7" -> version d = v1_7)
    /\ (Options.pdfVersion opts = JStr "1.7ext3" -> version d = v1_7).
Proof.
  destruct (PDFDocument_new_constructed opts now) as (d & E & _ & Hv & _).
  exists d. split; [exact E |]. rewrite Hv.
  split; [| repeat split; intros ->; reflexivity].
  intros H. now rewrite (select_version_unrecognized _ H).
Qed.

(** ** Switching between buffered pages *)

Lemma addPage_buffered o d :
  Options.bufferPages (options d) = true ->
  let d' := exec (addPage lib o) d in
  exists p,
    addPage lib o d = (Returned tt, d')
    /\ page d' = Some p
    /\ _pageBuffer d' = _pageBuffer d ++ [p]
    /\ _pageBufferStart d' = _pageBufferStart d
    /\ options d' = options d
    /\ Z.of_nat (length (_offsets d)) < id (dictionary p) <= Z.of_nat (length (_offsets d'))
    /\ (_ended d', pushed d', _offset d') = (_ended d, pushed d, _offset d).
Proof.
  intros Hb d'.
  destruct (addPage_effect o d) as (p & E & Hp & Hbuf & Hs & _ & Ho & Hid & _ & _ & Hk & _).
  cbv zeta in Hbuf, Hs, Hk. rewrite Hb in Hbuf, Hs, Hk. specialize (Hk eq_refl).
  subst d'. exists p. repeat split; auto; lia.
Qed.

Lemma add_pages_cons o os d p d1 ps d' :
  addPage lib o d = (Returned tt, d1) ->
  page d1 = Some p ->
  add_pages lib os d1 = (Returned ps, d') ->
  add_pages lib (o :: os) d = (Returned (p :: ps), d').
Proof.
  intros E Hp Eos. cbn [add_pages].
  rewrite (bind_Returned _ _ _ _ _ E).
  rewrite (bind_Returned _ _ d1 (Some p) d1) by (unfold gets; now rewrite Hp).
  rewrite (bind_Returned _ _ _ _ _ Eos). reflexivity.
Qed.

Lemma add_three_pages o1 o2 o3 d :
  Options.bufferPages (options d) = true ->
  exists p1 p2 p3 d3,
    add_pages lib [o1; o2; o3] d = (Returned [p1; p2; p3], d3)
    /\ _pageBuffer d3 = _pageBuffer d ++ [p1; p2; p3]
    /\ _pageBufferStart d3 = _pageBufferStart d
    /\ (Z.of_nat (length (_offsets d)) < id (dictionary p1)
        /\ id (dictionary p1) < id (dictionary p2) < id (dictionary p3))
    /\ (_ended d3, pushed d3, _offset d3) = (_ended d, pushed d, _offset d).
Proof.
  intros Hb.
  destruct (addPage_buffered o1 d Hb) as (p1 & E1 & Hp1 & Hb1 & Hs1 & Ho1 & Hi1 & Hk1).
  set (d1 := exec (addPage lib o1) d) in *.
  assert (Options.bufferPages (options d1) = true) as Hbuf1 by now rewrite Ho1.
  destruct (addPage_buffered o2 d1 Hbuf1) as (p2 & E2 & Hp2 & Hb2 & Hs2 & Ho2 & Hi2 & Hk2).
  set (d2 := exec (addPage lib o2) d1) in *.
  assert (Options.bufferPages (options d2) = true) as Hbuf2 by now rewrite Ho2.
  destruct (addPage_buffered o3 d2 Hbuf2) as (p3 & E3 & Hp3 & Hb3 & Hs3 & Ho3 & Hi3 & Hk3).
  set (d3 := exec (addPage lib o3) d2) in *.
  exists p1, p2, p3, d3. split; [| split; [| split; [| split]]].
  - apply (add_pages_cons _ _ _ _ d1 _ _ E1 Hp1).
    apply (add_pages_cons _ _ _ _ d2 _ _ E2 Hp2).
    apply (add_pages_cons _ _ _ _ d3 _ _ E3 Hp3).
    reflexivity.
  - rewrite Hb3, Hb2, Hb1, <- !app_assoc. reflexivity.
  - congruence.
  - lia.
  - congruence.
Qed.

Lemma add_pages_buffered_slots os : forall d,
  Options.bufferPages (options d) = true ->
  exists k, _offsets (exec (add_pages lib os) d) = _offsets d ++ replicate k off_null.
Proof.
  induction os as [| o os IH]; intros d Hb.
  - exists 0%nat. unfold exec. cbn. now rewrite app_nil_r.
  - rewrite exec_add_pages_cons.
    destruct (addPage_effect o d) as (_ & _ & _ & _ & _ & _ & Ho & _).
    destruct (IH (exec (addPage lib o) d)) as (k & ->); [now rewrite Ho |].
    pose proof (addPage_spec o d) as E. cbv zeta in E. rewrite Hb in E.
    unfold exec at 1. rewrite E. cbn [snd].
    exists (2 + k)%nat.
    change (_offsets (exec (create_page match o with
                                        | Some o' => o'
                                        | None => Options.page (options d)
                                        end) d))
      with ((_offsets d ++ [off_null]) ++ [off_null]).
    rewrite <- !app_assoc. reflexivity.
Qed.

(** C4: in a document constructed with [bufferPages: true] and with the
    automatic first page, which is the default, the first page is page 0
    and the three pages added next are the pages 1, 2 and 3:
    [switchToPage(2)] returns the second page added.  No buffered page is
    flushed or finalized on the way: all four pages are still in the
    buffer, whose window starts at 0, nothing has been written since the
    constructor returned, no reference allocated for a page has been ended,
    and switching only assigns the current page. *)
Theorem switchToPage_2_returns_second_added_page
    (opts : Options.t) (now : Z) (o1 o2 o3 : option PageOptions) :
  Options.bufferPages opts = true ->
  Options.autoFirstPage opts <> JBool false ->
  exists d0 p0 p1 p2 p3 d3,
    PDFDocument_new lib opts now = (Returned tt, d0)
    /\ _pageBuffer d0 = [p0]
    /\ add_pages lib [o1; o2; o3] d0 = (Returned [p1; p2; p3], d3)
    /\ (id (dictionary p0) < id (dictionary p1)
        /\ id (dictionary p1) < id (dictionary p2) < id (dictionary p3))
    /\ switchToPage 2 d3 = (Returned p2, set_page (Some p2) d3)
    /\ switchToPage 1 d3 = (Returned p1, set_page (Some p1) d3)
    /\ switchToPage 3 d3 = (Returned p3, set_page (Some p3) d3)
    /\ _pageBuffer d3 = [p0; p1; p2; p3]
    /\ _pageBufferStart d3 = 0
    /\ (_ended d3, pushed d3, _offset d3) = (_ended d0, pushed d0, _offset d0)
    /\ exists k, _offsets d3 = _offsets d0 ++ replicate k off_null.
Proof.
  intros Hb Ha.
  destruct (PDFDocument_new_constructed opts now) as (d0 & E0 & Ho & _ & Hs & Hauto).
  assert (exists p0, _pageBuffer d0 = [p0]
                     /\ id (dictionary p0) <= Z.of_nat (length (_offsets d0)))
    as (p0 & Hp0 & Hid0).
  { destruct (Options.autoFirstPage opts) as [| | [|] | | | | | | | |];
      try (destruct Hauto as (p0 & Hp0 & _ & _ & Hid0); now exists p0).
    contradiction. }
  assert (Options.bufferPages (options d0) = true) as Hb0 by now rewrite Ho.
  destruct (add_three_pages o1 o2 o3 d0 Hb0)
    as (p1 & p2 & p3 & d3 & E & Hbuf & Hs3 & Hid & Hk).
  rewrite Hp0 in Hbuf. cbn [app] in Hbuf.
  exists d0, p0, p1, p2, p3, d3.
  assert (forall n p,
            array_get [p0; p1; p2; p3] n = Some p ->
            switchToPage n d3 = (Returned p, set_page (Some p) d3)) as Hswitch.
  { intros n p Hn. unfold switchToPage, bind, gets. cbn [fst snd].
    rewrite Hs3, Hs, Z.sub_0_r, Hbuf, Hn. reflexivity. }
  split; [exact E0 |]. split; [exact Hp0 |]. split; [exact E |]. split; [lia |].
  split; [now apply Hswitch |]. split; [now apply Hswitch |]. split; [now apply Hswitch |].
  split; [exact Hbuf |]. split; [congruence |]. split; [exact Hk |].
  destruct (add_pages_buffered_slots [o1; o2; o3] d0 Hb0) as (k & Hslots).
  exists k. unfold exec in Hslots. now rewrite E in Hslots.
Qed.

(** ** The page tree *)

Lemma page_tree_stable : stable page_tree_consistent.
Proof.
  constructor; [constructor |..]; intros; unfold page_tree_consistent in *; simpl; auto.
  destruct H as (HC & HN & HF). repeat split; auto.
  eapply Forall_impl; [exact HF |]. intros r Hr. simpl in *. lia.
Qed.

Lemma page_tree_addPage o : preserves page_tree_consistent (addPage lib o).
Proof.
  intros d (HC & HN & HF).
  destruct (addPage_effect o d) as (p & _ & _ & _ & _ & HP & _ & Hid & Hlen & _).
  unfold page_tree_consistent. rewrite HP. cbn [Count Kids].
  rewrite Forall_forall in HF. split; [| split].
  - rewrite length_app. simpl. lia.
  - rewrite fmap_app. apply NoDup_app. split; [exact HN |]. split.
    + intros i Hi Hp. apply list_elem_of_fmap in Hi as (r & -> & Hr).
      apply list_elem_of_singleton in Hp. specialize (HF r Hr). simpl in HF. lia.
    + apply NoDup_singleton.
  - apply Forall_app. split.
    + apply Forall_forall. intros r Hr. specialize (HF r Hr). simpl in HF. lia.
    + apply Forall_singleton. lia.
Qed.

Lemma store_calls_frame cs d :
  run_calls lib cs d = (Returned tt, exec (run_calls lib cs) d)
  /\ outside_store (exec (run_calls lib cs) d) = outside_store d.
Proof.
  destruct (keeps_exec _ (run_calls lib cs) d
              (stable_run_calls _ (from_store_outside (outside_store d) 0) cs))
    as [[[] E] [Hu _]].
  - split; [reflexivity | lia].
  - split; [exact E | exact Hu].
Qed.

Lemma continueOnNewPage_effect o d :
  let d' := exec (continueOnNewPage lib o) d in
  exists p,
    page d' = Some p
    /\ Pages_data d'
       = {| Count := Count (Pages_data d) + 1;
            Kids := Kids (Pages_data d) ++ [dictionary p] |}.
Proof.
  intros d'.
  set (pre := run_calls lib (endPageMarkings lib (page d))).
  assert (pre d = (Returned tt, exec pre d)
          /\ outside_store (exec pre d) = outside_store d) as [Epre Hpre].
  { subst pre. apply store_calls_frame. }
  destruct (addPage_effect o (exec pre d)) as (p & Eadd & Hp & _ & _ & HP & _).
  destruct (store_calls_frame (initPageMarkings lib) (exec (addPage lib o) (exec pre d)))
    as [Einit Hinit].
  assert (d' = exec (run_calls lib (initPageMarkings lib)) (exec (addPage lib o) (exec pre d)))
    as ->.
  { subst d'. unfold exec at 1. unfold continueOnNewPage.
    rewrite (bind_Returned _ _ d (page d) d) by reflexivity. fold pre.
    rewrite (bind_Returned _ _ _ _ _ Epre), (bind_Returned _ _ _ _ _ Eadd), Einit.
    reflexivity. }
  injection Hinit as _ _ _ _ _ _ _ HP' _ Hp' _ _ _ _ _ _ _.
  injection Hpre as _ _ _ _ _ _ _ HP0 _ _ _ _ _ _ _ _ _.
  exists p. split; [congruence |]. rewrite HP', HP, HP0. reflexivity.
Qed.

Lemma Pages_data_stable P : stable (fun d => Pages_data d = P).
Proof. constructor; [constructor |..]; intros; simpl; auto. Qed.

Lemma session_Kids ms : forall d,
  Kids (Pages_data (session lib ms d))
  = Kids (Pages_data d) ++ (dictionary <$> created lib ms d).
Proof.
  induction ms as [| m ms IH]; intros d.
  - simpl. now rewrite app_nil_r.
  - cbn [session fold_left created]. fold (session lib ms (exec (invoke lib m) d)).
    rewrite IH, fmap_app, app_assoc. f_equal.
    destruct m as [o | o | n | | | name args | name r | name js | data | c |];
      try (match goal with
           | |- context [invoke lib ?m] =>
               pose proof (invoke_preserves_other _ (Pages_data_stable (Pages_data d)) m
                             eq_refl d eq_refl) as Hsame
           end;
           cbv beta in Hsame; rewrite Hsame; simpl; now rewrite app_nil_r).
    + destruct (addPage_effect o d) as (p & _ & Hp & _ & _ & HP & _).
      cbn [invoke]. rewrite Hp, HP. reflexivity.
    + destruct (continueOnNewPage_effect o d) as (p & Hp & HP).
      cbn [invoke]. rewrite Hp, HP. reflexivity.
Qed.

(** C10: in every document, after any sequence of method calls, [Count] of
    the page tree root equals the length of its [Kids]; [Kids] lists the
    dictionaries of the pages created so far, each once, in creation order;
    [addPage] appends the new page's dictionary and increments [Count]
    together, and no method that does not add a page changes either. *)
Theorem page_tree_Count_equals_Kids_length
    (opts : Options.t) (now : Z) (ms : list method) :
  exists d0,
    PDFDocument_new lib opts now = (Returned tt, d0)
    /\ let d := session lib ms d0 in
       let first := match page d0 with Some p => [p] | None => [] end in
       Count (Pages_data d) = Z.of_nat (length (Kids (Pages_data d)))
       /\ Kids (Pages_data d) = dictionary <$> (first ++ created lib ms d0)
       /\ NoDup (id <$> Kids (Pages_data d))
       /\ (forall o d1,
             exists p,
               page (exec (addPage lib o) d1) = Some p
               /\ Pages_data (exec (addPage lib o) d1)
                  = {| Count := Count (Pages_data d1) + 1;
                       Kids := Kids (Pages_data d1) ++ [dictionary p] |})
       /\ (forall m d1,
             adds_page m = false ->
             Pages_data (exec (invoke lib m) d1) = Pages_data d1).
Proof.
  destruct (PDFDocument_new_constructed opts now) as (d0 & E0 & _ & _ & _ & Hauto).
  exists d0. split; [exact E0 |]. intros d first.
  assert (page_tree_consistent d0 /\ Kids (Pages_data d0) = dictionary <$> first)
    as [H0 Hfirst].
  { subst first. unfold page_tree_consistent.
    destruct (Options.autoFirstPage opts) as [| | [|] | | | | | | | |];
      try (destruct Hauto as (p & _ & Hp & HP & Hid); rewrite Hp, HP;
           cbn [Count Kids length fmap list_fmap];
           repeat split; auto;
           first [apply NoDup_singleton | apply Forall_singleton; exact Hid]).
    destruct Hauto as (Hb & Hp & HP). rewrite Hp, HP. cbn.
    repeat split; auto; constructor. }
  assert (page_tree_consistent d) as (HC & HN & _).
  { apply (session_preserves page_tree_consistent); [| exact H0].
    apply invoke_preserves; [apply page_tree_stable | apply page_tree_addPage]. }
  split; [exact HC |]. split; [| split; [exact HN |]]; [| split].
  - subst d. now rewrite session_Kids, Hfirst, fmap_app.
  - intros o d1. destruct (addPage_effect o d1) as (p & _ & Hp & _ & _ & HP & _).
    exists p. split; [exact Hp | exact HP].
  - intros m d1 Hm.
    apply (invoke_preserves_other _ (Pages_data_stable (Pages_data d1)) m Hm d1 eq_refl).
Qed.

(** ** Named destinations *)

Lemma is_XYZ_other kind : kind <> JStr "XYZ" -> is_XYZ (Some kind) = false.
Proof.
  intros H. destruct kind; try reflexivity. simpl.
  case_bool_decide; [subst; contradiction | reflexivity].
Qed.

(** C6, as the code has it: a named destination of type ['XYZ'] added with a
    number as its Y coordinate is stored with the page height minus that
    number, so Y=100 on a page of height 792 is stored as 692; a destination
    of any other type is stored with its arguments as they were given. *)
Theorem XYZ_destination_stores_height_minus_Y
    (d : PDFDocument) (name : string) (p : PDFPage)
    (left : jsval) (top : Z) (rest : list jsval) :
  page d = Some p ->
  let args := JStr "XYZ" :: left :: JNum top :: rest in
  let d' := exec (addNamedDestination name args) d in
  result (addNamedDestination name args) d = Returned tt
  /\ Dests (Names_data d') !! name
     = Some (JArr (JRef (id (dictionary p)) :: JStr "XYZ" :: left
                   :: JNum (height p - top) :: rest))
  /\ (height p = 792 -> top = 100 ->
      Dests (Names_data d') !! name
      = Some (JArr (JRef (id (dictionary p)) :: JStr "XYZ" :: left :: JNum 692 :: rest)))
  /\ (forall kind others,
        kind <> JStr "XYZ" ->
        Dests (Names_data (exec (addNamedDestination name (kind :: others)) d)) !! name
        = Some (JArr (JRef (id (dictionary p)) :: kind :: others))).
Proof.
  intros Hp args d'.
  assert (addNamedDestination name args d
          = (Returned tt,
             set_Names_data
               {| Dests := PDFNameTree_add name
                             (JArr (JRef (id (dictionary p)) :: JStr "XYZ" :: left
                                    :: JNum (height p - top) :: rest))
                             (Dests (Names_data d));
                  EmbeddedFiles := EmbeddedFiles (Names_data d);
                  JavaScript := JavaScript (Names_data d) |} d)) as E.
  { unfold addNamedDestination, bind, gets, modify, ret. subst args. simpl.
    rewrite Hp. simpl. rewrite Hp. reflexivity. }
  assert (Dests (Names_data d') !! name
          = Some (JArr (JRef (id (dictionary p)) :: JStr "XYZ" :: left
                        :: JNum (height p - top) :: rest))) as Hstored.
  { subst d'. unfold exec. rewrite E. simpl. unfold PDFNameTree_add.
    apply lookup_insert_eq. }
  split; [unfold result; now rewrite E |]. split; [exact Hstored |]. split.
  - intros Hh Ht. rewrite Hstored, Hh, Ht. reflexivity.
  - intros kind others Hk.
    unfold exec, addNamedDestination, bind, gets, modify, ret.
    cbn [length Nat.eqb lookup list_lookup]. rewrite (is_XYZ_other kind Hk).
    simpl. rewrite Hp. simpl. unfold PDFNameTree_add. apply lookup_insert_eq.
Qed.

(** ** Invariants of the methods *)

(** What follows from an invariant of the three operations of the store. *)
Section Primitives.

Variable I : PDFDocument -> Prop.
Hypothesis K_ref : forall data, keeps I (ref data).
Hypothesis K_write : forall data, keeps I (_write data).
Hypothesis K_refEnd : forall r, keeps I (_refEnd lib r).

Lemma prim_run_call c : keeps I (run_call lib c).
Proof.
  destruct c as [data | data | r]; unfold run_call;
    (apply keeps_bind; [| intros ?; apply keeps_ret]); auto.
Qed.

Lemma prim_run_calls cs : keeps I (run_calls lib cs).
Proof. unfold run_calls. apply keeps_for_of, prim_run_call. Qed.

Lemma prim_PDFReference_end r : keeps I (PDFReference_end lib r).
Proof.
  unfold PDFReference_end.
  keeps_steps ltac:(first [apply K_write | apply K_refEnd]) fail.
Qed.

Lemma prim_flush_loop (pages : list PDFPage) :
  keeps I (for_of pages (fun page =>
             run_calls lib (endPageMarkings lib (Some page)) ;; PDFPage_end lib page)).
Proof.
  unfold PDFPage_end.
  keeps_steps ltac:(first [apply prim_run_calls | apply prim_PDFReference_end]) fail.
Qed.

Lemma prim_PDFPage_new o : keeps I (PDFPage_new o).
Proof. unfold PDFPage_new. keeps_steps ltac:(apply K_ref) fail. Qed.

End Primitives.

(** The methods that only read fields or assign the current page or the
    names. *)
Section FieldMethods.

Variable I : PDFDocument -> Prop.
Hypothesis F_page : forall d v, I d -> I (set_page v d).
Hypothesis F_Names_data : forall d v, I d -> I (set_Names_data v d).

Ltac names_field :=
  let d := fresh "d" in
  let H := fresh "H" in
  intros d H; cbv beta; apply F_Names_data, H.

Lemma field_switchToPage n : preserves I (switchToPage n).
Proof.
  unfold switchToPage.
  apply preserves_bind; [apply preserves_gets | intros buffer].
  apply preserves_bind; [apply preserves_gets | intros start].
  destruct (array_get buffer (n - start)) as [p |]; [| apply preserves_throw].
  apply preserves_bind; [| intros ?; apply preserves_ret].
  apply preserves_modify. intros d H. apply F_page, H.
Qed.

Lemma field_addNamedDestination name args : preserves I (addNamedDestination name args).
Proof.
  unfold addNamedDestination.
  apply preserves_bind.
  - destruct (_ && _); [| apply preserves_ret].
    apply preserves_bind; [apply preserves_gets | intros [p |]];
      [apply preserves_ret | apply preserves_throw].
  - intros args'. apply preserves_bind; [apply preserves_gets | intros [p |]];
      [| apply preserves_throw].
    apply preserves_modify. intros d H. apply F_Names_data, H.
Qed.

Lemma field_addNamedEmbeddedFile name r : keeps I (addNamedEmbeddedFile name r).
Proof. unfold addNamedEmbeddedFile. keeps_steps fail names_field. Qed.

Lemma field_addNamedJavaScript name js : keeps I (addNamedJavaScript name js).
Proof. unfold addNamedJavaScript. keeps_steps fail names_field. Qed.

Lemma field_invoke m :
  match m with
  | m_switchToPage _ | m_bufferedPageRange | m_addNamedDestination _ _
  | m_addNamedEmbeddedFile _ _ | m_addNamedJavaScript _ _ | m_addContent _ => True
  | _ => False
  end ->
  preserves I (invoke lib m).
Proof.
  destruct m as [o | o | n | | | name args | name r | name js | data | c |];
    intros Hm; try contradiction; unfold invoke.
  - apply preserves_bind; [apply field_switchToPage | intros ?; apply preserves_ret].
  - apply preserves_bind; [| intros ?; apply preserves_ret].
    apply returns_preserves, stable_bufferedPageRange.
  - apply field_addNamedDestination.
  - apply returns_preserves, field_addNamedEmbeddedFile.
  - apply returns_preserves, field_addNamedJavaScript.
  - apply stable_addContent.
Qed.

End FieldMethods.

(** Every method, from the invariance of the store operations, of the
    flush, of the creation of a page and of the assignments to single
    fields. *)
Section Methods.

Variable I : PDFDocument -> Prop.
Hypothesis K_ref : forall data, keeps I (ref data).
Hypothesis K_write : forall data, keeps I (_write data).
Hypothesis K_refEnd : forall r, keeps I (_refEnd lib r).
Hypothesis K_finalize : keeps I (_finalize lib).
Hypothesis K_flush : keeps I (flushPages lib).
Hypothesis K_create : forall o, keeps I (create_page o).
Hypothesis F_page : forall d v, I d -> I (set_page v d).
Hypothesis F_Names_data : forall d v, I d -> I (set_Names_data v d).
Hypothesis F_info : forall d v, I d -> I (set_info v d).
Hypothesis F_info_data : forall d v, I d -> I (set_info_data v d).
Hypothesis F_ended : forall d v, I d -> I (set_ended v d).

Ltac method_field :=
  let d := fresh "d" in
  let H := fresh "H" in
  intros d H; cbv beta;
  lazymatch goal with
  | |- I (set_info _ _) => apply F_info, H
  | |- I (set_info_data _ _) => apply F_info_data, H
  | |- I (set_ended _ _) => apply F_ended, H
  end.

Ltac method_lemmas :=
  first [ apply K_ref | apply K_flush | apply K_finalize
        | apply (prim_run_calls _ K_ref K_write K_refEnd)
        | apply (prim_PDFReference_end _ K_write K_refEnd) ].

Lemma meth_end : keeps I (end_ lib).
Proof.
  unfold end_, end_decision, end_sequence, end_info_entry, end_info, end_root, end_Pages,
    end_Names, PDFSecurity_end.
  keeps_steps method_lemmas method_field.
Qed.

Lemma meth_addPage o : keeps I (addPage lib o).
Proof. unfold addPage. keeps_steps ltac:(first [apply K_flush | apply K_create]) fail. Qed.

Lemma meth_continueOnNewPage o : keeps I (continueOnNewPage lib o).
Proof.
  unfold continueOnNewPage.
  keeps_steps ltac:(first [ apply meth_addPage
                          | apply (prim_run_calls _ K_ref K_write K_refEnd) ]) fail.
Qed.

Lemma meth_invoke m : preserves I (invoke lib m).
Proof.
  destruct m as [o | o | n | | | name args | name r | name js | data | c |];
    try (apply (field_invoke _ F_page F_Names_data); exact Logic.I); unfold invoke.
  - apply returns_preserves, meth_addPage.
  - apply returns_preserves, meth_continueOnNewPage.
  - apply returns_preserves, K_flush.
  - apply returns_preserves, (prim_run_call _ K_ref K_write K_refEnd).
  - apply preserves_bind; [| intros ?; apply preserves_ret].
    apply returns_preserves, meth_end.
Qed.

Lemma meth_session ms d : I d -> I (session lib ms d).
Proof. apply session_preserves, meth_invoke. Qed.

Hypothesis F_root : forall d v, I d -> I (set_root v d).
Hypothesis F_root_data : forall d v, I d -> I (set_root_data v d).
Hypothesis F_security : forall d v, I d -> I (set_security v d).

Lemma meth_construct opts : keeps I (construct lib opts).
Proof.
  unfold construct, PDFSecurity_create.
  keeps_steps
    ltac:(first [ apply K_ref | apply K_write | apply meth_addPage
                | apply (prim_run_calls _ K_ref K_write K_refEnd) ])
    ltac:(let d := fresh "d" in
          let H := fresh "H" in
          intros d H; cbv beta;
          lazymatch goal with
          | |- I (set_root _ _) => apply F_root, H
          | |- I (set_root_data _ _) => apply F_root_data, H
          | |- I (set_security _ _) => apply F_security, H
          | |- I (set_page _ _) => apply F_page, H
          end).
Qed.

End Methods.

(** ** Byte accounting *)

Lemma total_bytes_app l1 l2 : total_bytes (l1 ++ l2) = total_bytes l1 + total_bytes l2.
Proof.
  induction l1 as [| [b |] l1 IH]; simpl; [reflexivity | rewrite IH; lia | exact IH].
Qed.

Lemma total_bytes_chunks (ds : list write_arg) :
  total_bytes (map (fun data => Chunk (written data)) ds) = total_length ds.
Proof. induction ds as [| a ds IH]; simpl; [reflexivity | now rewrite IH]. Qed.

Lemma bytes_after_writes ds d : bytes_accounted d -> bytes_accounted (after_writes ds d).
Proof.
  unfold bytes_accounted, after_writes. simpl. intros ->.
  now rewrite total_bytes_app, total_bytes_chunks.
Qed.

Lemma bytes_ref data : keeps bytes_accounted (ref data).
Proof. intros d H. eexists _, _. split; [apply ref_eq | exact H]. Qed.

Lemma bytes_write data : keeps bytes_accounted (_write data).
Proof.
  intros d H. eexists _, _. split; [apply _write_after | now apply bytes_after_writes].
Qed.

Lemma bytes_finalize : keeps bytes_accounted (_finalize lib).
Proof.
  intros d H. eexists _, _. split; [apply _finalize_eq |].
  apply (bytes_after_writes (map Str (finalize_lines lib d))) in H.
  unfold bytes_accounted in *. cbn [_offset pushed set_pushed].
  rewrite total_bytes_app. change (total_bytes [EndOfStream]) with 0.
  rewrite Z.add_0_r. exact H.
Qed.

Lemma bytes_refEnd r : keeps bytes_accounted (_refEnd lib r).
Proof.
  unfold _refEnd.
  keeps_steps ltac:(apply bytes_finalize) ltac:(let d := fresh in let H := fresh in
                                                 intros d H; exact H).
Qed.

Ltac bytes_field :=
  let d := fresh "d" in
  let H := fresh "H" in
  intros d H; exact H.

Lemma bytes_flushPages : keeps bytes_accounted (flushPages lib).
Proof.
  unfold flushPages, PDFPage_end.
  keeps_steps
    ltac:(first [ apply (prim_run_calls _ bytes_ref bytes_write bytes_refEnd)
                | apply (prim_PDFReference_end _ bytes_write bytes_refEnd) ])
    bytes_field.
Qed.

Lemma bytes_create_page o : keeps bytes_accounted (create_page o).
Proof.
  unfold create_page.
  keeps_steps ltac:(apply (prim_PDFPage_new _ bytes_ref)) bytes_field.
Qed.

Lemma bytes_session ms d : bytes_accounted d -> bytes_accounted (session lib ms d).
Proof.
  apply meth_session;
    first [ apply bytes_ref | apply bytes_write | apply bytes_refEnd | apply bytes_finalize
          | apply bytes_flushPages | apply bytes_create_page | (intros ? ? H; exact H) ].
Qed.

Lemma bytes_constructed opts now :
  exists d0, PDFDocument_new lib opts now = (Returned tt, d0) /\ bytes_accounted d0.
Proof.
  destruct (meth_construct bytes_accounted bytes_ref bytes_write bytes_refEnd
              bytes_flushPages bytes_create_page
              ltac:(intros ? ? H; exact H) ltac:(intros ? ? H; exact H)
              ltac:(intros ? ? H; exact H) ltac:(intros ? ? H; exact H)
              opts (fresh lib opts now) eq_refl)
    as ([] & d0 & E & H).
  exists d0. split; [exact E | exact H].
Qed.

(** X1: in a document made by the constructor, after any sequence of method
    calls, [_offset] is the number of bytes handed to [push]: [_write] is
    the only place that pushes bytes, and it adds the length of each chunk
    it pushes. *)
Theorem offset_counts_the_bytes_pushed (opts : Options.t) (now : Z) (ms : list method) :
  exists d0,
    PDFDocument_new lib opts now = (Returned tt, d0)
    /\ _offset (session lib ms d0) = total_bytes (pushed (session lib ms d0)).
Proof.
  destruct (bytes_constructed opts now) as (d0 & E & H).
  exists d0. split; [exact E |]. now apply bytes_session.
Qed.

(** X2: when [_finalize] runs in such a document, the number it writes after
    [startxref] is the number of bytes pushed before the line [xref], that
    is the position of the cross-reference table in the stream; the stream
    ends with [%%EOF] and is then closed. *)
Theorem startxref_is_the_position_of_xref (opts : Options.t) (now : Z) (ms : list method) :
  exists d0,
    PDFDocument_new lib opts now = (Returned tt, d0)
    /\ let d := session lib ms d0 in
       exists table,
         pushed (exec (_finalize lib) d)
         = pushed d
           ++ [Chunk (written (Str "xref"))] ++ table
           ++ [ Chunk (written (Str "startxref"));
                Chunk (written (Str (pretty (total_bytes (pushed d)))));
                Chunk (written (Str "%%EOF"));
                EndOfStream ].
Proof.
  destruct (bytes_constructed opts now) as (d0 & E & H).
  exists d0. split; [exact E |]. intros d.
  assert (bytes_accounted d) as Hd by now apply bytes_session.
  exists (map (fun l => Chunk (written (Str l)))
            ([ "0 " +:+ pretty (Z.of_nat (length (_offsets d)) + 1) ] ++ xref_table d
             ++ [ "trailer"; PDFObject_convert lib (trailer d) ])).
  unfold exec. rewrite _finalize_eq. cbn [snd pushed set_pushed after_writes].
  unfold finalize_lines. rewrite <- Hd.
  unfold after_writes. cbn [pushed set_offset set_pushed].
  rewrite map_map, !map_app, <- !app_assoc. reflexivity.
Qed.

(** ** The outstanding counter *)

Lemma waiting_run_call c d :
  _waiting (exec (run_call lib c) d)
  = _waiting d + match c with
                 | call_ref _ => 1
                 | call_write _ => 0
                 | call_refEnd _ => -1
                 end.
Proof.
  destruct c as [data | data | r].
  - unfold exec, run_call. rewrite (bind_Returned _ _ _ _ _ (ref_eq data d)). reflexivity.
  - unfold exec, run_call. rewrite (bind_Returned _ _ _ _ _ (_write_eq data d)).
    simpl. lia.
  - rewrite exec_run_call_refEnd, exec_refEnd.
    destruct ((_waiting d - 1 =? 0) && _ended d).
    + rewrite waiting_set_ended.
      destruct (finalize_keeps_counter (recorded r d)) as (-> & _).
      rewrite waiting_recorded. lia.
    + rewrite waiting_recorded. lia.
Qed.

(** X3: along any run of [ref], [_write] and [_refEnd] calls the outstanding
    counter moves by the number of allocations minus the number of ended
    references, whether or not the file is completed on the way; a document
    whose counter started at zero therefore has as many references
    outstanding as were allocated and not ended. *)
Theorem counter_is_allocations_minus_completions (cs : list store_call) (d : PDFDocument) :
  _waiting (exec (run_calls lib cs) d)
  = _waiting d + Z.of_nat (count_ref cs) - Z.of_nat (count_refEnd cs).
Proof.
  revert d. induction cs as [| c cs IH]; intros d.
  - unfold exec, run_calls. simpl. lia.
  - rewrite exec_run_calls_cons, IH, waiting_run_call.
    destruct c; cbn [count_ref count_refEnd]; lia.
Qed.

Section Tally.

Context {U : Type} (view : PDFDocument -> U).
Hypothesis V_offsets : forall d v, view (set_offsets v d) = view d.
Hypothesis V_waiting : forall d v, view (set_waiting v d) = view d.
Hypothesis V_offset : forall d v, view (set_offset v d) = view d.
Hypothesis V_pushed : forall d v, view (set_pushed v d) = view d.

Lemma tally_ref w k u data :
  returns (tally view w k u) (ref data) (fun _ => tally view (w + 1) k u).
Proof.
  intros d (Hw & Hb & Hv). eexists _, _. split; [apply ref_eq |].
  split; [simpl; lia |]. split; [exact Hb |]. now rewrite V_waiting, V_offsets.
Qed.

Lemma tally_write w k u data :
  returns (tally view w k u) (_write data) (fun _ => tally view w k u).
Proof.
  intros d (Hw & Hb & Hv). eexists _, _. split; [apply _write_eq |].
  split; [exact Hw |]. split; [| now rewrite V_offset, V_pushed].
  destruct Hb as [He Hc]. split; [exact He |].
  unfold completions in *. simpl. rewrite count_EndOfStream_app, Hc. simpl. lia.
Qed.

Lemma tally_refEnd w k u r :
  returns (tally view w k u) (_refEnd lib r) (fun _ => tally view (w - 1) k u).
Proof.
  intros d (Hw & [He Hc] & Hv). pose proof (_refEnd_eq r d) as E. cbv zeta in E.
  rewrite He, andb_false_r in E. eexists _, _. split; [exact E |].
  split; [simpl; lia |]. split; [split; [exact He | exact Hc] |].
  now rewrite V_waiting, V_offsets.
Qed.

Lemma tally_ret {A : Type} w k u (a : A) :
  returns (tally view w k u) (ret a) (fun _ => tally view w k u).
Proof. apply returns_ret. auto. Qed.

Lemma tally_shift {A : Type} w w' k u (m : M A) :
  returns (tally view w k u) m (fun _ => tally view w' k u) ->
  forall z, z = w' -> returns (tally view w k u) m (fun _ => tally view z k u).
Proof. intros H z ->. exact H. Qed.

Lemma tally_run_calls cs : forall w k u,
  returns (tally view w k u) (run_calls lib cs) (fun _ => tally view (w + net cs) k u).
Proof.
  unfold run_calls. induction cs as [| c cs IH]; intros w k u.
  - apply returns_ret. intros d H. unfold net. simpl. now rewrite Z.add_0_r.
  - cbn [for_of].
    assert (forall z, z = w + net (c :: cs) ->
            returns (tally view w k u)
              (run_call lib c ;; for_of cs (run_call lib))
              (fun _ => tally view z k u)) as H; [| now apply H].
    intros z Hz.
    destruct c as [data | data | r]; unfold run_call at 1; unfold net in *;
      cbn [count_ref count_refEnd] in Hz.
    + eapply returns_bind; [eapply returns_bind; [apply tally_ref | intros ?; apply tally_ret] |].
      intros ?. refine (tally_shift _ _ _ _ _ (IH (w + 1) k u) z _). lia.
    + eapply returns_bind; [eapply returns_bind; [apply tally_write | intros ?; apply tally_ret] |].
      intros ?. refine (tally_shift _ _ _ _ _ (IH (w) k u) z _). lia.
    + eapply returns_bind; [eapply returns_bind; [apply tally_refEnd | intros ?; apply tally_ret] |].
      intros ?. refine (tally_shift _ _ _ _ _ (IH (w - 1) k u) z _). lia.
Qed.

Lemma tally_PDFReference_end w k u r :
  returns (tally view w k u) (PDFReference_end lib r) (fun _ => tally view (w - 1) k u).
Proof.
  unfold PDFReference_end.
  apply returns_bind with (R := fun _ => tally view w k u);
    [apply returns_gets; intros d H; exact H | intros o].
  eapply returns_bind; [apply tally_write | intros ?].
  eapply returns_bind; [apply tally_write | intros ?].
  eapply returns_bind; [apply tally_write | intros ?].
  eapply returns_bind; [apply tally_refEnd | intros ?]. apply tally_ret.
Qed.

Lemma tally_flush_loop (pages : list PDFPage) :
  (forall p, net (endPageMarkings lib p) = 0) ->
  forall w k u,
    returns (tally view w k u)
      (for_of pages (fun page =>
         run_calls lib (endPageMarkings lib (Some page)) ;; PDFPage_end lib page))
      (fun _ => tally view (w - 2 * Z.of_nat (length pages)) k u).
Proof.
  intros Hnet. induction pages as [| p pages IH]; intros w k u.
  - apply returns_ret. intros d H. simpl. now rewrite Z.sub_0_r.
  - cbn [for_of]. apply (tally_shift _ (w - 2 - 2 * Z.of_nat (length pages)));
      [| cbn [length]; lia].
    eapply returns_bind; [| intros ?; apply IH].
    eapply returns_bind; [apply tally_run_calls | intros ?].
    rewrite Hnet, Z.add_0_r. unfold PDFPage_end.
    apply (tally_shift _ (w - 1 - 1)); [| lia].
    eapply returns_bind; [apply tally_PDFReference_end | intros ?].
    apply tally_PDFReference_end.
Qed.

Lemma tally_modify f w k u u' :
  (forall d, _waiting (f d) = _waiting d) ->
  (forall d, _ended (f d) = _ended d) ->
  (forall d, pushed (f d) = pushed d) ->
  (forall d, view d = u -> view (f d) = u') ->
  returns (tally view w k u) (modify f) (fun _ => tally view w k u').
Proof.
  intros Hw He Hp Hv. apply returns_modify. intros d (Ew & [Ee Ec] & Ev).
  split; [now rewrite Hw |]. split; [| now apply Hv].
  split; [now rewrite He |]. unfold completions in *. now rewrite Hp.
Qed.

Lemma tally_gets {A : Type} (f : PDFDocument -> A) w k u :
  returns (tally view w k u) (gets f) (fun _ => tally view w k u).
Proof. apply returns_gets. auto. Qed.

Lemma tally_gets_fact {A : Type} (f : PDFDocument -> A) (fact : A -> Prop) w k u :
  (forall d, tally view w k u d -> fact (f d)) ->
  returns (tally view w k u) (gets f) (fun a d => fact a /\ tally view w k u d).
Proof. intros H. apply returns_gets. intros d Hd. split; [apply H, Hd | exact Hd]. Qed.

Lemma tally_PDFPage_new o w k u :
  returns (tally view w k u) (PDFPage_new o) (fun _ => tally view (w + 2) k u).
Proof.
  unfold PDFPage_new.
  eapply returns_bind; [apply tally_ref | intros content].
  eapply returns_bind; [apply tally_gets | intros parent].
  eapply returns_bind; [apply tally_ref | intros dictionary].
  apply returns_ret. intros d H. replace (w + 2) with (w + 1 + 1) by lia. exact H.
Qed.

Lemma tally_end_optional {A : Type} (o : option A) (f : A -> M unit) w k u :
  (forall a, returns (tally view w k u) (f a) (fun _ => tally view (w - 1) k u)) ->
  returns (tally view w k u)
    (match o with Some a => f a | None => ret tt end)
    (fun _ => tally view (w - present o) k u).
Proof.
  intros H. destruct o as [a |]; cbn [present]; [apply H |].
  apply returns_ret. intros d Hd. now rewrite Z.sub_0_r.
Qed.

End Tally.

(** ** What the document owes *)

Tactic Notation "tally_use" uconstr(l) :=
  apply l; first [assumption | intros; reflexivity].
Ltac tally_same :=
  apply tally_modify; [intros; reflexivity .. | intros ? Hsame; exact Hsame].

Lemma dues_eq d n vp sec :
  dues d = (n, vp, sec)
  <-> length (_pageBuffer d) = n /\ ViewerPreferences (_root_data d) = vp /\ _security d = sec.
Proof.
  unfold dues. split.
  - intros H. injection H as H1 H2 H3. auto.
  - intros (-> & -> & ->). reflexivity.
Qed.

Lemma tally_flushPages w k n vp sec :
  (forall p, net (endPageMarkings lib p) = 0) ->
  returns (tally dues w k (n, vp, sec)) (flushPages lib)
    (fun _ => tally dues (w - 2 * Z.of_nat n) k (0%nat, vp, sec)).
Proof.
  intros Hnet. unfold flushPages.
  eapply returns_bind.
  { apply (tally_gets_fact dues _pageBuffer (fun a => length a = n)).
    intros d (_ & _ & Hv). apply dues_eq in Hv. tauto. }
  intros pages. apply returns_assume. intros Hlen. subst n.
  eapply returns_bind.
  { apply tally_modify with (u' := (0%nat, vp, sec)); try (intros; reflexivity).
    intros d Hv. apply dues_eq in Hv. apply dues_eq. tauto. }
  intros ?. eapply returns_bind; [tally_same | intros ?].
  tally_use tally_flush_loop.
Qed.

Lemma tally_create_page o w k n vp sec :
  returns (tally dues w k (n, vp, sec)) (create_page o)
    (fun _ => tally dues (w + 2) k (S n, vp, sec)).
Proof.
  unfold create_page.
  eapply returns_bind; [tally_use tally_PDFPage_new | intros p].
  eapply returns_bind; [tally_same | intros ?].
  eapply returns_bind.
  { apply tally_modify with (u' := (S n, vp, sec)); try (intros; reflexivity).
    intros d Hv. apply dues_eq in Hv. apply dues_eq.
    cbn [_pageBuffer set_pageBuffer _root_data _security]. rewrite length_app.
    cbn [length]. destruct Hv as (<- & Hvp & Hsec). repeat split; [lia | exact Hvp | exact Hsec]. }
  intros ?. eapply returns_bind; [tally_same | intros ?].
  eapply returns_bind; [tally_same | intros ?].
  eapply returns_bind; [tally_same | intros ?].
  eapply returns_bind; [tally_same | intros ?].
  apply tally_ret.
Qed.

Lemma tally_addPage o w k n vp sec :
  (forall p, net (endPageMarkings lib p) = 0) ->
  returns (tally dues w k (n, vp, sec)) (addPage lib o)
    (fun _ d => exists n',
       tally dues (w - 2 * Z.of_nat n + 2 * Z.of_nat n') k (n', vp, sec) d).
Proof.
  intros Hnet. unfold addPage.
  apply returns_bind with (R := fun _ => tally dues w k (n, vp, sec)).
  { destruct o; [apply tally_ret | apply tally_gets]. }
  intros opts.
  apply returns_bind with (R := fun _ => tally dues w k (n, vp, sec)); [apply tally_gets |].
  intros [|]; cbn [negb].
  - eapply returns_bind; [apply tally_ret | intros ?].
    eapply returns_post; [apply tally_create_page |].
    intros ? d H. exists (S n).
    replace (w - 2 * Z.of_nat n + 2 * Z.of_nat (S n)) with (w + 2) by lia. exact H.
  - eapply returns_bind; [apply tally_flushPages, Hnet | intros ?].
    eapply returns_post; [apply tally_create_page |].
    intros ? d H. exists 1%nat.
    replace (w - 2 * Z.of_nat n + 2 * Z.of_nat 1) with (w - 2 * Z.of_nat n + 2) by lia.
    exact H.
Qed.

Lemma tally_continueOnNewPage o w k n vp sec :
  (forall p, net (endPageMarkings lib p) = 0) ->
  net (initPageMarkings lib) = 0 ->
  returns (tally dues w k (n, vp, sec)) (continueOnNewPage lib o)
    (fun _ d => exists n',
       tally dues (w - 2 * Z.of_nat n + 2 * Z.of_nat n') k (n', vp, sec) d).
Proof.
  intros Hnet Hinit. unfold continueOnNewPage.
  apply returns_bind with (R := fun _ => tally dues w k (n, vp, sec)); [apply tally_gets |].
  intros current.
  apply returns_bind with (R := fun _ => tally dues w k (n, vp, sec)).
  { eapply tally_shift; [tally_use tally_run_calls | rewrite Hnet; lia]. }
  intros ?. eapply returns_bind; [apply tally_addPage, Hnet | intros ?].
  apply returns_exists. intros n'.
  eapply returns_post; [tally_use tally_run_calls |].
  intros ? d H. exists n'. rewrite Hinit, Z.add_0_r in H. exact H.
Qed.

Lemma settled_tally d :
  settled lib d
  <-> exists n vp sec,
        tally dues (3 + present vp + present sec + 2 * Z.of_nat n + net (initMixins lib)) 0
          (n, vp, sec) d.
Proof.
  unfold settled, owed, tally. split.
  - intros [Hw Hb]. exists (length (_pageBuffer d)), (ViewerPreferences (_root_data d)),
      (_security d). repeat split; [exact Hw | apply Hb | apply Hb].
  - intros (n & vp & sec & Hw & Hb & Hv). apply dues_eq in Hv.
    destruct Hv as (<- & <- & <-). split; [exact Hw | exact Hb].
Qed.

Lemma settled_returns {A : Type} (m : M A) :
  (forall w n vp sec,
     returns (tally dues w 0 (n, vp, sec)) m
       (fun _ d => exists n',
          tally dues (w - 2 * Z.of_nat n + 2 * Z.of_nat n') 0 (n', vp, sec) d)) ->
  keeps (settled lib) m.
Proof.
  intros H d Hd. apply settled_tally in Hd. destruct Hd as (n & vp & sec & Hd).
  destruct (H _ _ _ _ d Hd) as (a & d' & E & n' & Hd').
  exists a, d'. split; [exact E |]. apply settled_tally. exists n', vp, sec.
  replace (3 + present vp + present sec + 2 * Z.of_nat n' + net (initMixins lib))
    with (3 + present vp + present sec + 2 * Z.of_nat n + net (initMixins lib)
          - 2 * Z.of_nat n + 2 * Z.of_nat n') by lia.
  exact Hd'.
Qed.

Lemma settled_invoke m :
  responsible lib -> user_method m = true -> preserves (settled lib) (invoke lib m).
Proof.
  intros (Hnet & Hinit & _) Hm.
  destruct m as [o | o | n | | | name args | name r | name js | data | c |];
    try discriminate;
    try (apply field_invoke; [intros ? ? H; exact H | intros ? ? H; exact H | exact I]).
  - apply returns_preserves, settled_returns. intros. now apply tally_addPage.
  - apply returns_preserves, settled_returns. intros. now apply tally_continueOnNewPage.
  - apply returns_preserves, settled_returns. intros w n vp sec.
    eapply returns_post; [apply tally_flushPages, Hnet |].
    intros ? d H. exists 0%nat.
    replace (w - 2 * Z.of_nat n + 2 * Z.of_nat 0) with (w - 2 * Z.of_nat n) by lia. exact H.
Qed.

Lemma settled_session ms d :
  responsible lib -> forallb user_method ms = true ->
  settled lib d -> settled lib (session lib ms d).
Proof.
  intros Hr. revert d. induction ms as [| m ms IH]; intros d Hms Hd; [exact Hd |].
  cbn [forallb] in Hms. apply andb_true_iff in Hms. destruct Hms as [Hm Hms].
  cbn [session fold_left]. apply (IH _ Hms). now apply settled_invoke.
Qed.

Lemma tally_settled w n vp sec d :
  w = 3 + present vp + present sec + 2 * Z.of_nat n + net (initMixins lib) ->
  tally dues w 0 (n, vp, sec) d -> settled lib d.
Proof. intros -> H. apply settled_tally. eauto. Qed.

Lemma tally_PDFSecurity_create opts w k n vp :
  returns (tally dues w k (n, vp, None)) (PDFSecurity_create opts)
    (fun sec => tally dues (w + present sec) k (n, vp, None)).
Proof.
  unfold PDFSecurity_create. destruct (Options.password opts).
  - eapply returns_bind; [tally_use tally_ref | intros r].
    apply returns_ret. intros d H. exact H.
  - apply returns_ret. intros d H. cbn [present]. now rewrite Z.add_0_r.
Qed.

Lemma settled_construct opts :
  Options.autoFirstPage opts = JBool false \/ (forall p, net (endPageMarkings lib p) = 0) ->
  returns (tally dues 0 0 (0%nat, None, None)) (construct lib opts) (fun _ => settled lib).
Proof.
  intros Hcase. unfold construct.
  eapply returns_bind; [tally_use tally_ref | intros pagesRef].
  eapply returns_bind; [tally_use tally_ref | intros namesRef].
  eapply returns_bind; [tally_use tally_ref | intros root].
  eapply returns_bind; [tally_same | intros ?].
  eapply returns_bind.
  { apply tally_modify with (u' := (0%nat, @None PDFReference, @None PDFSecurity.t));
      try (intros; reflexivity).
    intros d Hv. apply dues_eq in Hv. apply dues_eq. cbn. tauto. }
  intros ?.
  apply returns_bind with (R := fun _ => tally dues 3 0 (0%nat, None, None)).
  { destruct (Options.lang opts) as [l |]; [| apply tally_ret].
    destruct (bool_decide (l = EmptyString)); [apply tally_ret |].
    apply tally_modify; try (intros; reflexivity).
    intros d Hv. apply dues_eq in Hv. apply dues_eq. cbn. tauto. }
  intros ?.
  eapply returns_bind; [tally_same | intros ?].
  eapply returns_bind; [tally_use tally_run_calls | intros ?].
  apply returns_bind
    with (R := fun _ d => exists vp,
                 tally dues (3 + net (initMixins lib) + present vp) 0 (0%nat, vp, None) d).
  { destruct (Options.displayTitle opts).
    - eapply returns_bind; [tally_use tally_ref | intros vp].
      eapply returns_post.
      { apply tally_modify with (u' := (0%nat, Some vp, @None PDFSecurity.t));
          try (intros; reflexivity).
        intros d Hv. apply dues_eq in Hv. apply dues_eq. cbn. tauto. }
      intros ? d H. exists (Some vp). exact H.
    - apply returns_ret. intros d H. exists None. cbn [present].
      now rewrite Z.add_0_r. }
  intros ?. apply returns_exists. intros vp.
  eapply returns_bind; [apply tally_PDFSecurity_create | intros sec].
  eapply returns_bind.
  { apply tally_modify with (u' := (0%nat, vp, sec)); try (intros; reflexivity).
    intros d Hv. apply dues_eq in Hv. apply dues_eq. cbn. tauto. }
  intros ?.
  eapply returns_bind; [apply tally_gets | intros v].
  eapply returns_bind; [tally_use tally_write | intros ?].
  eapply returns_bind; [tally_use tally_write | intros ?].
  assert (returns
            (tally dues (3 + net (initMixins lib) + present vp + present sec) 0
               (0%nat, vp, sec))
            (ret tt) (fun _ => settled lib)) as Hret.
  { apply returns_ret. intros d. apply tally_settled. lia. }
  destruct Hcase as [-> | Hnet]; [exact Hret |].
  assert (returns
            (tally dues (3 + net (initMixins lib) + present vp + present sec) 0
               (0%nat, vp, sec))
            (addPage lib None) (fun _ => settled lib)) as Hadd.
  { eapply returns_post; [apply tally_addPage, Hnet |].
    intros ? d [n' H]. revert H. apply tally_settled. lia. }
  destruct (Options.autoFirstPage opts); try exact Hadd.
  match goal with b : bool |- _ => destruct b end; [exact Hadd | exact Hret].
Qed.

Lemma settled_new opts now :
  Options.autoFirstPage opts = JBool false \/ (forall p, net (endPageMarkings lib p) = 0) ->
  exists d0, PDFDocument_new lib opts now = (Returned tt, d0) /\ settled lib d0.
Proof.
  intros Hnet.
  destruct (settled_construct opts Hnet (fresh lib opts now)) as ([] & d0 & E & H).
  { repeat split. }
  exists d0. split; [exact E | exact H].
Qed.

Lemma tally_end_info_entry kv w k u :
  returns (tally dues w k u) (end_info_entry lib kv) (fun _ => tally dues w k u).
Proof.
  unfold end_info_entry. eapply tally_shift; [| symmetry; apply (Z.add_simpl_r w 1)].
  eapply returns_bind; [tally_use tally_ref | intros entry].
  eapply returns_bind; [tally_use tally_PDFReference_end | intros ?].
  tally_same.
Qed.

Lemma tally_end_sequence w n vp sec :
  responsible lib ->
  w = 3 + present vp + present sec + 2 * Z.of_nat n + net (initMixins lib) ->
  returns (tally dues w 0 (n, vp, sec)) (end_sequence lib)
    (fun _ => tally dues 0 0 (0%nat, vp, sec)).
Proof.
  intros (Hnet & _ & Hsum) Hw. unfold end_sequence.
  set (s := if subset lib then net (endSubset lib) else 0) in Hsum.
  assert (forall w', returns (tally dues w' 0 (0%nat, vp, sec))
            (if subset lib then run_calls lib (endSubset lib) else ret tt)
            (fun _ => tally dues (w' + s) 0 (0%nat, vp, sec))) as Hsub.
  { intros w'. subst s. destruct (subset lib); [tally_use tally_run_calls |].
    apply returns_ret. intros d H. now rewrite Z.add_0_r. }
  eapply returns_bind; [apply tally_flushPages, Hnet | intros ?].
  eapply tally_shift.
  - eapply returns_bind; [tally_use tally_ref | intros r].
    eapply returns_bind; [tally_same | intros ?].
    eapply returns_bind; [tally_same | intros ?].
    eapply returns_bind; [apply tally_gets | intros entries].
    eapply returns_bind;
      [apply returns_for_of; intros kv _; apply tally_end_info_entry | intros ?].
    eapply returns_bind.
    { unfold end_info. eapply returns_bind; [apply tally_gets | intros ?].
      tally_use tally_PDFReference_end. }
    intros ?.
    eapply returns_bind; [tally_use tally_run_calls | intros ?].
    eapply returns_bind; [tally_use tally_run_calls | intros ?].
    eapply returns_bind; [tally_use tally_run_calls | intros ?].
    eapply returns_bind; [apply Hsub | intros ?].
    eapply returns_bind; [tally_use tally_run_calls | intros ?].
    eapply returns_bind.
    { unfold end_root. eapply returns_bind; [apply tally_gets | intros ?].
      eapply returns_bind; [apply tally_gets | intros ?].
      tally_use tally_PDFReference_end. }
    intros ?.
    eapply returns_bind.
    { unfold end_Pages. eapply returns_bind; [apply tally_gets | intros ?].
      eapply returns_bind; [apply tally_gets | intros ?].
      tally_use tally_PDFReference_end. }
    intros ?.
    eapply returns_bind.
    { unfold end_Names. eapply returns_bind; [apply tally_gets | intros ?].
      eapply returns_bind; [apply tally_gets | intros ?].
      tally_use tally_PDFReference_end. }
    intros ?.
    eapply returns_bind; [tally_use tally_run_calls | intros ?].
    eapply returns_bind.
    { apply (tally_gets_fact dues _root_data (fun c => ViewerPreferences c = vp)).
      intros d (_ & _ & Hv). apply dues_eq in Hv. tauto. }
    intros c. apply returns_assume. intros Hc. rewrite Hc.
    eapply returns_bind.
    { apply tally_end_optional. intros ?. tally_use tally_PDFReference_end. }
    intros ?.
    eapply returns_bind.
    { apply (tally_gets_fact dues _security (fun s => s = sec)).
      intros d (_ & _ & Hv). apply dues_eq in Hv. tauto. }
    intros s0. apply returns_assume. intros ->.
    apply tally_end_optional. intros ?. unfold PDFSecurity_end.
    tally_use tally_PDFReference_end.
  - lia.
Qed.

Lemma settled_end d :
  responsible lib -> settled lib d ->
  exists d', end_ lib d = (Returned push_null, d')
    /\ _waiting d' = 0 /\ _ended d' = false /\ completions d' = 1%nat
    /\ _pageBuffer d' = [].
Proof.
  intros Hr Hd. apply settled_tally in Hd. destruct Hd as (n & vp & sec & Hd).
  destruct (tally_end_sequence _ n vp sec Hr eq_refl d Hd)
    as ([] & d1 & E & Hw & [He Hc] & Hv).
  exists (exec (_finalize lib) d1).
  destruct (finalize_keeps_counter d1) as (Fw & Fe & _ & Fo).
  split.
  - unfold end_. rewrite (bind_Returned (end_sequence lib) (fun _ => end_decision lib) d tt d1 E).
    unfold end_decision.
    rewrite (bind_Returned (gets _waiting) _ d1 (_waiting d1) d1 eq_refl).
    rewrite Hw. cbn [Z.eqb].
    rewrite (bind_Returned _ _ _ _ _ (_finalize_eq d1)).
    unfold exec. rewrite _finalize_eq. reflexivity.
  - rewrite Fw, Fe, completions_finalize, Hc.
    repeat split; [exact Hw | exact He |].
    apply dues_eq in Hv. destruct Hv as (Hlen & _).
    assert (_pageBuffer (exec (_finalize lib) d1) = _pageBuffer d1) as ->
      by (unfold exec; rewrite _finalize_eq; reflexivity).
    now apply nil_length_inv.
Qed.

(** X5: when the collaborators end the references they allocate, [end()]
    called after any sequence of user methods completes the file at once: it
    returns what [_finalize] returns, the outstanding counter is zero, the
    page buffer is empty and the end of the stream has been pushed exactly
    once, without [_ended] ever being set. *)
Theorem end_completes_at_once_for_responsible_collaborators (opts : Options.t) (now : Z)
    (ms : list method) :
  responsible lib -> forallb user_method ms = true ->
  exists d0, PDFDocument_new lib opts now = (Returned tt, d0)
    /\ exists d', end_ lib (session lib ms d0) = (Returned push_null, d')
         /\ _waiting d' = 0 /\ _ended d' = false /\ completions d' = 1%nat
         /\ _pageBuffer d' = [].
Proof.
  intros Hr Hms. destruct (settled_new opts now (or_intror (proj1 Hr))) as (d0 & E & H0).
  exists d0. split; [exact E |].
  apply settled_end; [exact Hr |]. now apply settled_session.
Qed.

(** ** Page numbers *)

Lemma numbered_store_stable all : store_stable (numbered all).
Proof. constructor; intros; assumption. Qed.

Lemma numbered_outside all d d' :
  outside_store d' = outside_store d -> numbered all d -> numbered all d'.
Proof.
  unfold outside_store. intros H (fl & Hall & Hs & Hc).
  injection H as _ _ _ Hb Hst _ _ HP _ _ _ _ _ _ _ _ _.
  exists fl. now rewrite Hb, Hst, HP.
Qed.

Lemma numbered_flushPages all : keeps (numbered all) (flushPages lib).
Proof.
  intros d (fl & Hall & Hs & Hc). destruct (flushPages_spec d) as (E & Hu & _).
  exists tt, (exec (flushPages lib) d). split; [exact E |].
  unfold outside_store in Hu. simpl in Hu.
  injection Hu as _ _ _ Hb Hst _ _ HP _ _ _ _ _ _ _ _ _.
  exists all. rewrite Hb, Hst, HP, app_nil_r. repeat split; [| exact Hc].
  rewrite Hall, length_app. lia.
Qed.

Lemma numbered_addPage all o d :
  numbered all d ->
  exists p, page (exec (addPage lib o) d) = Some p
            /\ numbered (all ++ [p]) (exec (addPage lib o) d).
Proof.
  intros (fl & Hall & Hs & Hc).
  destruct (addPage_effect o d) as (p & _ & Hp & Hb & Hst & HP & _).
  cbv zeta in Hb, Hst. exists p. split; [exact Hp |].
  destruct (Options.bufferPages (options d)).
  - exists fl. rewrite Hb, Hst, HP, Hall. cbn [Count].
    rewrite <- app_assoc. repeat split; [exact Hs |].
    rewrite Hall in Hc. rewrite Hc, !length_app. cbn [length]. lia.
  - exists all. rewrite Hb, Hst, HP. cbn [Count]. repeat split.
    + rewrite Hall, length_app. lia.
    + rewrite Hc, length_app. cbn [length]. lia.
Qed.

Lemma continueOnNewPage_exec o d :
  exec (continueOnNewPage lib o) d
  = exec (run_calls lib (initPageMarkings lib))
      (exec (addPage lib o) (exec (run_calls lib (endPageMarkings lib (page d))) d)).
Proof.
  set (pre := run_calls lib (endPageMarkings lib (page d))).
  assert (pre d = (Returned tt, exec pre d)) as Epre.
  { subst pre. apply store_calls_frame. }
  destruct (addPage_effect o (exec pre d)) as (p & Eadd & _).
  unfold exec at 1. unfold continueOnNewPage.
  rewrite (bind_Returned _ _ d (page d) d) by reflexivity. fold pre.
  rewrite (bind_Returned _ _ _ _ _ Epre), (bind_Returned _ _ _ _ _ Eadd).
  reflexivity.
Qed.

Lemma numbered_continueOnNewPage all o d :
  numbered all d ->
  exists p, page (exec (continueOnNewPage lib o) d) = Some p
            /\ numbered (all ++ [p]) (exec (continueOnNewPage lib o) d).
Proof.
  intros H. rewrite continueOnNewPage_exec.
  set (d1 := exec (run_calls lib (endPageMarkings lib (page d))) d).
  assert (numbered all d1) as H1.
  { subst d1. apply (numbered_outside all d); [apply store_calls_frame | exact H]. }
  destruct (numbered_addPage all o d1 H1) as (p & Hp & H2).
  destruct (store_calls_frame (initPageMarkings lib) (exec (addPage lib o) d1)) as [_ Hu].
  exists p. split.
  - unfold outside_store in Hu. injection Hu as _ _ _ _ _ _ _ _ _ Hpage _ _ _ _ _ _ _.
    now rewrite Hpage.
  - apply (numbered_outside _ _ _ Hu H2).
Qed.

Lemma numbered_invoke_other all m :
  adds_page m = false -> preserves (numbered all) (invoke lib m).
Proof.
  pose proof (numbered_store_stable all) as HS.
  destruct m as [o | o | n | | | name args | name r | name js | data | c |];
    try discriminate; intros _;
    try (apply field_invoke; [intros ? ? H; exact H | intros ? ? H; exact H | exact I]).
  - apply returns_preserves, numbered_flushPages.
  - apply returns_preserves, stable_run_call, HS.
  - unfold invoke. apply preserves_bind; [| intros ?; apply preserves_ret].
    apply returns_preserves, meth_end;
      first [ intros; apply stable_ref, HS | intros; apply stable_write, HS
            | intros; apply stable_refEnd, HS | apply stable_finalize, HS
            | apply numbered_flushPages | intros ? ? H; exact H ].
Qed.

Lemma numbered_session ms : forall d all,
  numbered all d -> numbered (all ++ created lib ms d) (session lib ms d).
Proof.
  induction ms as [| m ms IH]; intros d all H.
  - simpl. now rewrite app_nil_r.
  - cbn [session fold_left created]. fold (session lib ms (exec (invoke lib m) d)).
    rewrite app_assoc.
    destruct m as [o | o | n | | | name args | name r | name js | data | c |];
      try (match goal with
           | |- context [invoke lib ?m] =>
               pose proof (numbered_invoke_other all m eq_refl d H) as H'
           end;
           rewrite app_nil_r; apply IH, H').
    + destruct (numbered_addPage all o d H) as (p & Hp & H').
      cbn [invoke]. rewrite Hp. apply IH, H'.
    + destruct (numbered_continueOnNewPage all o d H) as (p & Hp & H').
      cbn [invoke]. rewrite Hp. apply IH, H'.
Qed.

Lemma numbered_constructed opts d0 :
  constructed opts d0 ->
  numbered (match page d0 with Some p => [p] | None => [] end) d0.
Proof.
  intros (_ & _ & Hs & Hauto). exists []. rewrite Hs.
  destruct (Options.autoFirstPage opts) as [| | [|] | | | | | | | |];
    try (destruct Hauto as (p & Hb & Hp & HP & _); rewrite Hb, Hp, HP;
         repeat split; reflexivity).
  destruct Hauto as (Hb & Hp & HP). rewrite Hb, Hp, HP. repeat split; reflexivity.
Qed.

Lemma switchToPage_in_window d n p :
  _pageBufferStart d <= n ->
  _pageBuffer d !! Z.to_nat (n - _pageBufferStart d) = Some p ->
  switchToPage n d = (Returned p, set_page (Some p) d).
Proof.
  intros Hn Hp. unfold switchToPage, bind, gets. cbn [fst snd]. unfold array_get.
  destruct (n - _pageBufferStart d <? 0) eqn:E; [apply Z.ltb_lt in E; lia |].
  rewrite Hp. reflexivity.
Qed.

(** X6: page numbers are creation indices.  At every point of a session on
    a new document the page buffer holds the pages created last,
    [_pageBufferStart] is the number of pages created before them, and start
    plus buffer length is the [Count] of the page tree; [switchToPage(n)]
    for [n] inside the window returns the page created as number [n],
    counting the automatic first page as number 0. *)
Theorem page_numbers_are_creation_indices (opts : Options.t) (now : Z) (ms : list method) :
  exists d0, PDFDocument_new lib opts now = (Returned tt, d0)
    /\ let d := session lib ms d0 in
       let all := match page d0 with Some p => [p] | None => [] end ++ created lib ms d0 in
       (exists flushed,
          all = flushed ++ _pageBuffer d
          /\ _pageBufferStart d = Z.of_nat (length flushed))
       /\ _pageBufferStart d + Z.of_nat (length (_pageBuffer d)) = Count (Pages_data d)
       /\ forall n,
            _pageBufferStart d <= n < _pageBufferStart d + Z.of_nat (length (_pageBuffer d)) ->
            exists p, all !! Z.to_nat n = Some p
                      /\ switchToPage n d = (Returned p, set_page (Some p) d).
Proof.
  destruct (PDFDocument_new_constructed opts now) as (d0 & E0 & H0).
  exists d0. split; [exact E0 |]. intros d all.
  destruct (numbered_session ms d0 _ (numbered_constructed opts d0 H0))
    as (fl & Hall & Hs & Hc).
  fold d in Hall, Hs, Hc. fold all in Hall, Hc.
  split; [exists fl; split; [exact Hall | exact Hs] |]. split.
  - rewrite Hc, Hall, length_app. lia.
  - intros n Hn.
    destruct (lookup_lt_is_Some_2 (_pageBuffer d) (Z.to_nat (n - _pageBufferStart d)))
      as [p Hp]; [lia |].
    exists p. split; [| apply switchToPage_in_window; [lia | exact Hp]].
    rewrite Hall, lookup_app_r by lia.
    replace (Z.to_nat n - length fl)%nat with (Z.to_nat (n - _pageBufferStart d)) by lia.
    exact Hp.
Qed.

(** ** Flushing *)

Lemma flushPages_empty d : _pageBuffer d = [] -> flushPages lib d = (Returned tt, d).
Proof.
  intros H. unfold flushPages, bind, gets, modify. cbn [fst snd]. rewrite H.
  cbn [for_of length Z.of_nat]. unfold ret. f_equal.
  destruct d. cbn in *. subst. unfold set_pageBufferStart, set_pageBuffer. cbn.
  now rewrite Z.add_0_r.
Qed.

(** X7: [flushPages] always returns; it leaves the buffer empty and moves
    the start of the window past the pages it flushed, without touching the
    current page, the page tree or the names.  Afterwards
    [bufferedPageRange] reports a window of no pages at the new start,
    [switchToPage] throws for every page number, even for the page that is
    still current, and a second [flushPages] changes nothing. *)
Theorem flushPages_empties_the_window (d : PDFDocument) :
  let d' := exec (flushPages lib) d in
  let start' := _pageBufferStart d + Z.of_nat (length (_pageBuffer d)) in
  flushPages lib d = (Returned tt, d')
  /\ _pageBuffer d' = []
  /\ _pageBufferStart d' = start'
  /\ (page d', Pages_data d', Names_data d') = (page d, Pages_data d, Names_data d)
  /\ bufferedPageRange d' = (Returned (start', 0), d')
  /\ (forall n, exists msg, switchToPage n d' = (Thrown (Error msg), d'))
  /\ flushPages lib d' = (Returned tt, d').
Proof.
  intros d' start'. destruct (flushPages_spec d) as (E & Hu & _). fold d' in E, Hu.
  unfold outside_store in Hu. simpl in Hu.
  injection Hu as _ _ _ Hb Hst _ _ HP HN Hp _ _ _ _ _ _ _.
  split; [exact E |]. split; [exact Hb |]. split; [exact Hst |].
  split; [now rewrite Hp, HP, HN |]. split; [| split].
  - unfold bufferedPageRange, bind, gets, ret. cbn [fst snd]. now rewrite Hb, Hst.
  - intros n. eexists. unfold switchToPage, bind, gets. cbn [fst snd].
    assert (array_get (_pageBuffer d') (n - _pageBufferStart d') = None) as ->
      by (apply array_get_None; rewrite Hb; cbn [length]; lia).
    reflexivity.
  - now apply flushPages_empty.
Qed.

(** ** The header *)

Lemma heading_ref v l data : keeps (heading v l) (ref data).
Proof. intros d H. eexists _, _. split; [apply ref_eq | exact H]. Qed.

Lemma heading_write v l data :
  returns (heading v l) (_write data) (fun _ => heading v (l ++ [Chunk (written data)])).
Proof.
  intros d (Hv & Hp & He & Hb). eexists _, _. split; [apply _write_eq |].
  repeat split; [exact Hv | | exact He | exact Hb].
  cbn [pushed set_offset set_pushed]. now rewrite Hp.
Qed.

Lemma heading_refEnd v l r : keeps (heading v l) (_refEnd lib r).
Proof.
  intros d H. pose proof (_refEnd_eq r d) as E. cbv zeta in E.
  destruct H as (Hv & Hp & He & Hb). rewrite He, andb_false_r in E.
  eexists _, _. split; [exact E |]. repeat split; assumption.
Qed.

Lemma heading_run_calls v cs : forall l,
  returns (heading v l) (run_calls lib cs)
    (fun _ => heading v (l ++ map (fun w => Chunk (written w)) (writes cs))).
Proof.
  unfold run_calls. induction cs as [| c cs IH]; intros l.
  - apply returns_ret. intros d H. cbn [writes map]. now rewrite app_nil_r.
  - cbn [for_of]. destruct c as [data | data | r]; unfold run_call at 1; cbn [writes map].
    + eapply returns_bind;
        [eapply returns_bind; [apply heading_ref | intros ?; apply keeps_ret] |].
      intros ?. apply IH.
    + eapply returns_bind;
        [eapply returns_bind; [apply heading_write | intros ?; apply keeps_ret] |].
      intros ?. eapply returns_post; [apply IH |].
      intros ? d H. now rewrite <- app_assoc in H.
    + eapply returns_bind;
        [eapply returns_bind; [apply heading_refEnd | intros ?; apply keeps_ret] |].
      intros ?. apply IH.
Qed.

Lemma heading_addPage v l o :
  returns (heading v l) (addPage lib o) (fun _ d => pushed d = l).
Proof.
  intros d (Hv & Hp & He & Hb). exists tt, (exec (addPage lib o) d).
  pose proof (addPage_spec o d) as E. cbv zeta in E.
  assert ((if Options.bufferPages (options d) then d else exec (flushPages lib) d) = d) as Hd.
  { destruct (Options.bufferPages (options d)); [reflexivity |].
    unfold exec. now rewrite (flushPages_empty d Hb). }
  rewrite Hd in E.
  assert (exec (addPage lib o) d
          = exec (create_page
                    match o with Some o' => o' | None => Options.page (options d) end) d)
    as -> by (unfold exec at 1; now rewrite E).
  split; [exact E | exact Hp].
Qed.

Ltac heading_same :=
  cbv beta;
  match goal with
  | |- returns (heading ?v ?l) _ _ =>
      apply returns_bind with (R := fun _ => heading v l);
      [apply returns_modify; intros ? Hsame; exact Hsame | intros ?]
  end.

Lemma heading_construct opts v :
  returns (heading v []) (construct lib opts)
    (fun _ d =>
       pushed d
       = map (fun w => Chunk (written w)) (writes (initMixins lib))
         ++ [ Chunk (written (Str ("%PDF-" +:+ PDFVersion_toString v)));
              Chunk (written (Str binary_marker)) ]).
Proof.
  unfold construct, PDFSecurity_create.
  eapply returns_bind; [apply heading_ref | intros pagesRef].
  eapply returns_bind; [apply heading_ref | intros namesRef].
  eapply returns_bind; [apply heading_ref | intros root].
  heading_same.
  heading_same.
  apply returns_bind with (R := fun _ => heading v []).
  { destruct (Options.lang opts) as [l |]; [| apply keeps_ret].
    destruct (bool_decide (l = EmptyString)); [apply keeps_ret |].
    apply returns_modify. intros d H. exact H. }
  intros ?.
  heading_same.
  eapply returns_bind; [apply heading_run_calls | intros ?].
  cbn [app].
  set (l := map (fun w => Chunk (written w)) (writes (initMixins lib))).
  apply returns_bind with (R := fun _ => heading v l).
  { destruct (Options.displayTitle opts); [| apply keeps_ret].
    eapply returns_bind; [apply heading_ref | intros vp].
    apply returns_modify. intros d H. exact H. }
  intros ?.
  apply returns_bind with (R := fun _ => heading v l).
  { destruct (Options.password opts); [| apply keeps_ret].
    eapply returns_bind; [apply heading_ref | intros ?]. apply keeps_ret. }
  intros sec.
  heading_same.
  apply returns_bind with (R := fun ver d => ver = v /\ heading v l d).
  { apply returns_gets. intros d H. split; [apply H | exact H]. }
  intros ver. apply returns_assume. intros ->.
  eapply returns_bind; [apply heading_write | intros ?].
  eapply returns_bind; [apply heading_write | intros ?].
  rewrite <- app_assoc. cbn [app].
  assert (forall l', returns (heading v l') (ret tt) (fun _ d => pushed d = l')) as Hret.
  { intros l'. apply returns_ret. intros d H. apply H. }
  destruct (Options.autoFirstPage opts); try apply heading_addPage.
  match goal with b : bool |- _ => destruct b end; [apply heading_addPage | apply Hret].
Qed.

(** X8: the constructor pushes the header and nothing else of its own: the
    line [%PDF-] with the version it selected, then the comment line of four
    bytes with the high bit set, behind whatever the mixins wrote while they
    were initialised.  The two lines are fifteen bytes, so with mixins that
    write nothing the first object of every document starts at offset 15;
    the automatic first page writes nothing. *)
Theorem constructor_writes_the_header (opts : Options.t) (now : Z) :
  exists d0, PDFDocument_new lib opts now = (Returned tt, d0)
    /\ let mixins := map (fun w => Chunk (written w)) (writes (initMixins lib)) in
       pushed d0
       = mixins
         ++ [ Chunk (written (Str ("%PDF-" +:+ PDFVersion_toString
                                     (select_version (Options.pdfVersion opts)))));
              Chunk (written (Str binary_marker)) ]
       /\ _offset d0 = total_bytes mixins + 15.
Proof.
  destruct (heading_construct opts (select_version (Options.pdfVersion opts))
              (fresh lib opts now)) as ([] & d0 & E & Hp).
  { repeat split. }
  destruct (bytes_constructed opts now) as (d0' & E' & Hb).
  unfold PDFDocument_new in E'. rewrite E in E'. injection E' as <-.
  exists d0. split; [exact E |]. intros mixins. split; [exact Hp |].
  unfold bytes_accounted in Hb. rewrite Hb, Hp. fold mixins.
  rewrite total_bytes_app. f_equal.
  destruct (select_version (Options.pdfVersion opts)); reflexivity.
Qed.

(** ** Destinations without arguments, documents without a page *)

Lemma addNamedDestination_unflipped name args p d :
  page d = Some p ->
  let args' := if (length args =? 0)%nat then [JStr "XYZ"; JNull; JNull; JNull] else args in
  is_XYZ (args' !! 0%nat) && is_not_null (args' !! 2%nat) = false ->
  addNamedDestination name args d
  = (Returned tt,
     set_Names_data
       {| Dests := PDFNameTree_add name (JArr (JRef (id (dictionary p)) :: args'))
                     (Dests (Names_data d));
          EmbeddedFiles := EmbeddedFiles (Names_data d);
          JavaScript := JavaScript (Names_data d) |} d).
Proof.
  intros Hp args' Hflip. unfold addNamedDestination. fold args'. rewrite Hflip.
  unfold bind, gets, ret, modify. cbn [fst snd]. rewrite Hp. reflexivity.
Qed.

(** X9: [addNamedDestination(name)] without further arguments stores the
    destination [[page, 'XYZ', null, null, null]] for the current page, and
    an ['XYZ'] destination whose Y coordinate is [null] is stored with the
    [null] as it is: only a Y coordinate that is given is subtracted from
    the page height.  In both cases nothing but the destinations tree
    changes. *)
Theorem addNamedDestination_defaults_to_XYZ_with_nulls
    (d : PDFDocument) (name : string) (p : PDFPage) (left : jsval) (rest : list jsval) :
  page d = Some p ->
  let stored args :=
    set_Names_data
      {| Dests := PDFNameTree_add name (JArr (JRef (id (dictionary p)) :: args))
                    (Dests (Names_data d));
         EmbeddedFiles := EmbeddedFiles (Names_data d);
         JavaScript := JavaScript (Names_data d) |} d in
  addNamedDestination name [] d = (Returned tt, stored [JStr "XYZ"; JNull; JNull; JNull])
  /\ addNamedDestination name (JStr "XYZ" :: left :: JNull :: rest) d
     = (Returned tt, stored (JStr "XYZ" :: left :: JNull :: rest)).
Proof.
  intros Hp stored. split.
  - apply (addNamedDestination_unflipped name [] p d Hp), andb_false_r.
  - apply (addNamedDestination_unflipped name (JStr "XYZ" :: left :: JNull :: rest) p d Hp),
      andb_false_r.
Qed.

Lemma addNamedDestination_no_page name args d :
  page d = None ->
  exists msg, addNamedDestination name args d = (Thrown (TypeError msg), d).
Proof.
  intros Hp. unfold addNamedDestination.
  set (args' := if (length args =? 0)%nat then _ else args).
  destruct (is_XYZ (args' !! 0%nat) && is_not_null (args' !! 2%nat));
    unfold bind, gets, ret, throw; cbn [fst snd]; rewrite Hp; eexists; reflexivity.
Qed.

(** X10: a document constructed with [autoFirstPage: false] has no current
    page and an empty window at 0.  Until a page is added,
    [addNamedDestination] and [addContent] throw a [TypeError] and
    [switchToPage] throws its out-of-bounds error for every page number,
    each leaving the document exactly as it was. *)
Theorem document_without_a_page_rejects_page_operations
    (opts : Options.t) (now : Z) :
  Options.autoFirstPage opts = JBool false ->
  exists d0, PDFDocument_new lib opts now = (Returned tt, d0)
    /\ page d0 = None
    /\ bufferedPageRange d0 = (Returned (0, 0), d0)
    /\ (forall name args,
          exists msg, addNamedDestination name args d0 = (Thrown (TypeError msg), d0))
    /\ (forall data, exists msg, addContent data d0 = (Thrown (TypeError msg), d0))
    /\ (forall n, exists msg, switchToPage n d0 = (Thrown (Error msg), d0)).
Proof.
  intros Hauto.
  destruct (PDFDocument_new_constructed opts now) as (d0 & E0 & _ & _ & Hs & H0).
  rewrite Hauto in H0. destruct H0 as (Hb & Hp & _).
  exists d0. split; [exact E0 |]. split; [exact Hp |]. split; [| split; [| split]].
  - unfold bufferedPageRange, bind, gets, ret. cbn [fst snd]. now rewrite Hb, Hs.
  - intros name args. now apply addNamedDestination_no_page.
  - intros data. unfold addContent, bind, gets, throw. cbn [fst snd]. rewrite Hp.
    eexists. reflexivity.
  - intros n. unfold switchToPage, bind, gets. cbn [fst snd].
    assert (array_get (_pageBuffer d0) (n - _pageBufferStart d0) = None) as ->
      by (apply array_get_None; rewrite Hb; cbn [length]; lia).
    eexists. reflexivity.
Qed.

(** ** The information dictionary *)














(** The order of enumeration: whatever comes before an array index is a
    smaller array index. *)
Local Abbreviation in_order a b :=
  (forall n, array_index b = Some n -> exists m, array_index a = Some m /\ m < n).






Section Merge.

Local Abbreviation merge extra obj :=
  (fold_left (fun obj kv => object_set (fst kv) (snd kv) obj) extra obj).








End Merge.

(** ** The names dictionary *)

Lemma names_store_stable N : store_stable (fun d => Names_data d = N).
Proof. constructor; intros; assumption. Qed.

Lemma names_flushPages N : keeps (fun d => Names_data d = N) (flushPages lib).
Proof.
  intros d H. destruct (flushPages_spec d) as (E & Hu & _).
  exists tt, (exec (flushPages lib) d). split; [exact E |].
  unfold outside_store in Hu. simpl in Hu.
  injection Hu as _ _ _ _ _ _ _ _ HN _ _ _ _ _ _ _ _. now rewrite HN.
Qed.

Lemma names_create_page N o : keeps (fun d => Names_data d = N) (create_page o).
Proof. intros d H. eexists tt, _. split; [reflexivity | exact H]. Qed.

Ltac names_side HS :=
  first [ intros; apply stable_ref, HS | intros; apply stable_write, HS
        | intros; apply stable_refEnd, HS | apply stable_finalize, HS
        | apply names_flushPages | intros; apply names_create_page
        | intros ? ? Hsame; exact Hsame ].

Lemma names_frame m d :
  names_method m = false -> Names_data (exec (invoke lib m) d) = Names_data d.
Proof.
  intros Hm. pose proof (names_store_stable (Names_data d)) as HS.
  assert (preserves (fun d' => Names_data d' = Names_data d) (invoke lib m)) as H;
    [| exact (H d eq_refl)].
  destruct m as [o | o | n | | | name args | name r | name js | data | c |];
    try discriminate; unfold invoke.
  - apply returns_preserves, meth_addPage; names_side HS.
  - apply returns_preserves, meth_continueOnNewPage; names_side HS.
  - apply preserves_bind; [| intros ?; apply preserves_ret].
    apply field_switchToPage. intros ? ? Hsame. exact Hsame.
  - apply returns_preserves, names_flushPages.
  - apply preserves_bind; [| intros ?; apply preserves_ret].
    apply returns_preserves, stable_bufferedPageRange.
  - apply stable_addContent.
  - apply returns_preserves, stable_run_call, HS.
  - apply preserves_bind; [| intros ?; apply preserves_ret].
    apply returns_preserves, meth_end; names_side HS.
Qed.

Lemma trees_addNamedDestination name args d :
  EmbeddedFiles (Names_data (exec (addNamedDestination name args) d))
  = EmbeddedFiles (Names_data d)
  /\ JavaScript (Names_data (exec (addNamedDestination name args) d))
     = JavaScript (Names_data d).
Proof.
  assert (preserves (fun d' => EmbeddedFiles (Names_data d') = EmbeddedFiles (Names_data d)
                               /\ JavaScript (Names_data d') = JavaScript (Names_data d))
            (addNamedDestination name args)) as H; [| exact (H d (conj eq_refl eq_refl))].
  unfold addNamedDestination.
  apply preserves_bind.
  - destruct (_ && _); [| apply preserves_ret].
    apply preserves_bind; [apply preserves_gets | intros [p |]];
      [apply preserves_ret | apply preserves_throw].
  - intros args'. apply preserves_bind; [apply preserves_gets | intros [p |]];
      [| apply preserves_throw].
    apply preserves_modify. intros d' H. exact H.
Qed.

Lemma trees_addNamedEmbeddedFile name r d :
  EmbeddedFiles (Names_data (exec (addNamedEmbeddedFile name r) d)) <> None
  /\ JavaScript (Names_data (exec (addNamedEmbeddedFile name r) d))
     = JavaScript (Names_data d)
  /\ Dests (Names_data (exec (addNamedEmbeddedFile name r) d)) = Dests (Names_data d).
Proof.
  unfold exec, addNamedEmbeddedFile, bind, gets, modify, ret. cbn [fst snd].
  destruct (EmbeddedFiles (Names_data d)); cbn; repeat split; discriminate.
Qed.

Lemma trees_addNamedJavaScript name js d :
  JavaScript (Names_data (exec (addNamedJavaScript name js) d)) <> None
  /\ EmbeddedFiles (Names_data (exec (addNamedJavaScript name js) d))
     = EmbeddedFiles (Names_data d)
  /\ Dests (Names_data (exec (addNamedJavaScript name js) d)) = Dests (Names_data d).
Proof.
  unfold exec, addNamedJavaScript, bind, gets, modify, ret. cbn [fst snd].
  destruct (JavaScript (Names_data d)); cbn; repeat split; discriminate.
Qed.

Lemma trees_session ms : forall d,
  (EmbeddedFiles (Names_data (session lib ms d)) = None
   <-> EmbeddedFiles (Names_data d) = None /\ existsb embeds_file ms = false)
  /\ (JavaScript (Names_data (session lib ms d)) = None
      <-> JavaScript (Names_data d) = None /\ existsb adds_JavaScript ms = false).
Proof.
  induction ms as [| m ms IH]; intros d.
  - cbn. tauto.
  - cbn [session fold_left existsb]. fold (session lib ms (exec (invoke lib m) d)).
    destruct (IH (exec (invoke lib m) d)) as [IHe IHj]. rewrite IHe, IHj. clear IH IHe IHj.
    destruct (names_method m) eqn:Em.
    + destruct m as [o | o | n | | | name args | name r | name js | data | c |];
        try discriminate; cbn [invoke embeds_file adds_JavaScript orb].
      * destruct (trees_addNamedDestination name args d) as [-> ->]. tauto.
      * destruct (trees_addNamedEmbeddedFile name r d) as (Hne & -> & _).
        split; [split; [intros [H _]; contradiction | intros [_ H]; discriminate] | tauto].
      * destruct (trees_addNamedJavaScript name js d) as (Hne & -> & _).
        split; [tauto | split; [intros [H _]; contradiction | intros [_ H]; discriminate]].
    + rewrite (names_frame m d Em).
      destruct m; try discriminate; cbn [embeds_file adds_JavaScript orb]; tauto.
Qed.

Lemma names_constructed opts now :
  exists d0, PDFDocument_new lib opts now = (Returned tt, d0)
    /\ Names_data d0 = {| Dests := ∅; EmbeddedFiles := None; JavaScript := None |}.
Proof.
  pose proof (names_store_stable {| Dests := ∅; EmbeddedFiles := None; JavaScript := None |})
    as HS.
  destruct (meth_construct (fun d => Names_data d
                                     = {| Dests := ∅; EmbeddedFiles := None;
                                          JavaScript := None |}))
    with (opts := opts) (d := fresh lib opts now) as ([] & d0 & E & H);
    try names_side HS; try reflexivity.
  exists d0. split; [exact E | exact H].
Qed.

(** X12: the names dictionary of a new document has an empty destinations
    tree and no other tree.  Only [addNamedDestination],
    [addNamedEmbeddedFile] and [addNamedJavaScript] ever change it; the
    [EmbeddedFiles] tree exists exactly when a file has been embedded and
    the [JavaScript] tree exactly when a script has been added, so a
    document that uses neither serialises a names dictionary of [Dests]
    alone. *)
Theorem names_trees_are_created_on_first_use (opts : Options.t) (now : Z)
    (ms : list method) :
  exists d0, PDFDocument_new lib opts now = (Returned tt, d0)
    /\ Names_data d0 = {| Dests := ∅; EmbeddedFiles := None; JavaScript := None |}
    /\ (forall m d, names_method m = false ->
          Names_data (exec (invoke lib m) d) = Names_data d)
    /\ let d := session lib ms d0 in
       (EmbeddedFiles (Names_data d) = None <-> existsb embeds_file ms = false)
       /\ (JavaScript (Names_data d) = None <-> existsb adds_JavaScript ms = false)
       /\ (existsb embeds_file ms = false -> existsb adds_JavaScript ms = false ->
           Names_toJS (Names_data d)
           = JObj [ ("Dests", JObj (map_to_list (Dests (Names_data d)))) ]).
Proof.
  destruct (names_constructed opts now) as (d0 & E0 & H0).
  exists d0. split; [exact E0 |]. split; [exact H0 |].
  split; [intros m d; apply names_frame |]. intros d.
  destruct (trees_session ms d0) as [He Hj]. fold d in He, Hj.
  rewrite H0 in He, Hj. cbn [EmbeddedFiles JavaScript] in He, Hj.
  split; [tauto |]. split; [tauto |].
  intros Hne Hnj. unfold Names_toJS.
  assert (EmbeddedFiles (Names_data d) = None) as -> by tauto.
  assert (JavaScript (Names_data d) = None) as -> by tauto.
  reflexivity.
Qed.

(** ** The catalog *)

Lemma catalog_store_stable l t s : store_stable (catalog_of l t s).
Proof. constructor; intros; assumption. Qed.

Lemma catalog_outside l t s d d' :
  outside_store d' = outside_store d -> catalog_of l t s d -> catalog_of l t s d'.
Proof.
  unfold outside_store, catalog_of. intros H.
  injection H as _ _ _ _ _ Hr Hrd _ _ _ _ _ _ _ Hs _ _. now rewrite Hr, Hrd, Hs.
Qed.

Lemma catalog_flushPages l t s : keeps (catalog_of l t s) (flushPages lib).
Proof.
  intros d H. destruct (flushPages_spec d) as (E & Hu & _).
  exists tt, (exec (flushPages lib) d). split; [exact E |].
  apply (catalog_outside l t s
           (set_pageBufferStart (_pageBufferStart d + Z.of_nat (length (_pageBuffer d)))
              (set_pageBuffer [] d))); [exact Hu | exact H].
Qed.

Lemma catalog_create_page l t s o : keeps (catalog_of l t s) (create_page o).
Proof. intros d H. eexists tt, _. split; [reflexivity | exact H]. Qed.

Ltac catalog_side HS :=
  first [ intros; apply stable_ref, HS | intros; apply stable_write, HS
        | intros; apply stable_refEnd, HS | apply stable_finalize, HS
        | apply catalog_flushPages | intros; apply catalog_create_page
        | intros ? ? Hsame; exact Hsame ].

Lemma catalog_session l t s ms d :
  catalog_of l t s d -> catalog_of l t s (session lib ms d).
Proof.
  pose proof (catalog_store_stable l t s) as HS.
  apply meth_session; catalog_side HS.
Qed.

Lemma wiring_ref n data :
  returns (fun d => length (_offsets d) = n /\ _security d = None) (ref data)
    (fun r d => id r = Z.of_nat n + 1 /\ length (_offsets d) = S n /\ _security d = None).
Proof.
  intros d [Hn Hs]. eexists _, _. split; [apply ref_eq |].
  cbn [id _offsets set_waiting set_offsets _security]. rewrite length_app, Hn.
  repeat split; [cbn [length]; lia | exact Hs].
Qed.

Lemma catalog_construct opts :
  let lang :=
    match Options.lang opts with
    | Some l => if bool_decide (l = EmptyString) then None else Some l
    | None => None
    end in
  returns (fun d => length (_offsets d) = 0%nat /\ _security d = None)
    (construct lib opts)
    (fun _ => catalog_of lang (Options.displayTitle opts)
                (bool_decide (is_Some (Options.password opts)))).
Proof.
  intros lang. unfold construct, PDFSecurity_create.
  eapply returns_bind; [apply wiring_ref | intros pagesRef].
  apply returns_assume. intros Hp.
  eapply returns_bind; [apply wiring_ref | intros namesRef].
  apply returns_assume. intros Hn.
  eapply returns_bind; [apply wiring_ref | intros root].
  apply returns_assume. intros Hr.
  apply returns_bind with (R := fun _ d => _root d = root /\ _security d = None).
  { apply returns_modify. intros d [_ Hs]. split; [reflexivity | exact Hs]. }
  intros ?.
  apply returns_bind with (R := fun _ => catalog_of None false false).
  { apply returns_modify. intros d [Hroot Hs]. unfold catalog_of.
    cbn [_root_data set_root_data Pages Names Lang ViewerPreferences _root _security].
    rewrite Hroot, Hs, Hp, Hn, Hr. repeat split; try reflexivity;
      try (intros [? H]; discriminate); discriminate. }
  intros ?.
  apply returns_bind with (R := fun _ => catalog_of lang false false).
  { subst lang. destruct (Options.lang opts) as [l |]; [| apply keeps_ret].
    destruct (bool_decide (l = EmptyString)); [apply keeps_ret |].
    apply returns_modify. intros d (H1 & H2 & H3 & _ & H5 & H6).
    repeat split; assumption || apply H5 || apply H6. }
  intros ?.
  pose proof (catalog_store_stable lang false false) as HS0.
  eapply returns_bind;
    [apply returns_modify with (Q := fun _ => catalog_of lang false false);
     intros d H; exact H | intros ?].
  eapply returns_bind; [apply stable_run_calls, HS0 | intros ?].
  apply returns_bind
    with (R := fun _ => catalog_of lang (Options.displayTitle opts) false).
  { destruct (Options.displayTitle opts); [| apply keeps_ret].
    eapply returns_bind; [apply stable_ref, HS0 | intros vp].
    apply returns_modify. intros d (H1 & H2 & H3 & H4 & _ & H6).
    repeat split; try assumption; try apply H6; eauto. }
  intros ?.
  pose proof (catalog_store_stable lang (Options.displayTitle opts) false) as HS1.
  apply returns_bind
    with (R := fun sec d => catalog_of lang (Options.displayTitle opts) false d
                            /\ (is_Some sec
                                <-> bool_decide (is_Some (Options.password opts)) = true)).
  { destruct (Options.password opts) as [pw |].
    - eapply returns_bind; [apply stable_ref, HS1 | intros r].
      apply returns_ret. intros d H. split; [exact H |].
      split; [intros _; apply bool_decide_eq_true; eauto | eauto].
    - apply returns_ret. intros d H. split; [exact H |].
      split; [intros [? Hx]; discriminate |].
      intros Hx. apply bool_decide_eq_true in Hx. destruct Hx as [? Hx]. discriminate. }
  intros sec.
  set (pw := bool_decide (is_Some (Options.password opts))).
  apply returns_bind with (R := fun _ => catalog_of lang (Options.displayTitle opts) pw).
  { apply returns_modify. intros d [(H1 & H2 & H3 & H4 & H5 & _) Hsec].
    repeat split; try assumption; try apply H5; apply Hsec. }
  intros ?.
  pose proof (catalog_store_stable lang (Options.displayTitle opts) pw) as HS.
  eapply returns_bind; [apply keeps_gets | intros v].
  eapply returns_bind; [apply stable_write, HS | intros ?].
  eapply returns_bind; [apply stable_write, HS | intros ?].
  assert (keeps (catalog_of lang (Options.displayTitle opts) pw) (addPage lib None)) as Hadd
    by (apply meth_addPage; catalog_side HS).
  destruct (Options.autoFirstPage opts); try exact Hadd.
  match goal with b : bool |- _ => destruct b end; [exact Hadd | apply keeps_ret].
Qed.

(** X13: in every document, after any sequence of method calls, the page
    tree root is object 1, the names dictionary object 2 and the catalog
    object 3, which is what the trailer names as [Root]; the catalog has the
    language of the options unless that is the empty string, viewer
    preferences exactly when [displayTitle] is set, and the document has a
    security filter exactly when a password is given. *)
Theorem catalog_is_object_three (opts : Options.t) (now : Z) (ms : list method) :
  exists d0, PDFDocument_new lib opts now = (Returned tt, d0)
    /\ let d := session lib ms d0 in
       id (Pages (_root_data d)) = 1 /\ id (Names (_root_data d)) = 2 /\ id (_root d) = 3
       /\ Lang (_root_data d)
          = match Options.lang opts with
            | Some l => if bool_decide (l = EmptyString) then None else Some l
            | None => None
            end
       /\ (is_Some (ViewerPreferences (_root_data d)) <-> Options.displayTitle opts = true)
       /\ (is_Some (_security d) <-> is_Some (Options.password opts))
       /\ exists size rest,
            trailer d = JObj (("Size", size) :: ("Root", JRef 3) :: rest).
Proof.
  destruct (catalog_construct opts (fresh lib opts now)) as ([] & d0 & E & H0).
  { split; reflexivity. }
  exists d0. split; [exact E |]. intros d.
  destruct (catalog_session _ _ _ ms d0 H0) as (H1 & H2 & H3 & H4 & H5 & H6). fold d in H1, H2, H3, H4, H5, H6.
  split; [exact H1 |]. split; [exact H2 |]. split; [exact H3 |]. split; [exact H4 |].
  split; [exact H5 |]. split.
  - rewrite H6. apply bool_decide_eq_true.
  - unfold trailer. rewrite H3. eexists _, _. reflexivity.
Qed.

(** ** The references of the constructor *)

Lemma page_free_invoke w m :
  page_free_method m = true ->
  preserves (fun d => _waiting d = w /\ building 0 d /\ _pageBuffer d = []) (invoke lib m).
Proof.
  destruct m as [o | o | n | | | name args | name r | name js | data | c |];
    try discriminate; intros _;
    try (apply field_invoke; [intros ? ? H; exact H | intros ? ? H; exact H | exact I]).
  intros d (Hw & Hb & He). unfold invoke, exec. rewrite (flushPages_empty d He).
  repeat split; assumption || apply Hb.
Qed.

Lemma page_free_session w ms :
  forallb page_free_method ms = true ->
  forall d,
    _waiting d = w /\ building 0 d /\ _pageBuffer d = [] ->
    _waiting (session lib ms d) = w /\ building 0 (session lib ms d)
    /\ _pageBuffer (session lib ms d) = [].
Proof.
  induction ms as [| m ms IH]; intros Hms d H; [exact H |].
  cbn [forallb] in Hms. apply andb_true_iff in Hms as [Hm Hms].
  cbn [session fold_left]. apply (IH Hms). now apply page_free_invoke.
Qed.

(** X4: the constructor itself leaves exactly three references
    outstanding, those of the page tree root, the names dictionary and the
    catalog, and a fourth, the viewer preferences, when [displayTitle] is
    set; the mixins add what they allocated and did not end while they were
    initialised.  In a document constructed without a first page and
    without a password the counter stays at this value, and the file stays
    open, whatever the user calls that neither adds a page nor ends the
    document. *)
Theorem constructor_leaves_its_own_references_outstanding (opts : Options.t) (now : Z)
    (ms : list method) :
  Options.autoFirstPage opts = JBool false ->
  Options.password opts = None ->
  forallb page_free_method ms = true ->
  exists d0, PDFDocument_new lib opts now = (Returned tt, d0)
    /\ let d := session lib ms d0 in
       _waiting d = 3 + (if Options.displayTitle opts then 1 else 0) + net (initMixins lib)
       /\ _ended d = false /\ completions d = 0%nat /\ _pageBuffer d = [].
Proof.
  intros Ha Hpw Hms.
  destruct (settled_new opts now (or_introl Ha)) as (d0 & E & Hw & Hb).
  destruct (catalog_construct opts (fresh lib opts now)) as ([] & d0' & E' & Hc).
  { split; reflexivity. }
  unfold PDFDocument_new in E. rewrite E in E'. injection E' as <-.
  destruct (PDFDocument_new_constructed opts now) as (d0' & E' & _ & _ & _ & Hauto).
  unfold PDFDocument_new in E'. rewrite E in E'. injection E' as <-.
  rewrite Ha in Hauto. destruct Hauto as (Hbuf & _).
  destruct Hc as (_ & _ & _ & _ & Hvp & Hsec).
  exists d0. split; [exact E |]. intros d.
  assert (_waiting d0
          = 3 + (if Options.displayTitle opts then 1 else 0) + net (initMixins lib)) as Hw0.
  { rewrite Hw. unfold owed. rewrite Hbuf. cbn [length].
    assert (present (_security d0) = 0) as ->.
    { destruct (_security d0) as [s |]; [| reflexivity].
      assert (is_Some (Some s)) as Hs by eauto. apply Hsec in Hs.
      rewrite Hpw in Hs. apply bool_decide_eq_true in Hs. destruct Hs as [? Hs].
      discriminate. }
    assert (present (ViewerPreferences (_root_data d0))
            = if Options.displayTitle opts then 1 else 0) as ->.
    { destruct (ViewerPreferences (_root_data d0)) as [r |].
      - assert (is_Some (Some r)) as Hs by eauto. apply Hvp in Hs. now rewrite Hs.
      - destruct (Options.displayTitle opts); [| reflexivity].
        destruct (proj2 Hvp eq_refl) as [? Hs]. discriminate. }
    lia. }
  destruct (page_free_session _ ms Hms d0 (conj Hw0 (conj Hb Hbuf))) as (H1 & [H2 H3] & H4).
  auto.
Qed.

(** ** The size of the cross-reference table *)

Lemma length_string_drop n : forall s,
  String.length (string_drop n s) = (String.length s - n)%nat.
Proof.
  induction n as [| n IH]; intros s; [cbn; lia |].
  destruct s as [| c s]; cbn; [reflexivity | apply IH].
Qed.

Lemma length_xref_entry o : String.length (xref_entry o) = 19%nat.
Proof.
  unfold xref_entry, slice_last.
  rewrite length_append, length_string_drop, length_append. cbn [String.length]. lia.
Qed.

(** X15: every entry of the cross-reference table is written as twenty
    bytes, whatever its slot of [_offsets] holds, so the table of a document
    with [n] references is [20 * (n + 1)] bytes long; the slot of a
    reference that was allocated and never ended holds [null], and its entry
    reads [000000null 00000 n ]. *)
Theorem xref_entries_are_twenty_bytes (d : PDFDocument) :
  (forall o, length (written (Str (xref_entry o))) = 20%nat)
  /\ total_length (map Str (xref_table d)) = 20 * (Z.of_nat (length (_offsets d)) + 1)
  /\ (forall data,
        xref_table (exec (ref data) d)
        = xref_table d ++ ["000000null 00000 n "]).
Proof.
  assert (forall o, length (written (Str (xref_entry o))) = 20%nat) as H20.
  { intros o. cbn [written]. rewrite length_Buffer_from_binary, length_append, length_xref_entry.
    reflexivity. }
  split; [exact H20 |]. split.
  - unfold xref_table. cbn [map total_length].
    change (Z.of_nat (length (written (Str "0000000000 65535 f ")))) with 20.
    induction (_offsets d) as [| o l IH]; [reflexivity |].
    cbn [map total_length length]. rewrite H20. lia.
  - intros data. unfold exec. rewrite ref_eq. unfold xref_table.
    cbn [snd _offsets set_waiting set_offsets]. rewrite map_app. reflexivity.
Qed.

(** ** The information dictionary at the end *)






End Properties.

(** * The properties on sample documents *)

(** ** Runs of the model *)

Example sample_document_store :
  _offsets sample_document = [off_null; off_null; off_null; off_null; off_null]
  /\ _waiting sample_document = 5
  /\ _offset sample_document = 15
  /\ page sample_document = Some sample_page.
Proof. vm_compute. repeat split. Qed.

Example sample_document_ends_at_once :
  let d := exec (end_ sample_lib) sample_document in
  _waiting d = 0 /\ _ended d = false /\ completions d = 1%nat
  /\ last (pushed d) = Some EndOfStream
  /\ xref_table d
     = [ "0000000000 65535 f "; "0000000162 00000 n "; "0000000183 00000 n ";
         "0000000141 00000 n "; "0000000036 00000 n "; "0000000015 00000 n ";
         "0000000120 00000 n "; "0000000057 00000 n "; "0000000078 00000 n ";
         "0000000099 00000 n " ].
Proof. vm_compute. repeat split. Qed.

Example pending_document_defers :
  let d := exec (end_ sample_lib) pending_document in
  let d' := exec (_refEnd sample_lib late_reference) d in
  _waiting d = 1 /\ _ended d = true /\ completions d = 0%nat
  /\ _waiting d' = 0 /\ _ended d' = false /\ completions d' = 1%nat.
Proof. vm_compute. repeat split. Qed.

Example three_pages_buffered :
  exists p1 p2 p3 d3,
    three_pages = (Returned [p1; p2; p3], d3)
    /\ (id (dictionary p1), id (dictionary p2), id (dictionary p3)) = (5, 7, 9)
    /\ result (switchToPage 2) d3 = Returned p3
    /\ result (switchToPage 1) d3 = Returned p2
    /\ result (bufferedPageRange) d3 = Returned (0, 3).
Proof. vm_compute. do 4 eexists. repeat split. Qed.

(** [new PDFDocument({ bufferPages: true })] and three more pages: the
    automatic first page is page 0, and [switchToPage(2)] returns the second
    page added. *)
Example three_pages_after_the_first :
  exists p1 p2 p3 d3,
    add_pages sample_lib [None; None; None]
      (snd (PDFDocument_new sample_lib buffering_options 0))
    = (Returned [p1; p2; p3], d3)
    /\ result (switchToPage 2) d3 = Returned p2
    /\ _pageBuffer d3 !! 2%nat = Some p2
    /\ result (bufferedPageRange) d3 = Returned (0, 4).
Proof. vm_compute. do 4 eexists. repeat split. Qed.

(** The keys of [this.info] for [titled_options], as they are enumerated:
    the array index first, then the defaults, then the new key. *)
Example titled_info_keys :
  (initial_info titled_options 0).*1
  = ["2"; "Producer"; "Creator"; "CreationDate"; "Title"]
  /\ (initial_info titled_options 0) !! 2%nat = Some ("Creator", JStr "me").
Proof. split; vm_compute; reflexivity. Qed.

(** ** Instances of the theorems *)

Lemma end_completes_exactly_when_counter_reaches_zero_witness :
  _ended pending_document = false
  /\ completions (exec (run_calls sample_lib [call_refEnd late_reference])
                    (exec (end_ sample_lib) pending_document))
     = (completions pending_document
        + if (_waiting (exec (end_sequence sample_lib) pending_document) =? 0)%Z
             || reaches_zero sample_lib [call_refEnd late_reference]
                  (exec (end_ sample_lib) pending_document)
          then 1 else 0)%nat.
Proof.
  split; [reflexivity |].
  destruct (end_completes_exactly_when_counter_reaches_zero sample_lib pending_document
              [call_refEnd late_reference] eq_refl)
    as (_ & _ & _ & _ & _ & H & _).
  exact H.
Defined.

Lemma ref_assigns_sequential_ids_witness :
  _offsets (fresh sample_lib default_options 0) = []
  /\ disciplined 0 sample_calls
  /\ exists rs d',
       allocations sample_lib sample_calls (fresh sample_lib default_options 0)
         = (Returned rs, d')
       /\ length rs = count_ref sample_calls
       /\ (forall (i : nat) r, rs !! i = Some r -> id r = Z.of_nat i + 1)
       /\ length (_offsets d') = length rs
       /\ (forall data, exists r,
             result (ref data) d' = Returned r
             /\ id r = Z.of_nat (length rs) + 1
             /\ _offsets (exec (ref data) d') = _offsets d' ++ [off_null]).
Proof.
  assert (disciplined 0 sample_calls) as H by (simpl; lia).
  split; [reflexivity |]. split; [exact H |].
  exact (ref_assigns_sequential_ids sample_lib sample_calls
           (fresh sample_lib default_options 0) eq_refl H).
Defined.

Lemma finalize_emits_xref_table_witness :
  _offsets (exec (end_sequence sample_lib) sample_document) !! 3%nat = Some (off_number 36)
  /\ xref_table (exec (end_sequence sample_lib) sample_document) !! 4%nat
     = Some (xref_entry (off_number 36))
  /\ xref_entry (off_number 36) = zero_pad10 (pretty 36) +:+ " 00000 n "
  /\ parse_decimal (string_take 10 (xref_entry (off_number 36))) = 36.
Proof.
  assert (_offsets (exec (end_sequence sample_lib) sample_document) !! 3%nat
          = Some (off_number 36)) as H by (vm_compute; reflexivity).
  destruct (finalize_emits_xref_table sample_lib
              (exec (end_sequence sample_lib) sample_document))
    as (_ & _ & _ & _ & _ & Hline & _ & Hdigits & _).
  destruct (Hdigits 36 ltac:(lia)) as (Hpad & _ & Hparse).
  split; [exact H |]. split; [exact (Hline 3%nat _ H) |].
  split; [exact Hpad | exact Hparse].
Defined.

Lemma switchToPage_2_returns_second_added_page_witness :
  Options.bufferPages buffering_options = true
  /\ Options.autoFirstPage buffering_options <> JBool false
  /\ exists d0 p0 p1 p2 p3 d3,
       PDFDocument_new sample_lib buffering_options 0 = (Returned tt, d0)
       /\ add_pages sample_lib [None; None; None] d0 = (Returned [p1; p2; p3], d3)
       /\ switchToPage 2 d3 = (Returned p2, set_page (Some p2) d3)
       /\ _pageBuffer d3 = [p0; p1; p2; p3]
       /\ pushed d3 = pushed d0.
Proof.
  assert (Options.autoFirstPage buffering_options <> JBool false) as Ha by discriminate.
  split; [reflexivity |]. split; [exact Ha |].
  destruct (switchToPage_2_returns_second_added_page sample_lib buffering_options 0
              None None None eq_refl Ha)
    as (d0 & p0 & p1 & p2 & p3 & d3 & E0 & _ & E & _ & H2 & _ & _ & Hbuf & _ & Hk & _).
  exists d0, p0, p1, p2, p3, d3. repeat split; try assumption. congruence.
Defined.

Lemma unbuffered_addPage_keeps_one_page_witness :
  Options.bufferPages (options sample_document) = false
  /\ exists ps p,
       result (add_pages sample_lib [None; None]) sample_document = Returned ps
       /\ length ps = 2%nat
       /\ last ps = Some p
       /\ _pageBuffer (exec (add_pages sample_lib [None; None]) sample_document) = [p]
       /\ Forall (fun q => flushed (pushed sample_document) q
                             (exec (add_pages sample_lib [None; None]) sample_document))
            (_pageBuffer sample_document).
Proof.
  split; [reflexivity |].
  destruct (unbuffered_addPage_keeps_one_page sample_lib sample_document eq_refl)
    as (_ & H & _).
  destruct (H [None; None]) as (ps & p & H1 & H2 & H3 & H4 & H5 & _); [discriminate |].
  exists ps, p. repeat split; assumption.
Defined.

Lemma XYZ_destination_stores_height_minus_Y_witness :
  page sample_document = Some sample_page
  /\ Dests (Names_data
             (exec (addNamedDestination "chapter1" [JStr "XYZ"; JNum 72; JNum 100; JNull])
                sample_document)) !! "chapter1"
     = Some (JArr [JRef 5; JStr "XYZ"; JNum 72; JNum 692; JNull]).
Proof.
  assert (page sample_document = Some sample_page) as H by (vm_compute; reflexivity).
  split; [exact H |].
  destruct (XYZ_destination_stores_height_minus_Y sample_document "chapter1" sample_page
              (JNum 72) 100 [JNull] H)
    as (_ & _ & H692 & _).
  exact (H692 eq_refl eq_refl).
Defined.

Lemma switchToPage_out_of_bounds_throws_witness :
  switchToPage 1 sample_document
  = (Thrown (Error "switchToPage(1) out of bounds, current buffer covers pages 0 to 0"),
     sample_document).
Proof.
  destruct (switchToPage_out_of_bounds_throws sample_document 1) as (H & _).
  apply H. right. vm_compute. reflexivity.
Defined.

Lemma unrecognized_pdfVersion_yields_1_3_witness :
  exists d,
    PDFDocument_new sample_lib default_options 0 = (Returned tt, d)
    /\ version d = v1_3.
Proof.
  destruct (unrecognized_pdfVersion_yields_1_3 sample_lib default_options 0)
    as (d & E & H & _).
  exists d. split; [exact E |]. apply H. intros s _. discriminate.
Defined.

Lemma page_tree_Count_equals_Kids_length_witness :
  Pages_data (exec (invoke sample_lib m_flushPages) sample_document)
  = Pages_data sample_document.
Proof.
  destruct (page_tree_Count_equals_Kids_length sample_lib default_options 0 [])
    as (d0 & _ & _ & _ & _ & _ & H).
  apply (H m_flushPages sample_document). reflexivity.
Defined.

Lemma sample_lib_responsible : responsible sample_lib.
Proof. split; [intros p; reflexivity | split; reflexivity]. Defined.

Lemma constructor_leaves_its_own_references_outstanding_witness :
  Options.autoFirstPage buffered_options = JBool false
  /\ Options.password buffered_options = None
  /\ forallb page_free_method quiet_session = true
  /\ exists d0,
       PDFDocument_new sample_lib buffered_options 0 = (Returned tt, d0)
       /\ _waiting (session sample_lib quiet_session d0) = 3
       /\ completions (session sample_lib quiet_session d0) = 0%nat.
Proof.
  split; [reflexivity |]. split; [reflexivity |]. split; [reflexivity |].
  destruct (constructor_leaves_its_own_references_outstanding sample_lib buffered_options 0
              quiet_session eq_refl eq_refl eq_refl) as (d0 & E & Hw & _ & Hc & _).
  exists d0. split; [exact E |]. split; [exact Hw | exact Hc].
Defined.

Lemma end_completes_at_once_for_responsible_collaborators_witness :
  responsible sample_lib
  /\ forallb user_method sample_session = true
  /\ exists d0,
       PDFDocument_new sample_lib buffered_options 0 = (Returned tt, d0)
       /\ exists d', end_ sample_lib (session sample_lib sample_session d0)
                    = (Returned push_null, d')
            /\ _waiting d' = 0 /\ completions d' = 1%nat.
Proof.
  split; [exact sample_lib_responsible |]. split; [reflexivity |].
  destruct (end_completes_at_once_for_responsible_collaborators sample_lib buffered_options 0
              sample_session sample_lib_responsible eq_refl)
    as (d0 & E & d' & Ee & Hw & _ & Hc & _).
  exists d0. split; [exact E |]. exists d'. auto.
Defined.

Lemma page_numbers_are_creation_indices_witness :
  exists p,
    created sample_lib sample_session buffered_document !! 1%nat = Some p
    /\ switchToPage 1 (session sample_lib sample_session buffered_document)
       = (Returned p,
          set_page (Some p) (session sample_lib sample_session buffered_document)).
Proof.
  destruct (page_numbers_are_creation_indices sample_lib buffered_options 0 sample_session)
    as (d0 & E & _ & _ & H).
  assert (PDFDocument_new sample_lib buffered_options 0 = (Returned tt, buffered_document))
    as E0 by (vm_compute; reflexivity).
  rewrite E0 in E. injection E as <-.
  assert (_pageBufferStart (session sample_lib sample_session buffered_document) = 0) as Hs
    by (vm_compute; reflexivity).
  assert (length (_pageBuffer (session sample_lib sample_session buffered_document)) = 2%nat)
    as Hl by (vm_compute; reflexivity).
  assert (page buffered_document = None) as Hp by (vm_compute; reflexivity).
  rewrite Hs, Hl, Hp in H. destruct (H 1 ltac:(lia)) as (p & Hp1 & Hp2).
  rewrite app_nil_l in Hp1. change (Z.to_nat 1) with 1%nat in Hp1.
  exists p. split; [exact Hp1 | exact Hp2].
Defined.

Lemma addNamedDestination_defaults_to_XYZ_with_nulls_witness :
  page sample_document = Some sample_page
  /\ addNamedDestination "top" [] sample_document
     = (Returned tt,
        set_Names_data
          {| Dests := PDFNameTree_add "top"
                        (JArr [JRef (id (dictionary sample_page)); JStr "XYZ"; JNull; JNull;
                               JNull])
                        (Dests (Names_data sample_document));
             EmbeddedFiles := EmbeddedFiles (Names_data sample_document);
             JavaScript := JavaScript (Names_data sample_document) |} sample_document).
Proof.
  assert (page sample_document = Some sample_page) as Hp by (vm_compute; reflexivity).
  split; [exact Hp |].
  exact (proj1 (addNamedDestination_defaults_to_XYZ_with_nulls sample_document "top"
                  sample_page JNull [] Hp)).
Defined.

Lemma document_without_a_page_rejects_page_operations_witness :
  Options.autoFirstPage buffered_options = JBool false
  /\ exists d0,
       PDFDocument_new sample_lib buffered_options 0 = (Returned tt, d0)
       /\ page d0 = None
       /\ exists msg, addContent (Str "q") d0 = (Thrown (TypeError msg), d0).
Proof.
  split; [reflexivity |].
  destruct (document_without_a_page_rejects_page_operations sample_lib buffered_options 0
              eq_refl) as (d0 & E & Hp & _ & _ & Hc & _).
  exists d0. split; [exact E |]. split; [exact Hp | apply Hc].
Defined.


Lemma names_trees_are_created_on_first_use_witness :
  names_method m_flushPages = false
  /\ existsb embeds_file sample_session = false
  /\ exists d0,
       PDFDocument_new sample_lib buffered_options 0 = (Returned tt, d0)
       /\ Names_data (exec (invoke sample_lib m_flushPages) d0) = Names_data d0
       /\ EmbeddedFiles (Names_data (session sample_lib sample_session d0)) = None.
Proof.
  split; [reflexivity |]. split; [reflexivity |].
  destruct (names_trees_are_created_on_first_use sample_lib buffered_options 0 sample_session)
    as (d0 & E & _ & Hf & He & _).
  exists d0. split; [exact E |]. split; [apply Hf; reflexivity | apply He; reflexivity].
Defined.

(** ** Where the specification and the code part *)

(** A ['FitR'] destination (left, bottom, right, top) on a page of height
    792: the coordinate 100 at index 2 is stored as 100, not as 692. *)
Lemma FitR_destination_keeps_Y : ~ every_destination_flips_Y.
Proof.
  intros H.
  destruct (H sample_document "box" [JStr "FitR"; JNum 0; JNum 100; JNum 612; JNum 792]
              sample_page 100) as (stored & Hstored & Hy).
  - vm_compute. reflexivity.
  - reflexivity.
  - assert (Dests (Names_data
                     (exec (addNamedDestination "box"
                              [JStr "FitR"; JNum 0; JNum 100; JNum 612; JNum 792])
                        sample_document)) !! "box"
            = Some (JArr [JRef 5; JStr "FitR"; JNum 0; JNum 100; JNum 612; JNum 792])) as E.
    { vm_compute. reflexivity. }
    rewrite E in Hstored. injection Hstored as <-.
    vm_compute in Hy. discriminate.
Qed.
